(** * Ax: the BoTorch model facades ([ax.models.torch.botorch],
      [ax.models.torch.botorch_modular.model])

    A shallow embedding of the flat facade [BotorchModel], of the modular
    facade [BoTorchModel] and of the rounding adapter [get_rounding_func],
    followed by the properties of the candidate-generation pipeline.

    Conventions of the embedding.
    - A Python call that may raise returns [Res A]; [str(e)] of an exception
      built from one message is that message ([exn_msg]).
    - Tensors are a shape with the elements in row-major order, tagged with
      dtype, device and the autograd flag.  Elements are an abstract type
      [Scalar]: the facades never compute on them.  The strides a tensor is
      stored with are kept apart from this value; [view] is the one operation
      here that depends on them.
    - The facades call collaborators (strategy callables, helpers of
      [ax.models.torch.utils], methods of BoTorch objects).  Those are
      parameters: functions on an environment [Env] that may raise.  Every call
      a facade makes is appended to a trace, with the arguments it passed and
      the environment the callee started in.
    - A call [f(k=v, **d)] raises [TypeError] before [f] runs when [d] is not a
      dictionary or repeats a keyword; the message leaves out the name of [f]
      and of the keyword.
    - Collaborators do not assign attributes of the facade. *)

From stdpp Require Import gmap strings list fin_maps.
From Stdlib Require Import ZArith Lia.

#[local] Set Warnings "-register-all".
#[local] Open Scope string_scope.
#[local] Open Scope list_scope.

(** ** Exceptions and fallible results *)

Inductive ExnClass :=
| NotImplementedError
| RuntimeError
| ValueError
| TypeError
| IndexError
| UnsupportedError            (* botorch.exceptions.errors.UnsupportedError *)
| OtherError (name : string).  (* any other class, by name *)

Record Exn := mkExn { exn_class : ExnClass; exn_msg : string }.

Inductive Res (A : Type) :=
| Ok (a : A)
| Raise (e : Exn).
Arguments Ok {A} a.
Arguments Raise {A} e.

#[export] Instance Res_ret : MRet Res := fun _ a => Ok a.
#[export] Instance Res_bind : MBind Res := fun _ _ k r =>
  match r with Ok a => k a | Raise e => Raise e end.

Definition is_ok {A} (r : Res A) : bool :=
  match r with Ok _ => true | Raise _ => false end.

(** [isinstance(e, UnsupportedError)]: the class has no subclass among the
    classes named here. *)
Definition is_UnsupportedError (e : Exn) : bool :=
  match exn_class e with UnsupportedError => true | _ => false end.

(** [p in s] on strings. *)
Fixpoint str_contains (p s : string) : bool :=
  String.prefix p s ||
  match s with
  | EmptyString => false
  | String _ s' => str_contains p s'
  end.

(** ** Tensors *)

Inductive Dtype := Bool | Int32 | Int64 | Float16 | Float32 | Float64.
Inductive Device := cpu | cuda (index : nat).

#[export] Instance Dtype_eq_dec : EqDecision Dtype.
Proof. solve_decision. Defined.
#[export] Instance Device_eq_dec : EqDecision Device.
Proof. solve_decision. Defined.

Definition dtype_rank (t : Dtype) : nat :=
  match t with
  | Bool => 0 | Int32 => 1 | Int64 => 2
  | Float16 => 3 | Float32 => 4 | Float64 => 5
  end.

(** [torch.promote_types] on the dtypes above. *)
Definition promote_types (a b : Dtype) : Dtype :=
  if (dtype_rank a <? dtype_rank b)%nat then b else a.

(** [torch.get_default_dtype()] as shipped. *)
Definition default_dtype : Dtype := Float32.

Definition prod_list (s : list nat) : nat := foldr Nat.mul 1 s.

Section Tensors.
Context {Scalar : Type}.

Record Tensor := mkTensor {
  t_shape : list nat;
  t_data : list Scalar;
  t_dtype : Dtype;
  t_device : Device;
  t_requires_grad : bool;
}.

Definition numel (t : Tensor) : nat := prod_list (t_shape t).

Definition reshaped (t : Tensor) (s : list nat) : Tensor :=
  {| t_shape := s; t_data := t_data t; t_dtype := t_dtype t;
     t_device := t_device t; t_requires_grad := t_requires_grad t |}.

(** [X.shape[-1]] *)
Definition shape_last (t : Tensor) : Res nat :=
  match last (t_shape t) with
  | Some d => Ok d
  | None => Raise (mkExn IndexError "tuple index out of range")
  end.

(** [X.shape[:-1]] *)
Definition shape_init (t : Tensor) : list nat := removelast (t_shape t).

(** [X.view] with explicit sizes [s], on a tensor in the default layout. *)
Definition view (t : Tensor) (s : list nat) : Res Tensor :=
  if bool_decide (prod_list s = numel t) then Ok (reshaped t s)
  else Raise (mkExn RuntimeError "shape is invalid for input size").

(** [X.view(-1, d)] on a tensor in the default layout; [view_rows_at] below is
    the same for other strides. *)
Definition view_rows (t : Tensor) (d : nat) : Res Tensor :=
  if bool_decide (d = 0) then
    Raise (mkExn RuntimeError
      (if bool_decide (numel t = 0)
       then "cannot reshape tensor of 0 elements into shape [-1, 0]"
       else "shape is invalid for input size"))
  else if bool_decide (numel t `mod` d = 0) then
    Ok (reshaped t [numel t `div` d; d])
  else Raise (mkExn RuntimeError "shape is invalid for input size").

(** [t[k]] along the first dimension, for a tensor whose trailing shape is [s]. *)
Definition select0 (t : Tensor) (s : list nat) (k : nat) : Tensor :=
  {| t_shape := s;
     t_data := take (prod_list s) (drop (k * prod_list s) (t_data t));
     t_dtype := t_dtype t; t_device := t_device t;
     t_requires_grad := t_requires_grad t |}.

(** [for x in t]: iteration along the first dimension. *)
Definition iter_tensor (t : Tensor) : Res (list Tensor) :=
  match t_shape t with
  | [] => Raise (mkExn TypeError "iteration over a 0-d tensor")
  | n :: s => Ok (select0 t s <$> seq 0 n)
  end.

(** Tags of the result of [torch.stack] / [torch.cat]. *)
Definition stacked_dtype (t0 : Tensor) (ts : list Tensor) : Dtype :=
  foldl (fun a t => promote_types a (t_dtype t)) (t_dtype t0) ts.

Definition stacked (t0 : Tensor) (ts : list Tensor) : Tensor :=
  {| t_shape := S (length ts) :: t_shape t0;
     t_data := concat (t_data <$> (t0 :: ts));
     t_dtype := stacked_dtype t0 ts;
     t_device := t_device t0;
     t_requires_grad := existsb t_requires_grad (t0 :: ts) |}.

(** [torch.stack(ts)] along a new first dimension. *)
Definition stack (ts : list Tensor) : Res Tensor :=
  match ts with
  | [] => Raise (mkExn RuntimeError "stack expects a non-empty TensorList")
  | t0 :: rest =>
      if negb (forallb (fun t => bool_decide (t_shape t = t_shape t0)) rest) then
        Raise (mkExn RuntimeError "stack expects each tensor to be equal size")
      else if negb (forallb (fun t => bool_decide (t_device t = t_device t0)) rest) then
        Raise (mkExn RuntimeError "Expected all tensors to be on the same device")
      else Ok (stacked t0 rest)
  end.

(** [t.detach()] and [t.cpu()] *)
Definition detach (t : Tensor) : Tensor :=
  {| t_shape := t_shape t; t_data := t_data t; t_dtype := t_dtype t;
     t_device := t_device t; t_requires_grad := false |}.

Definition to_cpu (t : Tensor) : Tensor :=
  {| t_shape := t_shape t; t_data := t_data t; t_dtype := t_dtype t;
     t_device := cpu; t_requires_grad := t_requires_grad t |}.

(** ** The rounding adapter (botorch.py, [get_rounding_func]) *)

Definition botorch_rounding_func
    (rounding_func : Tensor -> Res Tensor) (X : Tensor) : Res Tensor :=
  let batch_shape := shape_init X in
  d ← shape_last X;
  Xv ← view_rows X d;
  xs ← iter_tensor Xv;
  rounded ← mapM rounding_func xs;
  X_round ← stack rounded;
  view X_round (batch_shape ++ [d]).

Definition get_rounding_func
    (rounding_func : option (Tensor -> Res Tensor))
    : option (Tensor -> Res Tensor) :=
  match rounding_func with
  | None => None
  | Some f => Some (botorch_rounding_func f)
  end.

(** *** The adapter as the specification words it

    The [k]-th [d]-length row of [X], counting rows in row-major order over
    all leading dimensions: for a [(q, d)] batch row [k] is [X[k]], for an
    [(s, q, d)] batch row [i * q + j] is [X[i, j]]. *)
Definition row_of (X : Tensor) (d : nat) (k : nat) : Tensor := select0 X [d] k.

Definition rows_of (X : Tensor) (d : nat) : list Tensor :=
  row_of X d <$> seq 0 (prod_list (shape_init X)).

(** Apply [f] to every row on its own and put the results back in the shape
    of [X]. *)
Definition round_rowwise (f : Tensor -> Res Tensor) (X : Tensor) : Res Tensor :=
  match last (t_shape X) with
  | None => Raise (mkExn IndexError "tuple index out of range")
  | Some d =>
      rounded ← mapM f (rows_of X d);
      match rounded with
      | [] => Ok X
      | r0 :: rest => Ok (reshaped (stacked r0 rest) (t_shape X))
      end
  end.

End Tensors.
Arguments Tensor : clear implicits.

(** ** The layout of a tensor and [view]

    A [Tensor] is a tensor's value.  Where its elements lie in memory, its
    strides, is kept apart from the value, as a list with one stride per
    dimension: [view] is the one operation of the adapter that depends on it.
    [view_rows] and [botorch_rounding_func] above are [X.view(-1, d)] and the
    adapter on a tensor in the default, contiguous layout, where a view only
    has to fit the number of elements; [view_rows_at] and
    [botorch_rounding_func_at] are the same on a tensor stored with the
    strides [strides]. *)

Section Layout.
Context {Scalar : Type}.

(** The strides of a contiguous tensor of shape [s]: the last dimension has
    stride 1, every other one the stride of the next times its size (taken as
    1 when it is 0). *)
Fixpoint contiguous_strides (s : list nat) : list nat :=
  match s with
  | [] => []
  | _ :: s' => prod_list (Nat.max 1 <$> s') :: contiguous_strides s'
  end.

(** The strides of a contiguous tensor, last dimension first: the running
    product of the sizes. *)
Fixpoint running_strides (r : list nat) (p : nat) : list nat :=
  match r with
  | [] => []
  | x :: r' => p :: running_strides r' (p * x)
  end.

(** Whether a view of the sizes [newshape] exists on a tensor of the sizes
    [oldshape] stored with [oldstride]: PyTorch's [computeStride], without
    the strides of the view.  The dimensions of the tensor are read from the
    last one; a chunk of dimensions ends where the next dimension (unless its
    size is 1) does not continue the memory order, and the dimensions of the
    view, also read from the last one, have to fill chunk after chunk
    exactly.

    [fill_chunk] gives the dimensions of the view [rnew] (last one first) to
    a chunk of [tensor_numel] elements, as long as the chunk is not full or
    the dimension has size 1; it returns the number of elements given and the
    dimensions left. *)
Fixpoint fill_chunk (tensor_numel view_numel : nat) (rnew : list nat)
    : nat * list nat :=
  match rnew with
  | [] => (view_numel, [])
  | n :: rest =>
      if ((view_numel <? tensor_numel) || (n =? 1))%nat then
        fill_chunk tensor_numel (view_numel * n) rest
      else (view_numel, rnew)
  end.

(** [rold] holds the sizes and strides of the tensor, last dimension first;
    [base] is the stride of the last dimension of the current chunk and
    [tensor_numel] the number of elements of the chunk so far. *)
Fixpoint chunks_fit (rold : list (nat * nat)) (base tensor_numel : nat)
    (rnew : list nat) : bool :=
  match rold with
  | [] => false
  | (size, _) :: rest =>
      let tensor_numel := tensor_numel * size in
      match rest with
      | [] =>
          let '(view_numel, rnew') := fill_chunk tensor_numel 1 rnew in
          (view_numel =? tensor_numel)%nat && bool_decide (rnew' = [])
      | (size', stride') :: _ =>
          if negb (size' =? 1)%nat && negb (stride' =? tensor_numel * base)%nat then
            let '(view_numel, rnew') := fill_chunk tensor_numel 1 rnew in
            (view_numel =? tensor_numel)%nat && chunks_fit rest stride' 1 rnew'
          else chunks_fit rest base tensor_numel rnew
      end
  end.

(** A tensor without dimensions or without elements can always be viewed. *)
Definition viewable (oldshape oldstride newshape : list nat) : bool :=
  match reverse (zip oldshape oldstride) with
  | [] => true
  | ((_, base) :: _) as rold =>
      if (prod_list oldshape =? 0)%nat then true
      else chunks_fit rold base 1 (reverse newshape)
  end.

Definition view_not_compatible : Exn :=
  mkExn RuntimeError
    "view size is not compatible with input tensor's size and stride".

(** [X.view(-1, d)] on a tensor stored with [strides]: the size of the first
    dimension is inferred, then the strides are checked. *)
Definition view_rows_at (strides : list nat) (t : Tensor Scalar) (d : nat)
    : Res (Tensor Scalar) :=
  Xv ← view_rows t d;
  if viewable (t_shape t) strides (t_shape Xv) then Ok Xv
  else Raise view_not_compatible.

(** [botorch_rounding_func] on a tensor stored with [strides].  [torch.stack]
    returns a contiguous tensor, so the last [view] only has to fit the number
    of elements. *)
Definition botorch_rounding_func_at (strides : list nat)
    (rounding_func : Tensor Scalar -> Res (Tensor Scalar)) (X : Tensor Scalar)
    : Res (Tensor Scalar) :=
  let batch_shape := shape_init X in
  d ← shape_last X;
  Xv ← view_rows_at strides X d;
  xs ← iter_tensor Xv;
  rounded ← mapM rounding_func xs;
  X_round ← stack rounded;
  view X_round (batch_shape ++ [d]).

End Layout.

(** ** Python values carried in option dictionaries and metadata *)

Class ScalarOps (Scalar : Type) := {
  scalar_one : Scalar;                (* the element of [torch.ones] *)
  scalar_nonzero : Scalar -> bool;    (* truth value of a number *)
}.

Section PyValues.
Context {Scalar : Type} `{ScalarOps Scalar}.

Inductive PyVal :=
| VNone
| VBool (b : bool)
| VInt (z : Z)
| VFloat (x : Scalar)
| VStr (s : string)
| VList (l : list PyVal)
| VDict (d : gmap string PyVal)
| VObj (id : positive).          (* any other object; truthy *)

(** [bool(v)] *)
Definition truthy (v : PyVal) : bool :=
  match v with
  | VNone => false
  | VBool b => b
  | VInt z => negb (z =? 0)%Z
  | VFloat x => scalar_nonzero x
  | VStr s => negb (String.eqb s "")
  | VList l => negb (bool_decide (l = []))
  | VDict d => negb (bool_decide (dom d = ∅))
  | VObj _ => true
  end.

(** [d.get(key, dflt)] *)
Definition dict_get (d : gmap string PyVal) (key : string) (dflt : PyVal) : PyVal :=
  default dflt (d !! key).

(** Truth value of an optional dictionary: [None] and the empty dictionary
    are false. *)
Definition truthy_dict {K V} `{Countable K} (d : option (gmap K V)) : bool :=
  match d with
  | None => false
  | Some m => negb (bool_decide (dom m = ∅))
  end.

(** [d or {}] *)
Definition or_empty (d : option (gmap string PyVal)) : gmap string PyVal :=
  default ∅ d.

Definition TypeError_not_a_mapping : Exn :=
  mkExn TypeError "argument after ** must be a mapping".
Definition TypeError_multiple_values : Exn :=
  mkExn TypeError "got multiple values for keyword argument".

(** Keyword arguments [**v] after the keywords [named] given by name. *)
Definition kw_splat (named : gset string) (v : PyVal) : Res (gmap string PyVal) :=
  match v with
  | VDict d =>
      if bool_decide (dom d ## named) then Ok d
      else Raise TypeError_multiple_values
  | _ => Raise TypeError_not_a_mapping
  end.

(** A further [**add] after the keywords [named] and [**d]. *)
Definition kw_splat_more (named : gset string) (d add : gmap string PyVal)
    : Res (gmap string PyVal) :=
  if bool_decide (dom add ## named ∪ dom d) then Ok (d ∪ add)
  else Raise TypeError_multiple_values.

(** [t.tolist()]: a number for a 0-d tensor (it holds one element), nested
    lists otherwise. *)
Fixpoint nest (s : list nat) (data : list Scalar) : PyVal :=
  match s with
  | [] => match data with x :: _ => VFloat x | [] => VList [] end
  | n :: s' =>
      VList ((fun k => nest s' (take (prod_list s') (drop (k * prod_list s') data)))
             <$> seq 0 n)
  end.

Definition tolist (t : Tensor Scalar) : PyVal := nest (t_shape t) (t_data t).

(** A number, or nested lists of numbers. *)
Fixpoint is_numeric (v : PyVal) : bool :=
  match v with
  | VFloat _ => true
  | VList l => forallb is_numeric l
  | _ => false
  end.

(** [torch.ones(n, dtype=dtype)] *)
Definition torch_ones (n : Z) (dtype : option Dtype) : Res (Tensor Scalar) :=
  if (n <? 0)%Z then
    Raise (mkExn RuntimeError "Trying to create tensor with negative dimension")
  else
    Ok {| t_shape := [Z.to_nat n];
          t_data := replicate (Z.to_nat n) scalar_one;
          t_dtype := default default_dtype dtype;
          t_device := cpu;
          t_requires_grad := false |}.

(** [torch.tensor(bounds, dtype=dtype, device=device)] for a list of pairs. *)
Definition torch_tensor_pairs (bounds : list (Scalar * Scalar))
    (dtype : option Dtype) (device : option Device) : Tensor Scalar :=
  {| t_shape := match bounds with [] => [0] | _ => [length bounds; 2] end;
     t_data := concat ((fun p => [p.1; p.2]) <$> bounds);
     t_dtype := default default_dtype dtype;
     t_device := default cpu device;
     t_requires_grad := false |}.

(** [t.transpose(0, 1)] *)
Definition transpose01 (t : Tensor Scalar) : Res (Tensor Scalar) :=
  match t_shape t with
  | a :: b :: rest =>
      let k := prod_list rest in
      Ok {| t_shape := b :: a :: rest;
            t_data := concat ((fun j => concat ((fun i =>
                        take k (drop ((i * b + j) * k) (t_data t))) <$> seq 0 a))
                      <$> seq 0 b);
            t_dtype := t_dtype t; t_device := t_device t;
            t_requires_grad := t_requires_grad t |}
  | _ => Raise (mkExn IndexError "Dimension out of range")
  end.

End PyValues.
Arguments PyVal : clear implicits.

(** ** Environment, call trace and the facade monad *)

Definition loc := positive.

(** [Keys] of [ax.utils.common.constants]: a string enumeration, used here
    through the values of its members. *)
Record KeysT := {
  ACQF_KWARGS : string;
  OPTIMIZER_KWARGS : string;
  SUBSET_MODEL : string;
  EXPECTED_ACQF_VAL : string;
}.

Section World.
Context {Scalar : Type} {Ext : Type}.

(** A [state_dict]: parameter names with their tensors. *)
Definition StateDict : Type := list (string * Tensor Scalar).

(** Dictionary objects live on a heap, so that a copy is told from an alias;
    [Ext] is whatever else the collaborators keep. *)
Record Env := mkEnv {
  heap : gmap loc StateDict;
  ext : Ext;
}.

(** A collaborator: runs on the environment, returns or raises. *)
Definition Collab (A : Type) : Type := Env -> Res A * Env.

(** [copy.deepcopy] of a dictionary object: a new object with equal contents.
    Collaborators return references to objects that exist; one that does not
    reads as the empty dictionary. *)
Definition deepcopy (l : loc) (e : Env) : loc * Env :=
  let l' := fresh (dom (heap e)) in
  (l', {| heap := <[l' := heap e !!! l]> (heap e); ext := ext e |}).

(** *** The monad: a facade [F], the environment and a trace of events [Ev]

    The trace keeps every call with the environment the callee started in. *)

Record St (F Ev : Type) := mkSt {
  self : F;
  env : Env;
  trace : list (Ev * Env);
}.
Arguments mkSt {F Ev}.
Arguments self {F Ev}.
Arguments env {F Ev}.
Arguments trace {F Ev}.

Definition M (F Ev A : Type) : Type := St F Ev -> Res A * St F Ev.

Definition retM {F Ev A} (a : A) : M F Ev A := fun st => (Ok a, st).

Definition raiseM {F Ev A} (e : Exn) : M F Ev A := fun st => (Raise e, st).

Definition bindM {F Ev A B} (c : M F Ev A) (k : A -> M F Ev B) : M F Ev B :=
  fun st =>
    match c st with
    | (Ok a, st') => k a st'
    | (Raise e, st') => (Raise e, st')
    end.

(** A pure step that may raise. *)
Definition liftR {F Ev A} (r : Res A) : M F Ev A := fun st => (r, st).

(** Read and assign attributes of [self]. *)
Definition get_self {F Ev} : M F Ev F := fun st => (Ok (self st), st).

Definition set_self {F Ev} (f : F -> F) : M F Ev unit :=
  fun st => (Ok tt, {| self := f (self st); env := env st; trace := trace st |}).

(** Call a collaborator: the call is logged, then it runs. *)
Definition call {F Ev A} (ev : Ev) (c : Collab A) : M F Ev A :=
  fun st =>
    let '(r, e') := c (env st) in
    (r, {| self := self st; env := e'; trace := trace st ++ [(ev, env st)] |}).

(** A library step on the environment that cannot raise. *)
Definition on_env {F Ev A} (c : Env -> A * Env) : M F Ev A :=
  fun st =>
    let '(a, e') := c (env st) in
    (Ok a, {| self := self st; env := e'; trace := trace st |}).

(** What a run of [c] from [st] adds to the trace. *)
Definition new_events {F Ev A} (c : M F Ev A) (st : St F Ev) : list (Ev * Env) :=
  drop (length (trace st)) (trace (c st).2).

(** [c] assigns no attribute of [self]. *)
Definition keeps_self {F Ev A} (c : M F Ev A) : Prop :=
  forall st, self (c st).2 = self st.

(** [l'] is a new object of [e'] that holds what [l] holds in [e]; everything
    else is as in [e]. *)
Definition fresh_copy (e : Env) (l : loc) (e' : Env) (l' : loc) : Prop :=
  (l' ∉ dom (heap e)) /\
  heap e' !! l' = Some (heap e !!! l) /\
  (forall k, k <> l' -> heap e' !! k = heap e !! k) /\
  ext e' = ext e.

(** [try: c  except Exception as e: h e] *)
Definition try_except {F Ev A} (c : M F Ev A) (h : Exn -> M F Ev A) : M F Ev A :=
  fun st =>
    match c st with
    | (Ok a, st') => (Ok a, st')
    | (Raise e, st') => h e st'
    end.

End World.

Arguments Env : clear implicits.
Arguments mkSt {Scalar Ext F Ev}.
Arguments self {Scalar Ext F Ev}.
Arguments env {Scalar Ext F Ev}.
Arguments trace {Scalar Ext F Ev}.

Declare Scope facade_scope.
Delimit Scope facade_scope with facade.
Notation "'let*' x := c 'in' k" := (bindM c (fun x => k))
  (at level 10, x name, c at level 200, k at level 200, only parsing)
  : facade_scope.
Notation "'let*' ' p := c 'in' k" := (bindM c (fun x => match x with p => k end))
  (at level 10, p pattern, c at level 200, k at level 200, only parsing)
  : facade_scope.

#[local] Open Scope facade_scope.

(** ** Arguments shared by the two facades *)

Section CallArguments.
Context {Scalar : Type}.

Definition TensorPair : Type := Tensor Scalar * Tensor Scalar.
Definition Bounds : Type := list (Scalar * Scalar).
Definition FixedFeatures : Type := option (gmap Z Scalar).
Definition RoundingFunc : Type := option (Tensor Scalar -> Res (Tensor Scalar)).
Definition InequalityConstraints : Type :=
  option (list (Tensor Scalar * Tensor Scalar * Scalar)).

(** The objective specification of [gen] and [best_point]. *)
Record ObjectiveSpec := {
  bounds : Bounds;
  objective_weights : Tensor Scalar;
  outcome_constraints : option TensorPair;
  linear_constraints : option TensorPair;
  fixed_features : FixedFeatures;
  model_gen_options : option (gmap string (PyVal Scalar));
  target_fidelities : option (gmap Z Scalar);
}.

(** The arguments of [gen]. *)
Record GenArgs := {
  n : Z;
  spec : ObjectiveSpec;
  pending_observations : option (list (Tensor Scalar));
  rounding_func : RoundingFunc;
}.

(** The result tuple of [gen]. *)
Definition GenResult : Type :=
  Tensor Scalar * Tensor Scalar * gmap string (PyVal Scalar)
  * option (list (PyVal Scalar)).

End CallArguments.
Arguments ObjectiveSpec : clear implicits.
Arguments GenArgs : clear implicits.
Arguments GenResult : clear implicits.
Arguments TensorPair : clear implicits.
Arguments Bounds : clear implicits.
Arguments FixedFeatures : clear implicits.
Arguments RoundingFunc : clear implicits.
Arguments InequalityConstraints : clear implicits.

(** ** The flat facade: [BotorchModel] (botorch.py) *)

(** The part of [SearchSpaceDigest] that [fit] reads. *)
Record SearchSpaceDigest := {
  ssd_task_features : list Z;
  ssd_fidelity_features : list Z;
}.

Module Flat.
Section Facade.
Context {Scalar : Type} `{ScalarOps Scalar}.
(** Opaque objects: a BoTorch [Model], an [AcquisitionFunction], and the
    collaborators' own state. *)
Context {Model AcquisitionFunction Ext : Type}.

Abbreviation Tensor := (Tensor Scalar).
Abbreviation PyVal := (PyVal Scalar).
Abbreviation Collab := (@Collab Scalar Ext).

(** *** Attributes *)

Record BotorchModel := mkBotorchModel {
  _kwargs : gmap string PyVal;
  refit_on_cv : bool;
  refit_on_update : bool;
  warm_start_refitting : bool;
  use_input_warping : bool;
  use_loocv_pseudo_likelihood : bool;
  model : option Model;
  Xs : list Tensor;
  Ys : list Tensor;
  Yvars : list Tensor;
  dtype : option Dtype;
  device : option Device;
  task_features : list Z;
  fidelity_features : list Z;
  metric_names : list string;
}.

(** *** Arguments of the collaborator calls *)

(** model_constructor(Xs, Ys, Yvars, task_features, fidelity_features,
    metric_names, state_dict, ...).  [state_dict] and [refit_model] are [None]
    when the keyword is not passed at all ([fit]); a passed [state_dict=None]
    is [Some None]. *)
Record ModelConstructorArgs := {
  mc_Xs : list Tensor;
  mc_Ys : list Tensor;
  mc_Yvars : list Tensor;
  mc_task_features : list Z;
  mc_fidelity_features : list Z;
  mc_metric_names : list string;
  mc_state_dict : option (option loc);
  mc_refit_model : option bool;
  mc_use_input_warping : bool;
  mc_use_loocv_pseudo_likelihood : bool;
  mc_kwargs : gmap string PyVal;
}.

Record AcqfConstructorArgs := {
  ac_model : option Model;
  ac_objective_weights : Tensor;
  ac_outcome_constraints : option (TensorPair Scalar);
  ac_X_observed : option Tensor;
  ac_X_pending : option Tensor;
  ac_kwargs : gmap string PyVal;
}.

Record AcqfOptimizerArgs := {
  ao_acq_function : AcquisitionFunction;
  ao_bounds : Tensor;
  ao_n : Z;
  ao_inequality_constraints : InequalityConstraints Scalar;
  ao_fixed_features : FixedFeatures Scalar;
  ao_rounding_func : RoundingFunc Scalar;
  ao_kwargs : gmap string PyVal;
}.

Record PendingObservedArgs := {
  po_Xs : list Tensor;
  po_pending_observations : option (list Tensor);
  po_objective_weights : Tensor;
  po_outcome_constraints : option (TensorPair Scalar);
  po_bounds : Bounds Scalar;
  po_linear_constraints : option (TensorPair Scalar);
  po_fixed_features : FixedFeatures Scalar;
}.

(** Result of [subset_model]. *)
Record SubsetModelData := {
  sm_model : Model;
  sm_objective_weights : Tensor;
  sm_outcome_constraints : option (TensorPair Scalar);
}.

(** *** The trace: one event per call to a collaborator *)

Inductive Event :=
| CallModelConstructor (a : ModelConstructorArgs)
| CallModelPredictor (m : option Model) (X : Tensor)
| CallStateDict (m : Model)
| CallGetXPendingAndObserved (a : PendingObservedArgs)
| CallSubsetModel (m : option Model) (ow : Tensor) (oc : option (TensorPair Scalar))
| CallAcqfConstructor (a : AcqfConstructorArgs)
| CallAcqfOptimizer (a : AcqfOptimizerArgs)
| CallBestPointRecommender (facade : BotorchModel) (s : ObjectiveSpec Scalar).

Abbreviation FM := (M (Scalar:=Scalar) (Ext:=Ext) BotorchModel Event).

(** *** Collaborators

    The five strategy callables that [__init__] stores; the helpers of
    [ax.models.torch.utils] and [ax.utils.common.typeutils]; the [state_dict]
    method of a BoTorch model; the string enumeration [Keys]. *)
Record Collaborators := {
  model_constructor : ModelConstructorArgs -> Collab Model;
  model_predictor : option Model -> Tensor -> Collab (Tensor * Tensor);
  acqf_constructor : AcqfConstructorArgs -> Collab AcquisitionFunction;
  acqf_optimizer : AcqfOptimizerArgs -> Collab (Tensor * Tensor);
  best_point_recommender :
    BotorchModel -> ObjectiveSpec Scalar -> Collab (option Tensor);
  _get_X_pending_and_observed :
    PendingObservedArgs -> Collab (option Tensor * option Tensor);
  subset_model :
    option Model -> Tensor -> option (TensorPair Scalar) -> Collab SubsetModelData;
  _to_inequality_constraints :
    option (TensorPair Scalar) -> Res (InequalityConstraints Scalar);
  normalize_indices : list Z -> nat -> Res (list Z);
  checked_cast_AcquisitionFunction :
    AcquisitionFunction -> Res AcquisitionFunction;
  state_dict : Model -> Collab loc;
  Keys : KeysT;
}.

Variable C : Collaborators.

(** [__init__]: nothing fitted, nothing stored. *)
Definition BotorchModel_init
    (refit_on_cv refit_on_update warm_start_refitting
     use_input_warping use_loocv_pseudo_likelihood : bool)
    (kwargs : gmap string PyVal) : BotorchModel :=
  {| _kwargs := kwargs;
     refit_on_cv := refit_on_cv;
     refit_on_update := refit_on_update;
     warm_start_refitting := warm_start_refitting;
     use_input_warping := use_input_warping;
     use_loocv_pseudo_likelihood := use_loocv_pseudo_likelihood;
     model := None;
     Xs := []; Ys := []; Yvars := [];
     dtype := None; device := None;
     task_features := []; fidelity_features := [];
     metric_names := [] |}.

(** Attribute assignments. *)
Definition with_model (m : option Model) (s : BotorchModel) : BotorchModel :=
  {| _kwargs := _kwargs s; refit_on_cv := refit_on_cv s;
     refit_on_update := refit_on_update s;
     warm_start_refitting := warm_start_refitting s;
     use_input_warping := use_input_warping s;
     use_loocv_pseudo_likelihood := use_loocv_pseudo_likelihood s;
     model := m;
     Xs := Xs s; Ys := Ys s; Yvars := Yvars s;
     dtype := dtype s; device := device s;
     task_features := task_features s;
     fidelity_features := fidelity_features s;
     metric_names := metric_names s |}.

Definition with_observations (xs ys yvars : list Tensor) (s : BotorchModel)
    : BotorchModel :=
  {| _kwargs := _kwargs s; refit_on_cv := refit_on_cv s;
     refit_on_update := refit_on_update s;
     warm_start_refitting := warm_start_refitting s;
     use_input_warping := use_input_warping s;
     use_loocv_pseudo_likelihood := use_loocv_pseudo_likelihood s;
     model := model s;
     Xs := xs; Ys := ys; Yvars := yvars;
     dtype := dtype s; device := device s;
     task_features := task_features s;
     fidelity_features := fidelity_features s;
     metric_names := metric_names s |}.

Definition with_dtype_device (dt : Dtype) (dv : Device) (s : BotorchModel)
    : BotorchModel :=
  {| _kwargs := _kwargs s; refit_on_cv := refit_on_cv s;
     refit_on_update := refit_on_update s;
     warm_start_refitting := warm_start_refitting s;
     use_input_warping := use_input_warping s;
     use_loocv_pseudo_likelihood := use_loocv_pseudo_likelihood s;
     model := model s;
     Xs := Xs s; Ys := Ys s; Yvars := Yvars s;
     dtype := Some dt; device := Some dv;
     task_features := task_features s;
     fidelity_features := fidelity_features s;
     metric_names := metric_names s |}.

Definition with_task_features (tf : list Z) (s : BotorchModel) : BotorchModel :=
  {| _kwargs := _kwargs s; refit_on_cv := refit_on_cv s;
     refit_on_update := refit_on_update s;
     warm_start_refitting := warm_start_refitting s;
     use_input_warping := use_input_warping s;
     use_loocv_pseudo_likelihood := use_loocv_pseudo_likelihood s;
     model := model s;
     Xs := Xs s; Ys := Ys s; Yvars := Yvars s;
     dtype := dtype s; device := device s;
     task_features := tf;
     fidelity_features := fidelity_features s;
     metric_names := metric_names s |}.

Definition with_fidelity_features (ff : list Z) (s : BotorchModel) : BotorchModel :=
  {| _kwargs := _kwargs s; refit_on_cv := refit_on_cv s;
     refit_on_update := refit_on_update s;
     warm_start_refitting := warm_start_refitting s;
     use_input_warping := use_input_warping s;
     use_loocv_pseudo_likelihood := use_loocv_pseudo_likelihood s;
     model := model s;
     Xs := Xs s; Ys := Ys s; Yvars := Yvars s;
     dtype := dtype s; device := device s;
     task_features := task_features s;
     fidelity_features := ff;
     metric_names := metric_names s |}.

Definition with_metric_names (mn : list string) (s : BotorchModel) : BotorchModel :=
  {| _kwargs := _kwargs s; refit_on_cv := refit_on_cv s;
     refit_on_update := refit_on_update s;
     warm_start_refitting := warm_start_refitting s;
     use_input_warping := use_input_warping s;
     use_loocv_pseudo_likelihood := use_loocv_pseudo_likelihood s;
     model := model s;
     Xs := Xs s; Ys := Ys s; Yvars := Yvars s;
     dtype := dtype s; device := device s;
     task_features := task_features s;
     fidelity_features := fidelity_features s;
     metric_names := mn |}.

(** [Xs[0]] *)
Definition first_tensor (xs : list Tensor) : Res Tensor :=
  match xs with
  | x :: _ => Ok x
  | [] => Raise (mkExn IndexError "list index out of range")
  end.

(** Keywords that [fit] passes to the model constructor by name; [update] and
    [cross_validate] also pass [state_dict] and [refit_model]. *)
Definition fit_keywords : gset string :=
  {[ "Xs"; "Ys"; "Yvars"; "task_features"; "fidelity_features"; "metric_names";
     "use_input_warping"; "use_loocv_pseudo_likelihood" ]}.

Definition refit_keywords : gset string :=
  fit_keywords ∪ {[ "state_dict"; "refit_model" ]}.

Definition fit (Xs_ Ys_ Yvars_ : list Tensor)
    (search_space_digest : SearchSpaceDigest) (metric_names_ : list string)
    : FM unit :=
  let* X0 := liftR (first_tensor Xs_) in
  let* _ := set_self (with_dtype_device (t_dtype X0) (t_device X0)) in
  let* _ := set_self (with_observations Xs_ Ys_ Yvars_) in
  let* d := liftR (shape_last X0) in
  let* tf :=
    liftR (normalize_indices C (ssd_task_features search_space_digest) d) in
  let* _ := set_self (with_task_features tf) in
  let* ff :=
    liftR (normalize_indices C (ssd_fidelity_features search_space_digest) d) in
  let* _ := set_self (with_fidelity_features ff) in
  let* _ := set_self (with_metric_names metric_names_) in
  let* s := get_self in
  let* kw := liftR (kw_splat fit_keywords (VDict (_kwargs s))) in
  let args :=
    {| mc_Xs := Xs_; mc_Ys := Ys_; mc_Yvars := Yvars_;
       mc_task_features := task_features s;
       mc_fidelity_features := fidelity_features s;
       mc_metric_names := metric_names s;
       mc_state_dict := None; mc_refit_model := None;
       mc_use_input_warping := use_input_warping s;
       mc_use_loocv_pseudo_likelihood := use_loocv_pseudo_likelihood s;
       mc_kwargs := kw |} in
  let* m := call (CallModelConstructor args) (model_constructor C args) in
  set_self (with_model (Some m)).

Definition predict (X : Tensor) : FM (Tensor * Tensor) :=
  let* s := get_self in
  call (CallModelPredictor (model s) X) (model_predictor C (model s) X).

(** Keywords passed by name to the acquisition constructor and the optimizer. *)
Definition acqf_keywords : gset string :=
  {[ "model"; "objective_weights"; "outcome_constraints"; "X_observed";
     "X_pending" ]}.

Definition optimizer_keywords : gset string :=
  {[ "acq_function"; "bounds"; "n"; "inequality_constraints"; "fixed_features";
     "rounding_func" ]}.

(** What [make_and_optimize_acqf] closes over in [gen]. *)
Record GenLocals := {
  gl_model : option Model;
  gl_objective_weights : Tensor;
  gl_outcome_constraints : option (TensorPair Scalar);
  gl_X_observed : option Tensor;
  gl_X_pending : option Tensor;
  gl_acf_options : PyVal;
  gl_optimizer_options : PyVal;
  gl_bounds_ : Tensor;
  gl_n : Z;
  gl_linear_constraints : option (TensorPair Scalar);
  gl_fixed_features : FixedFeatures Scalar;
  gl_botorch_rounding_func : RoundingFunc Scalar;
}.

(** The arguments [make_and_optimize_acqf] hands to the acquisition
    constructor, with the keyword arguments [kw]. *)
Definition acqf_args (L : GenLocals) (kw : gmap string PyVal)
    : AcqfConstructorArgs :=
  {| ac_model := gl_model L;
     ac_objective_weights := gl_objective_weights L;
     ac_outcome_constraints := gl_outcome_constraints L;
     ac_X_observed := gl_X_observed L;
     ac_X_pending := gl_X_pending L;
     ac_kwargs := kw |}.

(** [{"qmc": False} if override_qmc else {}] *)
Definition add_kwargs (override_qmc : bool) : gmap string PyVal :=
  if override_qmc then {[ "qmc" := VBool false ]} else ∅.

Definition make_and_optimize_acqf (L : GenLocals) (override_qmc : bool)
    : FM (Tensor * Tensor) :=
  let* kw0 := liftR (kw_splat acqf_keywords (gl_acf_options L)) in
  let* kw := liftR (kw_splat_more acqf_keywords kw0 (add_kwargs override_qmc)) in
  let cargs := acqf_args L kw in
  let* acquisition_function :=
    call (CallAcqfConstructor cargs) (acqf_constructor C cargs) in
  let* acquisition_function :=
    liftR (checked_cast_AcquisitionFunction C acquisition_function) in
  let* acq_function :=
    liftR (checked_cast_AcquisitionFunction C acquisition_function) in
  let* inequality_constraints :=
    liftR (_to_inequality_constraints C (gl_linear_constraints L)) in
  let* okw := liftR (kw_splat optimizer_keywords (gl_optimizer_options L)) in
  let oargs :=
    {| ao_acq_function := acq_function;
       ao_bounds := gl_bounds_ L;
       ao_n := gl_n L;
       ao_inequality_constraints := inequality_constraints;
       ao_fixed_features := gl_fixed_features L;
       ao_rounding_func := gl_botorch_rounding_func L;
       ao_kwargs := okw |} in
  call (CallAcqfOptimizer oargs) (acqf_optimizer C oargs).

Definition sobol_limit_message : string :=
  "SobolQMCSampler only supports dimensions q * o <= 1111".


Definition target_fidelities_not_implemented : Exn :=
  mkExn NotImplementedError "target_fidelities not implemented for base BotorchModel".

(** The arguments [gen] hands to [_get_X_pending_and_observed]. *)
Definition pending_observed_args (s : BotorchModel) (a : GenArgs Scalar)
    : PendingObservedArgs :=
  {| po_Xs := Xs s;
     po_pending_observations := pending_observations a;
     po_objective_weights := objective_weights (spec a);
     po_outcome_constraints := outcome_constraints (spec a);
     po_bounds := bounds (spec a);
     po_linear_constraints := linear_constraints (spec a);
     po_fixed_features := fixed_features (spec a) |}.

(** [gen], lines 325-359: options, the [target_fidelities] guard, pending and
    observed points, subsetting, bounds, rounding adapter.  Returns what the
    nested function closes over. *)
Definition gen_prologue (a : GenArgs Scalar) : FM GenLocals :=
  let options := or_empty (model_gen_options (spec a)) in
  let acf_options := dict_get options (ACQF_KWARGS (Keys C)) (VDict ∅) in
  let optimizer_options := dict_get options (OPTIMIZER_KWARGS (Keys C)) (VDict ∅) in
  if truthy_dict (target_fidelities (spec a)) then
    raiseM target_fidelities_not_implemented
  else
    let* s := get_self in
    let poargs := pending_observed_args s a in
    let* '(X_pending, X_observed) :=
      call (CallGetXPendingAndObserved poargs)
           (_get_X_pending_and_observed C poargs) in
    let* s := get_self in
    let* '(model_, objective_weights_, outcome_constraints_) :=
      (if truthy (dict_get options (SUBSET_MODEL (Keys C)) (VBool true)) then
         let* r := call (CallSubsetModel (model s) (objective_weights (spec a))
                                         (outcome_constraints (spec a)))
                        (subset_model C (model s) (objective_weights (spec a))
                                      (outcome_constraints (spec a))) in
         retM (Some (sm_model r), sm_objective_weights r, sm_outcome_constraints r)
       else
         retM (model s, objective_weights (spec a), outcome_constraints (spec a))) in
    let* s := get_self in
    let* bounds_ := liftR (transpose01
                 (torch_tensor_pairs (bounds (spec a)) (dtype s) (device s))) in
    let botorch_rounding_func := get_rounding_func (rounding_func a) in
    retM
      {| gl_model := model_;
         gl_objective_weights := objective_weights_;
         gl_outcome_constraints := outcome_constraints_;
         gl_X_observed := X_observed;
         gl_X_pending := X_pending;
         gl_acf_options := acf_options;
         gl_optimizer_options := optimizer_options;
         gl_bounds_ := bounds_;
         gl_n := n a;
         gl_linear_constraints := linear_constraints (spec a);
         gl_fixed_features := fixed_features (spec a);
         gl_botorch_rounding_func := botorch_rounding_func |}.

(** [gen], lines 395-404: the [try] statement. *)
Definition optimize_with_fallback (L : GenLocals) : FM (Tensor * Tensor) :=
  try_except (make_and_optimize_acqf L false)
    (fun e =>
       if is_UnsupportedError e then
         if str_contains sobol_limit_message (exn_msg e) then
           make_and_optimize_acqf L true
         else raiseM e
       else raiseM e).

(** [gen], lines 406-411: the returned tuple. *)
Definition gen_return (n_ : Z) (r : Tensor * Tensor) : FM (GenResult Scalar) :=
  let '(candidates, expected_acquisition_value) := r in
  let* s := get_self in
  let* weights := liftR (torch_ones n_ (dtype s)) in
  retM (to_cpu (detach candidates),
        weights,
        {[ "expected_acquisition_value" := tolist expected_acquisition_value ]},
        None).

Definition gen (a : GenArgs Scalar) : FM (GenResult Scalar) :=
  let* L := gen_prologue a in
  let* r := optimize_with_fallback L in
  gen_return (n a) r.

Definition best_point (sp : ObjectiveSpec Scalar) : FM (option Tensor) :=
  let* s := get_self in
  call (CallBestPointRecommender s sp) (best_point_recommender C s sp).

Definition not_fitted_cross_validate : Exn :=
  mkExn RuntimeError "Cannot cross-validate model that has not been fitted".

Definition not_fitted_update : Exn :=
  mkExn RuntimeError "Cannot update model that has not been fitted".

(** [deepcopy(self.model.state_dict())] *)
Definition copy_of_state_dict (m : Model) : FM (option loc) :=
  let* l := call (CallStateDict m) (state_dict C m) in
  let* l' := on_env (deepcopy l) in
  retM (Some l').

Definition cross_validate (Xs_train Ys_train Yvars_train : list Tensor)
    (X_test : Tensor) : FM (Tensor * Tensor) :=
  let* s := get_self in
  match model s with
  | None => raiseM not_fitted_cross_validate
  | Some m =>
      let* state_dict_ :=
        (if refit_on_cv s then retM None else copy_of_state_dict m) in
      let* s := get_self in
      let* kw := liftR (kw_splat refit_keywords (VDict (_kwargs s))) in
      let args :=
        {| mc_Xs := Xs_train; mc_Ys := Ys_train; mc_Yvars := Yvars_train;
           mc_task_features := task_features s;
           mc_fidelity_features := fidelity_features s;
           mc_metric_names := metric_names s;
           mc_state_dict := Some state_dict_;
           mc_refit_model := Some (refit_on_cv s);
           mc_use_input_warping := use_input_warping s;
           mc_use_loocv_pseudo_likelihood := use_loocv_pseudo_likelihood s;
           mc_kwargs := kw |} in
      let* model_ := call (CallModelConstructor args) (model_constructor C args) in
      call (CallModelPredictor (Some model_) X_test)
           (model_predictor C (Some model_) X_test)
  end.

Definition update (Xs_ Ys_ Yvars_ : list Tensor) : FM unit :=
  let* s := get_self in
  match model s with
  | None => raiseM not_fitted_update
  | Some m =>
      let* _ := set_self (with_observations Xs_ Ys_ Yvars_) in
      let* s := get_self in
      let* state_dict_ :=
        (if refit_on_update s && negb (warm_start_refitting s) then retM None
         else copy_of_state_dict m) in
      let* s := get_self in
      let* kw := liftR (kw_splat refit_keywords (VDict (_kwargs s))) in
      let args :=
        {| mc_Xs := Xs s; mc_Ys := Ys s; mc_Yvars := Yvars s;
           mc_task_features := task_features s;
           mc_fidelity_features := fidelity_features s;
           mc_metric_names := metric_names s;
           mc_state_dict := Some state_dict_;
           mc_refit_model := Some (refit_on_update s);
           mc_use_input_warping := use_input_warping s;
           mc_use_loocv_pseudo_likelihood := use_loocv_pseudo_likelihood s;
           mc_kwargs := kw |} in
      let* model_ := call (CallModelConstructor args) (model_constructor C args) in
      set_self (with_model (Some model_))
  end.

(** *** Reading a trace *)

(** The same constructor arguments with [qmc=False] added. *)
Definition qmc_disabled (c : AcqfConstructorArgs) : AcqfConstructorArgs :=
  {| ac_model := ac_model c;
     ac_objective_weights := ac_objective_weights c;
     ac_outcome_constraints := ac_outcome_constraints c;
     ac_X_observed := ac_X_observed c;
     ac_X_pending := ac_X_pending c;
     ac_kwargs := <[ "qmc" := VBool false ]> (ac_kwargs c) |}.

(** The acquisition-constructor calls of a trace. *)
Definition acqf_constructor_calls (tr : list (Event * Env Scalar Ext))
    : list AcqfConstructorArgs :=
  omap (fun ev => match ev.1 with CallAcqfConstructor a => Some a | _ => None end) tr.

(** Whether an event is a call of [subset_model]. *)
Definition is_subset_model_call (ev : Event) : bool :=
  match ev with CallSubsetModel _ _ _ => true | _ => false end.

(** The model-constructor calls of a trace, each with the environment the
    constructor started in. *)
Definition model_constructor_calls (tr : list (Event * Env Scalar Ext))
    : list (ModelConstructorArgs * Env Scalar Ext) :=
  omap (fun ev => match ev.1 with
                  | CallModelConstructor a => Some (a, ev.2)
                  | _ => None
                  end) tr.

End Facade.

Arguments BotorchModel : clear implicits.
Arguments Event : clear implicits.
Arguments Collaborators : clear implicits.
End Flat.

(** ** The modular facade: [BoTorchModel] (botorch_modular/model.py) *)

Module Modular.
Section Facade.
Context {Scalar : Type} `{ScalarOps Scalar}.
(** Opaque objects: a [Surrogate], an [Acquisition], the class objects
    [Type[Acquisition]] and [Type[AcquisitionFunction]], and the collaborators'
    own state. *)
Context {Surrogate Acquisition AcquisitionClass BotorchAcqfClass Ext : Type}.

Abbreviation Tensor := (Tensor Scalar).
Abbreviation PyVal := (PyVal Scalar).
Abbreviation Collab := (@Collab Scalar Ext).

Record BoTorchModel := mkBoTorchModel {
  _surrogate : option Surrogate;
  surrogate_fit_options : gmap string PyVal;
  acquisition_class : AcquisitionClass;
  _botorch_acqf_class : option BotorchAcqfClass;
  acquisition_options : gmap string PyVal;
}.

(** Arguments of [self.acquisition_class(...)]. *)
Record AcquisitionArgs := {
  aq_surrogate : Surrogate;
  aq_botorch_acqf_class : BotorchAcqfClass;
  aq_bounds : Bounds Scalar;
  aq_objective_weights : Tensor;
  aq_outcome_constraints : option (TensorPair Scalar);
  aq_linear_constraints : option (TensorPair Scalar);
  aq_fixed_features : FixedFeatures Scalar;
  aq_pending_observations : option (list Tensor);
  aq_target_fidelities : option (gmap Z Scalar);
  aq_options : PyVal;
}.

(** Arguments of [acqf.optimize(...)]. *)
Record AcquisitionOptimizeArgs := {
  az_bounds : Tensor;
  az_n : Z;
  az_inequality_constraints : InequalityConstraints Scalar;
  az_fixed_features : FixedFeatures Scalar;
  az_rounding_func : RoundingFunc Scalar;
  az_optimizer_options : gmap string PyVal;
}.

Inductive Event :=
| CallConstructOptions (acqf_options : gmap string PyVal)
                       (model_gen_options : option (gmap string PyVal))
| CallChooseBotorchAcqfClass
| CallAcquisitionClass (cls : AcquisitionClass) (a : AcquisitionArgs)
| CallAcquisitionOptimize (acqf : Acquisition) (a : AcquisitionOptimizeArgs)
| CallSurrogatePredict (s : Surrogate) (X : Tensor)
| CallSurrogateDtype (s : Surrogate)
| CallSurrogateDevice (s : Surrogate).

Abbreviation MM := (M (Scalar:=Scalar) (Ext:=Ext) BoTorchModel Event).

(** *** Collaborators

    The [Acquisition] class and its class attribute; the constructor and the
    [optimize] method of an acquisition; methods and properties of a
    [Surrogate]; helpers of [botorch_modular.utils], [ax.models.torch.utils]
    and [ax.utils.common.typeutils]; the string enumeration [Keys]. *)
Record Collaborators := {
  Acquisition_class : AcquisitionClass;
  default_botorch_acqf_class : AcquisitionClass -> option BotorchAcqfClass;
  new_acquisition : AcquisitionClass -> AcquisitionArgs -> Collab Acquisition;
  acquisition_optimize :
    Acquisition -> AcquisitionOptimizeArgs -> Collab (Tensor * Tensor);
  surrogate_predict : Surrogate -> Tensor -> Collab (Tensor * Tensor);
  surrogate_dtype : Surrogate -> Collab Dtype;
  surrogate_device : Surrogate -> Collab Device;
  construct_acquisition_and_optimizer_options :
    gmap string PyVal -> option (gmap string PyVal) -> Collab (PyVal * PyVal);
  choose_botorch_acqf_class : Collab BotorchAcqfClass;
  _to_inequality_constraints :
    option (TensorPair Scalar) -> Res (InequalityConstraints Scalar);
  checked_cast_dict : PyVal -> Res (gmap string PyVal);
  Keys : KeysT;
}.

Variable C : Collaborators.

(** [__init__]; absent arguments are [None]. *)
Definition BoTorchModel_init
    (acquisition_class_ : option AcquisitionClass)
    (acquisition_options_ : option (gmap string PyVal))
    (botorch_acqf_class_ : option BotorchAcqfClass)
    (surrogate_ : option Surrogate)
    (surrogate_fit_options_ : option (gmap string PyVal)) : BoTorchModel :=
  let cls := default (Acquisition_class C) acquisition_class_ in
  {| _surrogate := surrogate_;
     surrogate_fit_options := or_empty surrogate_fit_options_;
     acquisition_class := cls;
     _botorch_acqf_class :=
       match botorch_acqf_class_ with
       | Some c => Some c
       | None => default_botorch_acqf_class C cls
       end;
     acquisition_options := or_empty acquisition_options_ |}.

Definition with_botorch_acqf_class (c : option BotorchAcqfClass) (s : BoTorchModel)
    : BoTorchModel :=
  {| _surrogate := _surrogate s;
     surrogate_fit_options := surrogate_fit_options s;
     acquisition_class := acquisition_class s;
     _botorch_acqf_class := c;
     acquisition_options := acquisition_options s |}.

Definition surrogate_not_set : Exn :=
  mkExn ValueError "Surrogate has not yet been set.".

Definition acqf_class_not_set : Exn :=
  mkExn ValueError "BoTorch `AcquisitionFunction` has not yet been set.".

(** The property [surrogate]; a surrogate object is truthy. *)
Definition surrogate : MM Surrogate :=
  let* s := get_self in
  match _surrogate s with
  | None => raiseM surrogate_not_set
  | Some sg => retM sg
  end.

(** The property [botorch_acqf_class]; a class object is truthy. *)
Definition botorch_acqf_class : MM BotorchAcqfClass :=
  let* s := get_self in
  match _botorch_acqf_class s with
  | None => raiseM acqf_class_not_set
  | Some c => retM c
  end.

Definition predict (X : Tensor) : MM (Tensor * Tensor) :=
  let* sg := surrogate in
  call (CallSurrogatePredict sg X) (surrogate_predict C sg X).

Definition _bounds_as_tensor (bounds_ : Bounds Scalar) : MM Tensor :=
  let* sg := surrogate in
  let* dt := call (CallSurrogateDtype sg) (surrogate_dtype C sg) in
  let* sg := surrogate in
  let* dv := call (CallSurrogateDevice sg) (surrogate_device C sg) in
  liftR (transpose01 (torch_tensor_pairs bounds_ (Some dt) (Some dv))).

Definition _instantiate_acquisition (sp : ObjectiveSpec Scalar)
    (pending : option (list Tensor)) (acq_options : PyVal) : MM Acquisition :=
  let* s := get_self in
  let* _ :=
    match _botorch_acqf_class s with
    | None =>
        let* c := call CallChooseBotorchAcqfClass (choose_botorch_acqf_class C) in
        set_self (with_botorch_acqf_class (Some c))
    | Some _ => retM tt
    end in
  let* s := get_self in
  let* sg := surrogate in
  let* cls := botorch_acqf_class in
  let args :=
    {| aq_surrogate := sg;
       aq_botorch_acqf_class := cls;
       aq_bounds := bounds sp;
       aq_objective_weights := objective_weights sp;
       aq_outcome_constraints := outcome_constraints sp;
       aq_linear_constraints := linear_constraints sp;
       aq_fixed_features := fixed_features sp;
       aq_pending_observations := pending;
       aq_target_fidelities := target_fidelities sp;
       aq_options := acq_options |} in
  call (CallAcquisitionClass (acquisition_class s) args)
       (new_acquisition C (acquisition_class s) args).

Definition gen (a : GenArgs Scalar) : MM (GenResult Scalar) :=
  let* s := get_self in
  let* '(acq_options, opt_options) :=
    call (CallConstructOptions (acquisition_options s) (model_gen_options (spec a)))
         (construct_acquisition_and_optimizer_options C
            (acquisition_options s) (model_gen_options (spec a))) in
  let* acqf := _instantiate_acquisition (spec a) (pending_observations a) acq_options in
  let botorch_rounding_func := get_rounding_func (rounding_func a) in
  let* bounds_ := _bounds_as_tensor (bounds (spec a)) in
  let* inequality_constraints :=
    liftR (_to_inequality_constraints C (linear_constraints (spec a))) in
  let* optimizer_options := liftR (checked_cast_dict C opt_options) in
  let oargs :=
    {| az_bounds := bounds_;
       az_n := n a;
       az_inequality_constraints := inequality_constraints;
       az_fixed_features := fixed_features (spec a);
       az_rounding_func := botorch_rounding_func;
       az_optimizer_options := optimizer_options |} in
  let* '(candidates, expected_acquisition_value) :=
    call (CallAcquisitionOptimize acqf oargs) (acquisition_optimize C acqf oargs) in
  let* sg := surrogate in
  let* dt := call (CallSurrogateDtype sg) (surrogate_dtype C sg) in
  let* weights := liftR (torch_ones (n a) (Some dt)) in
  retM (to_cpu (detach candidates),
        weights,
        {[ EXPECTED_ACQF_VAL (Keys C) := tolist expected_acquisition_value ]},
        None).

Definition coming_soon : Exn := mkExn NotImplementedError "Coming soon.".

Definition best_point (sp : ObjectiveSpec Scalar) : MM (option Tensor) :=
  raiseM coming_soon.

End Facade.

Arguments BoTorchModel : clear implicits.
Arguments Event : clear implicits.
Arguments Collaborators : clear implicits.
End Modular.

(** ** The rest of the two facades

    [BotorchModel.feature_importances], [BoTorchModel.fit] and
    [BoTorchModel.evaluate_acquisition_function], with the part of the tensor
    library and the collaborators that only they use. *)

Section TensorLibrary.
Context {Scalar : Type}.

(** [t.ndim] *)
Definition ndim (t : Tensor Scalar) : nat := length (t_shape t).

(** [t.unsqueeze(0)] *)
Definition unsqueeze0 (t : Tensor Scalar) : Tensor Scalar :=
  reshaped t (1 :: t_shape t).

Definition is_floating_point (d : Dtype) : bool :=
  match d with
  | Float16 | Float32 | Float64 => true
  | _ => false
  end.

(** [1 / t]: true division, element by element; [recip] is [1 / x] on an
    element.  Integer and boolean tensors give the default floating type. *)
Definition one_over (recip : Scalar -> Scalar) (t : Tensor Scalar) : Tensor Scalar :=
  {| t_shape := t_shape t;
     t_data := recip <$> t_data t;
     t_dtype := if is_floating_point (t_dtype t) then t_dtype t else default_dtype;
     t_device := t_device t;
     t_requires_grad := t_requires_grad t |}.

(** Size of the first dimension, 0 for a 0-d tensor. *)
Definition size0 (t : Tensor Scalar) : nat := hd 0 (t_shape t).

(** [torch.cat(ts, dim=0)].  A 0-d tensor cannot be concatenated; empty
    one-dimensional tensors are skipped; the others must agree on every
    dimension but the first. *)
Definition cat0 (ts : list (Tensor Scalar)) : Res (Tensor Scalar) :=
  match ts with
  | [] => Raise (mkExn RuntimeError "torch.cat(): expected a non-empty list of Tensors")
  | t0 :: rest =>
      if existsb (fun t => bool_decide (t_shape t = [])) ts then
        Raise (mkExn RuntimeError "zero-dimensional tensor cannot be concatenated")
      else if negb (forallb (fun t => bool_decide (t_device t = t_device t0)) rest) then
        Raise (mkExn RuntimeError "Expected all tensors to be on the same device")
      else
        match filter (fun t => t_shape t <> [0]) ts with
        | [] =>
            Ok {| t_shape := [0]; t_data := [];
                  t_dtype := stacked_dtype t0 rest;
                  t_device := t_device t0;
                  t_requires_grad := existsb t_requires_grad ts |}
        | k0 :: krest =>
            if negb (forallb (fun t => bool_decide (tail (t_shape t) = tail (t_shape k0)))
                             krest) then
              Raise (mkExn RuntimeError
                       "Sizes of tensors must match except in dimension 0")
            else
              Ok {| t_shape := sum_list (size0 <$> (k0 :: krest)) :: tail (t_shape k0);
                    t_data := concat (t_data <$> (k0 :: krest));
                    t_dtype := stacked_dtype t0 rest;
                    t_device := t_device t0;
                    t_requires_grad := existsb t_requires_grad ts |}
        end
  end.

(** A NumPy array: shape, elements in row-major order, element type. *)
Record NdArray := mkNdArray {
  a_shape : list nat;
  a_data : list Scalar;
  a_dtype : Dtype;
}.

(** [t.numpy()] *)
Definition numpy (t : Tensor Scalar) : Res NdArray :=
  if t_requires_grad t then
    Raise (mkExn RuntimeError "Can't call numpy() on Tensor that requires grad.")
  else if bool_decide (t_device t = cpu) then
    Ok {| a_shape := t_shape t; a_data := t_data t; a_dtype := t_dtype t |}
  else Raise (mkExn TypeError "can't convert cuda device type tensor to numpy.").

(** The tensor [torch.tensor(bounds).transpose(0, 1)] is meant to be: the row
    of lower bounds, then the row of upper bounds. *)
Definition lower_upper (bounds_ : Bounds Scalar) (dt : Dtype) (dv : Device)
    : Tensor Scalar :=
  {| t_shape := [2; length bounds_];
     t_data := (fst <$> bounds_) ++ (snd <$> bounds_);
     t_dtype := dt; t_device := dv; t_requires_grad := false |}.

(** A tensor that holds as many elements as its shape says. *)
Definition well_formed (t : Tensor Scalar) : Prop :=
  length (t_data t) = numel t.

End TensorLibrary.
Arguments NdArray : clear implicits.

(** *** Reading a trace of the flat facade, continued *)

Section FlatTraces.
Context {Scalar : Type} `{ScalarOps Scalar} {Model AcquisitionFunction Ext : Type}.

(** The optimizer calls of a trace. *)
Definition acqf_optimizer_calls
    (tr : list (Flat.Event Scalar Model AcquisitionFunction * Env Scalar Ext))
    : list (Flat.AcqfOptimizerArgs (Scalar:=Scalar)
              (AcquisitionFunction:=AcquisitionFunction)) :=
  omap (fun ev => match ev.1 with Flat.CallAcqfOptimizer a => Some a | _ => None end) tr.

(** The calls [gen] can make: pending and observed points, subsetting, the
    acquisition constructor, the optimizer. *)
Definition is_generation_call (ev : Flat.Event Scalar Model AcquisitionFunction)
    : bool :=
  match ev with
  | Flat.CallGetXPendingAndObserved _ | Flat.CallSubsetModel _ _ _
  | Flat.CallAcqfConstructor _ | Flat.CallAcqfOptimizer _ => true
  | _ => false
  end.

End FlatTraces.

(** *** [make_and_optimize_acqf] once the acquisition function is built

    Lines 378-392: the casts, the conversion of the linear constraints and
    the optimizer call, for the acquisition function [f] that the constructor
    returned. *)
Section FlatOptimize.
Context {Scalar : Type} `{ScalarOps Scalar} {Model AcquisitionFunction Ext : Type}.
Variable C : Flat.Collaborators Scalar Model AcquisitionFunction Ext.


End FlatOptimize.

(** *** Reading a trace of the modular facade *)

Section ModularTraces.
Context {Scalar : Type} `{ScalarOps Scalar}.
Context {Surrogate Acquisition AcquisitionClass BotorchAcqfClass Ext : Type}.

Abbreviation ModularEvent :=
  (Modular.Event Scalar Surrogate Acquisition AcquisitionClass BotorchAcqfClass).

(** The calls of [Acquisition.optimize] in a trace. *)
Definition acquisition_optimize_calls (tr : list (ModularEvent * Env Scalar Ext))
    : list (Acquisition * Modular.AcquisitionOptimizeArgs (Scalar:=Scalar)) :=
  omap (fun ev => match ev.1 with
                  | Modular.CallAcquisitionOptimize acqf a => Some (acqf, a)
                  | _ => None
                  end) tr.

(** The calls of the acquisition class in a trace: the class called, and the
    arguments. *)
Definition acquisition_class_calls (tr : list (ModularEvent * Env Scalar Ext))
    : list (AcquisitionClass *
            Modular.AcquisitionArgs (Scalar:=Scalar) (Surrogate:=Surrogate)
              (BotorchAcqfClass:=BotorchAcqfClass)) :=
  omap (fun ev => match ev.1 with
                  | Modular.CallAcquisitionClass cls a => Some (cls, a)
                  | _ => None
                  end) tr.

(** Whether an event is a call of [choose_botorch_acqf_class]. *)
Definition is_choose_acqf_class_call (ev : ModularEvent) : bool :=
  match ev with
  | Modular.CallChooseBotorchAcqfClass => true
  | _ => false
  end.

(** The arguments [_instantiate_acquisition] hands to the acquisition class,
    for the surrogate [sg] and the acquisition-function class [cls]. *)
Definition acquisition_args (sp : ObjectiveSpec Scalar)
    (pending : option (list (Tensor Scalar))) (acq_options : PyVal Scalar)
    (sg : Surrogate) (cls : BotorchAcqfClass)
    : Modular.AcquisitionArgs (Scalar:=Scalar) (Surrogate:=Surrogate)
        (BotorchAcqfClass:=BotorchAcqfClass) :=
  {| Modular.aq_surrogate := sg;
     Modular.aq_botorch_acqf_class := cls;
     Modular.aq_bounds := bounds sp;
     Modular.aq_objective_weights := objective_weights sp;
     Modular.aq_outcome_constraints := outcome_constraints sp;
     Modular.aq_linear_constraints := linear_constraints sp;
     Modular.aq_fixed_features := fixed_features sp;
     Modular.aq_pending_observations := pending;
     Modular.aq_target_fidelities := target_fidelities sp;
     Modular.aq_options := acq_options |}.

End ModularTraces.

(** *** A facade method run inside a method with more events

    [embed inj c] runs [c] and logs its calls through [inj].  The computations
    of the facades only ever append to the trace, so [c] is started on an empty
    one and what it logged is appended. *)
Section Embedding.
Context {Scalar Ext F Ev Ev' A : Type}.

Definition embed (inj : Ev -> Ev') (c : M (Scalar:=Scalar) (Ext:=Ext) F Ev A)
    : M (Scalar:=Scalar) (Ext:=Ext) F Ev' A :=
  fun st =>
    let '(r, st') := c {| self := self st; env := env st; trace := [] |} in
    (r, {| self := self st'; env := env st';
           trace := trace st ++ (prod_map inj id <$> trace st') |}).

End Embedding.

(** *** [BotorchModel.feature_importances] (botorch.py) *)

Module Importances.
Section Facade.
Context {Scalar : Type} `{ScalarOps Scalar}.
Context {Model Ext : Type}.

Abbreviation Tensor := (Tensor Scalar).
Abbreviation Collab := (@Collab Scalar Ext).

(** One event per read of a kernel's lengthscale. *)
Inductive Event :=
| ReadLengthscale (m : Model).

Abbreviation IM := (M (Scalar:=Scalar) (Ext:=Ext) (Flat.BotorchModel Scalar Model) Event).

(** What [feature_importances] asks of a BoTorch model:
    [isinstance(m, ModelListGP)], the sub-models [m.models] in order, the
    attribute chain [m.covar_module.base_kernel.lengthscale] (which raises when
    a link is missing), and [1 / x] on an element. *)
Record Collaborators := {
  is_ModelListGP : Model -> bool;
  models : Model -> Env Scalar Ext -> list Model;
  lengthscale : Model -> Collab Tensor;
  reciprocal : Scalar -> Scalar;
}.

Variable C : Collaborators.

Definition not_fitted_feature_importances : Exn :=
  mkExn RuntimeError "Cannot calculate feature_importances without a fitted model".

(** The loop over [models]: the list [lengthscales] it appends to. *)
Fixpoint collect_lengthscales (ms : list Model) : IM (list Tensor) :=
  match ms with
  | [] => retM []
  | m :: ms' =>
      let* ls := call (ReadLengthscale m) (lengthscale C m) in
      let ls := if bool_decide (ndim ls = 2) then unsqueeze0 ls else ls in
      let* rest := collect_lengthscales ms' in
      retM (ls :: rest)
  end.

Definition feature_importances : IM (NdArray Scalar) :=
  let* s := get_self in
  match Flat.model s with
  | None => raiseM not_fitted_feature_importances
  | Some mdl =>
      let* models_ :=
        (if is_ModelListGP C mdl then on_env (fun e => (models C mdl e, e))
         else retM [mdl]) in
      let* lengthscales := collect_lengthscales models_ in
      let* lengthscales := liftR (cat0 lengthscales) in
      liftR (numpy (to_cpu (detach (one_over (reciprocal C) lengthscales))))
  end.

End Facade.
Arguments Event : clear implicits.
Arguments Collaborators : clear implicits.
End Importances.

(** *** [BoTorchModel.fit] (botorch_modular/model.py) *)

(** The members of [Keys] that [fit] reads. *)
Record FitKeysT := {
  STATE_DICT : string;
  REFIT_ON_UPDATE : string;
  WARM_START_REFITTING : string;
}.

Module Training.
Section Facade.
Context {Scalar : Type} `{ScalarOps Scalar}.
Context {Surrogate Acquisition AcquisitionClass BotorchAcqfClass Ext : Type}.
(** Opaque objects: the classes [Type[Model]] and
    [Type[MarginalLogLikelihood]], and a [TrainingData]. *)
Context {ModelClass MllClass TrainingData : Type}.

Abbreviation Tensor := (Tensor Scalar).
Abbreviation PyVal := (PyVal Scalar).
Abbreviation Collab := (@Collab Scalar Ext).
Abbreviation BoTorchModel :=
  (Modular.BoTorchModel Scalar Surrogate AcquisitionClass BotorchAcqfClass).
Abbreviation BaseEvent :=
  (Modular.Event Scalar Surrogate Acquisition AcquisitionClass BotorchAcqfClass).

(** The arguments of [fit]. *)
Record FitArgs := {
  fa_Xs : list Tensor;
  fa_Ys : list Tensor;
  fa_Yvars : list Tensor;
  fa_bounds : Bounds Scalar;
  fa_task_features : list Z;
  fa_feature_names : list string;
  fa_metric_names : list string;
  fa_fidelity_features : list Z;
  fa_target_fidelities : option (gmap Z Scalar);
  fa_candidate_metadata : option (list (list PyVal));
}.

(** The arguments of [Surrogate.fit]. *)
Record SurrogateFitArgs := {
  sf_training_data : TrainingData;
  sf_bounds : Bounds Scalar;
  sf_task_features : list Z;
  sf_feature_names : list string;
  sf_fidelity_features : list Z;
  sf_target_fidelities : option (gmap Z Scalar);
  sf_metric_names : list string;
  sf_candidate_metadata : option (list (list PyVal));
  sf_state_dict : PyVal;
  sf_refit : PyVal;
}.

Inductive Event :=
| Inherited (ev : BaseEvent)
| CallValidateDataFormat (Xs_ Ys_ Yvars_ : list Tensor) (metric_names_ : list string)
| CallChooseModelClass (Xs_ Ys_ Yvars_ : list Tensor)
                       (task_features_ fidelity_features_ : list Z)
| CallChooseMllClass (model_class : ModelClass) (state_dict_ refit : PyVal)
| CallSurrogate (model_class : ModelClass) (mll_class : MllClass)
| CallConstructTrainingData (Xs_ Ys_ Yvars_ : list Tensor) (model_class : ModelClass)
| ReadBotorchModelClass (sg : Surrogate)
| CallSurrogateFit (sg : Surrogate) (a : SurrogateFitArgs).

Abbreviation TM := (M (Scalar:=Scalar) (Ext:=Ext) BoTorchModel Event).

(** Helpers of [botorch_modular.utils], the constructor of [Surrogate], its
    attribute [botorch_model_class] and its method [fit]. *)
Record Collaborators := {
  validate_data_format :
    list Tensor -> list Tensor -> list Tensor -> list string -> Collab unit;
  choose_model_class :
    list Tensor -> list Tensor -> list Tensor -> list Z -> list Z -> Collab ModelClass;
  choose_mll_class : ModelClass -> PyVal -> PyVal -> Collab MllClass;
  new_surrogate : ModelClass -> MllClass -> Collab Surrogate;
  construct_training_data :
    list Tensor -> list Tensor -> list Tensor -> ModelClass -> Collab TrainingData;
  botorch_model_class : Surrogate -> Collab ModelClass;
  surrogate_fit : Surrogate -> SurrogateFitArgs -> Collab unit;
  Keys : FitKeysT;
}.

Variable C : Collaborators.

(** Attribute assignments. *)
Definition with_surrogate (sg : option Surrogate) (s : BoTorchModel) : BoTorchModel :=
  {| Modular._surrogate := sg;
     Modular.surrogate_fit_options := Modular.surrogate_fit_options s;
     Modular.acquisition_class := Modular.acquisition_class s;
     Modular._botorch_acqf_class := Modular._botorch_acqf_class s;
     Modular.acquisition_options := Modular.acquisition_options s |}.

Definition with_surrogate_fit_options (o : gmap string PyVal) (s : BoTorchModel)
    : BoTorchModel :=
  {| Modular._surrogate := Modular._surrogate s;
     Modular.surrogate_fit_options := o;
     Modular.acquisition_class := Modular.acquisition_class s;
     Modular._botorch_acqf_class := Modular._botorch_acqf_class s;
     Modular.acquisition_options := Modular.acquisition_options s |}.

(** The property [self.surrogate], read inside [fit]. *)
Definition surrogate : TM Surrogate :=
  embed Inherited (Modular.surrogate (Acquisition:=Acquisition) (Ext:=Ext)).

(** [self.surrogate_fit_options.get(Keys.REFIT_ON_UPDATE, True) and not
    self.surrogate_fit_options.get(Keys.WARM_START_REFITTING, True)] *)
Definition refits_cold (o : gmap string PyVal) : bool :=
  truthy (dict_get o (REFIT_ON_UPDATE (Keys C)) (VBool true)) &&
  negb (truthy (dict_get o (WARM_START_REFITTING (Keys C)) (VBool true))).

(** [fit], lines 116-131: choose and build a surrogate unless the facade has
    one. *)
Definition ensure_surrogate (a : FitArgs) : TM unit :=
  let* s := get_self in
  match Modular._surrogate s with
  | None =>
      let* model_class :=
        call (CallChooseModelClass (fa_Xs a) (fa_Ys a) (fa_Yvars a)
                                   (fa_task_features a) (fa_fidelity_features a))
             (choose_model_class C (fa_Xs a) (fa_Ys a) (fa_Yvars a)
                                 (fa_task_features a) (fa_fidelity_features a)) in
      let* s := get_self in
      let state_dict_ :=
        dict_get (Modular.surrogate_fit_options s) (STATE_DICT (Keys C)) VNone in
      let refit :=
        dict_get (Modular.surrogate_fit_options s) (REFIT_ON_UPDATE (Keys C))
                 (VBool true) in
      let* mll_class :=
        call (CallChooseMllClass model_class state_dict_ refit)
             (choose_mll_class C model_class state_dict_ refit) in
      let* sg := call (CallSurrogate model_class mll_class)
                      (new_surrogate C model_class mll_class) in
      set_self (with_surrogate (Some sg))
  | Some _ => retM tt
  end.

(** [fit] up to the call of [Surrogate.fit]: validation, the surrogate, the
    training data, the state-dict option, and the evaluation of the receiver
    and of the arguments of that call. *)
Definition fit_prologue (a : FitArgs) : TM (Surrogate * SurrogateFitArgs) :=
  let* _ :=
    call (CallValidateDataFormat (fa_Xs a) (fa_Ys a) (fa_Yvars a) (fa_metric_names a))
         (validate_data_format C (fa_Xs a) (fa_Ys a) (fa_Yvars a)
                               (fa_metric_names a)) in
  let* _ := ensure_surrogate a in
  let* sg := surrogate in
  let* model_class := call (ReadBotorchModelClass sg) (botorch_model_class C sg) in
  let* training_data :=
    call (CallConstructTrainingData (fa_Xs a) (fa_Ys a) (fa_Yvars a) model_class)
         (construct_training_data C (fa_Xs a) (fa_Ys a) (fa_Yvars a) model_class) in
  let* s := get_self in
  let* _ :=
    (if refits_cold (Modular.surrogate_fit_options s) then
       set_self (with_surrogate_fit_options
                   (<[STATE_DICT (Keys C) := VNone]> (Modular.surrogate_fit_options s)))
     else retM tt) in
  let* sg := surrogate in
  let* s := get_self in
  retM (sg,
        {| sf_training_data := training_data;
           sf_bounds := fa_bounds a;
           sf_task_features := fa_task_features a;
           sf_feature_names := fa_feature_names a;
           sf_fidelity_features := fa_fidelity_features a;
           sf_target_fidelities := fa_target_fidelities a;
           sf_metric_names := fa_metric_names a;
           sf_candidate_metadata := fa_candidate_metadata a;
           sf_state_dict :=
             dict_get (Modular.surrogate_fit_options s) (STATE_DICT (Keys C)) VNone;
           sf_refit :=
             dict_get (Modular.surrogate_fit_options s) (REFIT_ON_UPDATE (Keys C))
                      (VBool true) |}).

Definition fit (a : FitArgs) : TM unit :=
  let* '(sg, args) := fit_prologue a in
  call (CallSurrogateFit sg args) (surrogate_fit C sg args).

(** [predict] after [fit], in the events of this module. *)
Definition predict
    (CM : Modular.Collaborators Scalar Surrogate Acquisition AcquisitionClass
            BotorchAcqfClass Ext)
    (X : Tensor) : TM (Tensor * Tensor) :=
  embed Inherited (Modular.predict CM X).

(** The [Surrogate.fit] calls of a trace. *)
Definition surrogate_fit_calls (tr : list (Event * Env Scalar Ext))
    : list (Surrogate * SurrogateFitArgs) :=
  omap (fun ev => match ev.1 with
                  | CallSurrogateFit sg a => Some (sg, a)
                  | _ => None
                  end) tr.

(** Whether an event chooses or builds a surrogate. *)
Definition builds_surrogate (ev : Event) : bool :=
  match ev with
  | CallChooseModelClass _ _ _ _ _ | CallChooseMllClass _ _ _ | CallSurrogate _ _ => true
  | _ => false
  end.

End Facade.
Arguments Event : clear implicits.
Arguments Collaborators : clear implicits.
Arguments FitArgs : clear implicits.
Arguments SurrogateFitArgs : clear implicits.
End Training.

(** *** [BoTorchModel.evaluate_acquisition_function] (botorch_modular/model.py) *)

Module Evaluation.
Section Facade.
Context {Scalar : Type} `{ScalarOps Scalar}.
Context {Surrogate Acquisition AcquisitionClass BotorchAcqfClass Ext : Type}.

Abbreviation Tensor := (Tensor Scalar).
Abbreviation PyVal := (PyVal Scalar).
Abbreviation Collab := (@Collab Scalar Ext).
Abbreviation BoTorchModel :=
  (Modular.BoTorchModel Scalar Surrogate AcquisitionClass BotorchAcqfClass).
Abbreviation BaseEvent :=
  (Modular.Event Scalar Surrogate Acquisition AcquisitionClass BotorchAcqfClass).

Inductive Event :=
| Inherited (ev : BaseEvent)
| CallAcquisitionEvaluate (acqf : Acquisition) (X : Tensor).

Abbreviation EM := (M (Scalar:=Scalar) (Ext:=Ext) BoTorchModel Event).

(** The facade's collaborators, and the method [evaluate] of an acquisition. *)
Variable CM :
  Modular.Collaborators Scalar Surrogate Acquisition AcquisitionClass
    BotorchAcqfClass Ext.
Variable acquisition_evaluate : Acquisition -> Tensor -> Collab Tensor.

(** An optional dictionary as a value. *)
Definition optional_dict (d : option (gmap string PyVal)) : PyVal :=
  match d with
  | None => VNone
  | Some m => VDict m
  end.

(** [sp] carries [bounds], [objective_weights], the constraints,
    [fixed_features] and [target_fidelities]; the method has no
    [model_gen_options]. *)
Definition evaluate_acquisition_function (X : Tensor) (sp : ObjectiveSpec Scalar)
    (pending_observations_ : option (list Tensor))
    (acq_options : option (gmap string PyVal)) : EM Tensor :=
  let* acqf :=
    embed Inherited
      (Modular._instantiate_acquisition CM sp pending_observations_
         (optional_dict acq_options)) in
  call (CallAcquisitionEvaluate acqf X) (acquisition_evaluate acqf X).

(** The events of a trace that come from [_instantiate_acquisition]. *)
Definition inherited (tr : list (Event * Env Scalar Ext))
    : list (BaseEvent * Env Scalar Ext) :=
  omap (fun ev => match ev.1 with
                  | Inherited b => Some (b, ev.2)
                  | _ => None
                  end) tr.

(** The calls of [Acquisition.evaluate] in a trace. *)
Definition acquisition_evaluate_calls (tr : list (Event * Env Scalar Ext))
    : list (Acquisition * Tensor) :=
  omap (fun ev => match ev.1 with
                  | CallAcquisitionEvaluate acqf X => Some (acqf, X)
                  | _ => None
                  end) tr.

End Facade.
Arguments Event : clear implicits.
End Evaluation.

(** ** A concrete instance

    Integer elements, and collaborators simple enough to run: an acquisition
    constructor that raises the Sobol overflow unless [qmc=False] is passed, an
    optimizer that returns [n] candidates on an accelerator, a subsetter that
    keeps the first outcome.  Used to run the facades on explicit inputs. *)

(** Modelled from the spec: the values of the [Keys] members that [gen] reads
    ([ax.utils.common.constants] is not among the sources); section 6 names
    the recognised configuration keys. *)
Definition spec_keys : KeysT :=
  {| ACQF_KWARGS := "acquisition_function_kwargs";
     OPTIMIZER_KWARGS := "optimizer_kwargs";
     SUBSET_MODEL := "subset_model";
     EXPECTED_ACQF_VAL := "expected_acquisition_value" |}.

Module Toy.

#[global] Instance Z_scalar : ScalarOps Z :=
  {| scalar_one := 1%Z; scalar_nonzero := fun z => negb (z =? 0)%Z |}.

Definition vec (l : list Z) : Tensor Z :=
  {| t_shape := [length l]; t_data := l; t_dtype := Float64;
     t_device := cpu; t_requires_grad := false |}.

Definition scalar (z : Z) : Tensor Z :=
  {| t_shape := []; t_data := [z]; t_dtype := Float64;
     t_device := cpu; t_requires_grad := false |}.

Definition sobol_error : Exn :=
  mkExn UnsupportedError
    "SobolQMCSampler only supports dimensions q * o <= 1111. Requested: 2000".

Definition env0 : Env Z unit :=
  {| heap := {[ 1%positive := [("lengthscale", vec [3%Z])] ]}; ext := tt |}.

(** Models and acquisition functions are numbered. *)
Definition collaborators : Flat.Collaborators Z nat nat unit :=
  {| Flat.model_constructor := fun a e => (Ok (length (Flat.mc_Xs a)), e);
     Flat.model_predictor := fun m X e => (Ok (X, X), e);
     Flat.acqf_constructor := fun a e =>
       match Flat.ac_kwargs a !! "qmc" with
       | Some (VBool false) => (Ok 1, e)
       | _ => (Raise sobol_error, e)
       end;
     Flat.acqf_optimizer := fun a e =>
       (Ok ({| t_shape := [Z.to_nat (Flat.ao_n a); 1];
               t_data := replicate (Z.to_nat (Flat.ao_n a)) 0%Z;
               t_dtype := Float64; t_device := cuda 0;
               t_requires_grad := true |},
            scalar 7), e);
     Flat.best_point_recommender := fun s sp e => (Ok None, e);
     Flat._get_X_pending_and_observed := fun a e => (Ok (None, None), e);
     Flat.subset_model := fun m ow oc e =>
       (Ok {| Flat.sm_model := S (default 0 m);
              Flat.sm_objective_weights := vec (take 1 (t_data ow));
              Flat.sm_outcome_constraints := oc |}, e);
     Flat._to_inequality_constraints := fun lc => Ok None;
     Flat.normalize_indices := fun l d => Ok l;
     Flat.checked_cast_AcquisitionFunction := fun a => Ok a;
     Flat.state_dict := fun m e => (Ok 1%positive, e);
     Flat.Keys := spec_keys |}.

Definition State : Type :=
  St (Scalar:=Z) (Ext:=unit) (Flat.BotorchModel Z nat) (Flat.Event Z nat nat).

(** A facade straight out of [__init__] with the default flags. *)
Definition unfitted : State :=
  mkSt (Flat.BotorchModel_init false true true false false ∅) env0 [].

(** The same facade after [fit] on two outcomes. *)
Definition fitted : State :=
  (Flat.fit collaborators [vec [0; 1]; vec [0; 1]]%Z [vec [5]; vec [6]]%Z
            [vec [0]; vec [0]]%Z
            {| ssd_task_features := []; ssd_fidelity_features := [] |}
            ["a"; "b"] unfitted).2.

Definition objective : ObjectiveSpec Z :=
  {| bounds := [(0, 1); (0, 1)]%Z;
     objective_weights := vec [1; 0]%Z;
     outcome_constraints := None;
     linear_constraints := None;
     fixed_features := None;
     model_gen_options := None;
     target_fidelities := None |}.

Definition with_target_fidelities (tf : option (gmap Z Z)) (s : ObjectiveSpec Z)
    : ObjectiveSpec Z :=
  {| bounds := bounds s; objective_weights := objective_weights s;
     outcome_constraints := outcome_constraints s;
     linear_constraints := linear_constraints s;
     fixed_features := fixed_features s;
     model_gen_options := model_gen_options s;
     target_fidelities := tf |}.

Definition with_options (o : option (gmap string (PyVal Z))) (s : ObjectiveSpec Z)
    : ObjectiveSpec Z :=
  {| bounds := bounds s; objective_weights := objective_weights s;
     outcome_constraints := outcome_constraints s;
     linear_constraints := linear_constraints s;
     fixed_features := fixed_features s;
     model_gen_options := o;
     target_fidelities := target_fidelities s |}.

Definition gen_args (s : ObjectiveSpec Z) : GenArgs Z :=
  {| n := 3; spec := s; pending_observations := None; rounding_func := None |}.

(** What [gen] returns for [gen_args objective] on both facades: the three
    candidates moved to the host, three unit weights, the acquisition value. *)
Definition gen_output : GenResult Z :=
  ({| t_shape := [3; 1]; t_data := [0; 0; 0]%Z; t_dtype := Float64;
      t_device := cpu; t_requires_grad := false |},
   {| t_shape := [3]; t_data := [1; 1; 1]%Z; t_dtype := Float64;
      t_device := cpu; t_requires_grad := false |},
   {[ "expected_acquisition_value" := VFloat 7%Z ]},
   None).

(** The same facade with [warm_start_refitting=False]. *)
Definition fitted_cold : State :=
  (Flat.fit collaborators [vec [0; 1]; vec [0; 1]]%Z [vec [5]; vec [6]]%Z
            [vec [0]; vec [0]]%Z
            {| ssd_task_features := []; ssd_fidelity_features := [] |}
            ["a"; "b"]
            (mkSt (Flat.BotorchModel_init false true false false false ∅) env0 [])).2.

(** A batch of two rows and a rounding function that zeroes a row. *)
Definition batch : Tensor Z :=
  {| t_shape := [2; 2]; t_data := [1; 2; 3; 4]%Z; t_dtype := Float64;
     t_device := cpu; t_requires_grad := false |}.

Definition zero_row (x : Tensor Z) : Res (Tensor Z) :=
  Ok {| t_shape := t_shape x; t_data := (fun _ => 0%Z) <$> t_data x;
        t_dtype := t_dtype x; t_device := t_device x;
        t_requires_grad := t_requires_grad x |}.

(** A batch without rows. *)
Definition empty_batch : Tensor Z :=
  {| t_shape := [0; 2]; t_data := []; t_dtype := Float64;
     t_device := cpu; t_requires_grad := false |}.

(** Surrogates, acquisitions and classes of the modular facade are numbered. *)
Definition modular_collaborators : Modular.Collaborators Z nat nat nat nat unit :=
  {| Modular.Acquisition_class := 0;
     Modular.default_botorch_acqf_class := fun _ => None;
     Modular.new_acquisition := fun cls a e => (Ok 5, e);
     Modular.acquisition_optimize := fun acqf a e =>
       (Ok ({| t_shape := [Z.to_nat (Modular.az_n a); 1];
               t_data := replicate (Z.to_nat (Modular.az_n a)) 0%Z;
               t_dtype := Float64; t_device := cuda 0;
               t_requires_grad := true |},
            scalar 7), e);
     Modular.surrogate_predict := fun sg X e => (Ok (X, X), e);
     Modular.surrogate_dtype := fun sg e => (Ok Float64, e);
     Modular.surrogate_device := fun sg e => (Ok cpu, e);
     Modular.construct_acquisition_and_optimizer_options := fun ao mo e =>
       (Ok (VDict ao, VDict ∅), e);
     Modular.choose_botorch_acqf_class := fun e => (Ok 9, e);
     Modular._to_inequality_constraints := fun lc => Ok None;
     Modular.checked_cast_dict := fun v =>
       match v with
       | VDict d => Ok d
       | _ => Raise (mkExn ValueError "Value was not of type dict")
       end;
     Modular.Keys := spec_keys |}.

Definition ModularState : Type :=
  St (Scalar:=Z) (Ext:=unit) (Modular.BoTorchModel Z nat nat nat)
     (Modular.Event Z nat nat nat nat).

(** A modular facade built without a surrogate, and one built around
    surrogate number 1. *)
Definition modular_unset : ModularState :=
  mkSt (Modular.BoTorchModel_init modular_collaborators None None None None None)
       env0 [].

Definition modular_ready : ModularState :=
  mkSt (Modular.BoTorchModel_init modular_collaborators None None None (Some 1) None)
       env0 [].

End Toy.

(** ** Further concrete inputs

    For the rest of the facades: a rounding function that refuses a row, a
    facade built with a colliding keyword argument, options that [gen] cannot
    pass on, models with lengthscales, and the helpers of the modular [fit]. *)

Module Scenario.

Abbreviation Q := QArith_base.Q.

(** A rounding function that refuses the rows that start with 3. *)
Definition refuse_threes (x : Tensor Z) : Res (Tensor Z) :=
  match t_data x with
  | 3%Z :: _ => Raise (mkExn ValueError "cannot round a row that starts with 3")
  | _ => Ok x
  end.

Definition digest : SearchSpaceDigest :=
  {| ssd_task_features := []; ssd_fidelity_features := [] |}.

(** A facade built with the extra keyword argument [state_dict=None], fitted
    on one outcome. *)
Definition fitted_with_state_dict : Toy.State :=
  (Flat.fit Toy.collaborators [Toy.vec [0; 1]%Z] [Toy.vec [5%Z]] [Toy.vec [0%Z]]
            digest ["a"]
            (mkSt (Flat.BotorchModel_init false true true false false
                     {[ "state_dict" := VNone ]}) Toy.env0 [])).2.

(** The objective of [Toy] without bounds. *)
Definition no_bounds : ObjectiveSpec Z :=
  {| bounds := [];
     objective_weights := objective_weights Toy.objective;
     outcome_constraints := None; linear_constraints := None;
     fixed_features := None; model_gen_options := None;
     target_fidelities := None |}.

(** Options that repeat an argument [gen] passes itself. *)
Definition acqf_kwargs_with_model : gmap string (PyVal Z) :=
  {[ "acquisition_function_kwargs" := VDict {[ "model" := VNone ]} ]}.

Definition optimizer_kwargs_with_n : gmap string (PyVal Z) :=
  {[ "optimizer_kwargs" := VDict {[ "n" := VInt 5 ]} ]}.

(** Models with rational lengthscales.  Model 0 is a [ModelListGP] of the
    models 1 and 2, model 9 a [ModelListGP] without sub-models; the kernel of
    model [k] has the lengthscales [k + 1] and [2 (k + 1)], as a 1 x 2
    tensor. *)
Definition lengthscale_of (k : nat) : Tensor Q :=
  {| t_shape := [1; 2];
     t_data := [QArith_base.Qmake (Z.of_nat (S k)) 1;
                QArith_base.Qmake (Z.of_nat (2 * S k)) 1];
     t_dtype := Float64; t_device := cuda 0; t_requires_grad := true |}.

Definition importance_collaborators : Importances.Collaborators Q nat unit :=
  {| Importances.is_ModelListGP := fun m => bool_decide (m = 0 \/ m = 9);
     Importances.models := fun m e => if bool_decide (m = 0) then [1; 2] else [];
     Importances.lengthscale := fun m e => (Ok (lengthscale_of m), e);
     Importances.reciprocal := QArith_base.Qinv |}.

Definition ImportanceState : Type :=
  St (Scalar:=Q) (Ext:=unit) (Flat.BotorchModel Q nat) (Importances.Event nat).

Definition rational_env : Env Q unit := {| heap := ∅; ext := tt |}.

(** A facade whose model is model [m], and one that was never fitted. *)
Definition with_model_number (m : option nat) : ImportanceState :=
  mkSt (Flat.with_model m (Flat.BotorchModel_init false true true false false ∅))
       rational_env [].

(** The helpers of the modular [fit]: classes, surrogates and training data
    are numbered, and the surrogate built from the classes [c] and [l] is
    [c + l].  The values of the three [Keys] members are not in the sources;
    the names of the members stand in for them. *)
Definition fit_keys : FitKeysT :=
  {| STATE_DICT := "STATE_DICT";
     REFIT_ON_UPDATE := "REFIT_ON_UPDATE";
     WARM_START_REFITTING := "WARM_START_REFITTING" |}.

Definition training_collaborators : Training.Collaborators Z nat unit nat nat nat :=
  {| Training.validate_data_format := fun xs ys yvars names e =>
       if bool_decide (length xs = length ys) then (Ok tt, e)
       else (Raise (mkExn ValueError "lengths of Xs and Ys differ"), e);
     Training.choose_model_class := fun xs ys yvars tf ff e => (Ok 7, e);
     Training.choose_mll_class := fun c sd refit e => (Ok 8, e);
     Training.new_surrogate := fun c l e => (Ok (c + l), e);
     Training.construct_training_data := fun xs ys yvars c e => (Ok (length xs), e);
     Training.botorch_model_class := fun sg e => (Ok 7, e);
     Training.surrogate_fit := fun sg a e => (Ok tt, e);
     Training.Keys := fit_keys |}.

Definition TrainingState : Type :=
  St (Scalar:=Z) (Ext:=unit) (Modular.BoTorchModel Z nat nat nat)
     (Training.Event Z nat nat nat nat nat nat nat).

(** A modular facade without surrogate whose fit options hold a state dict
    and ask for a cold refit, and one built around surrogate 1. *)
Definition cold_options : gmap string (PyVal Z) :=
  {[ "STATE_DICT" := VObj 1; "WARM_START_REFITTING" := VBool false ]}.

Definition training_unset : TrainingState :=
  mkSt (Modular.BoTorchModel_init Toy.modular_collaborators None None None None
          (Some cold_options)) Toy.env0 [].

Definition training_ready : TrainingState :=
  mkSt (Modular.BoTorchModel_init Toy.modular_collaborators None None None (Some 1)
          None) Toy.env0 [].

Definition fit_args : Training.FitArgs Z :=
  {| Training.fa_Xs := [Toy.vec [0; 1]%Z];
     Training.fa_Ys := [Toy.vec [5%Z]];
     Training.fa_Yvars := [Toy.vec [0%Z]];
     Training.fa_bounds := [(0, 1); (0, 1)]%Z;
     Training.fa_task_features := [];
     Training.fa_feature_names := ["x1"; "x2"];
     Training.fa_metric_names := ["a"];
     Training.fa_fidelity_features := [];
     Training.fa_target_fidelities := None;
     Training.fa_candidate_metadata := None |}.

(** The same call with one outcome too many. *)
Definition fit_args_mismatched : Training.FitArgs Z :=
  {| Training.fa_Xs := [Toy.vec [0; 1]%Z];
     Training.fa_Ys := [Toy.vec [5%Z]; Toy.vec [6%Z]];
     Training.fa_Yvars := [Toy.vec [0%Z]];
     Training.fa_bounds := [(0, 1); (0, 1)]%Z;
     Training.fa_task_features := [];
     Training.fa_feature_names := ["x1"; "x2"];
     Training.fa_metric_names := ["a"];
     Training.fa_fidelity_features := [];
     Training.fa_target_fidelities := None;
     Training.fa_candidate_metadata := None |}.

(** The facade without surrogate after [fit]. *)
Definition training_fitted : TrainingState :=
  (Training.fit training_collaborators fit_args training_unset).2.

(** [Acquisition.evaluate]: the acquisition value of every point is 7. *)
Definition evaluate_seven (acqf : nat) (X : Tensor Z)
    : Collab (Scalar:=Z) (Ext:=unit) (Tensor Z) :=
  fun e => (Ok (Toy.scalar 7), e).

Definition EvaluationState : Type :=
  St (Scalar:=Z) (Ext:=unit) (Modular.BoTorchModel Z nat nat nat)
     (Evaluation.Event Z nat nat nat nat).

Definition evaluation_ready : EvaluationState :=
  mkSt (self Toy.modular_ready) Toy.env0 [].

(** A batch of three samples of two rows, stored as the transpose of a
    contiguous [(2, 3, 2)] tensor: its strides are [(2, 6, 1)]. *)
Definition transposed_batch : Tensor Z :=
  {| t_shape := [3; 2; 2];
     t_data := [0; 1; 6; 7; 2; 3; 8; 9; 4; 5; 10; 11]%Z;
     t_dtype := Float64; t_device := cpu; t_requires_grad := false |}.

Definition transposed_strides : list nat := [2; 6; 1].



End Scenario.

(** * Properties *)

(** ** The rounding adapter *)

Section RoundingFacts.
Context {Scalar : Type}.
Implicit Types (X Y : Tensor Scalar) (f : Tensor Scalar -> Res (Tensor Scalar)).

Lemma mapM_Res_Ok {A B} (g : A -> Res B) (l : list A) (l' : list B) :
  mapM g l = Ok l' -> Forall2 (fun x y => g x = Ok y) l l'.
Proof.
  revert l'. induction l as [|x l IH]; intros l' Hm; simpl in Hm.
  - injection Hm as <-. constructor.
  - unfold mbind, Res_bind in Hm. destruct (g x) as [y|e] eqn:Hg; [|discriminate].
    destruct (mapM g l) as [ys|e] eqn:Hl; [|discriminate].
    injection Hm as <-. constructor; auto.
Qed.

Lemma prod_list_app (a b : list nat) :
  prod_list (a ++ b) = prod_list a * prod_list b.
Proof.
  induction a as [|x a IH]; simpl; [lia|]. unfold prod_list in *. simpl. rewrite IH. lia.
Qed.

Lemma prod_list_singleton (d : nat) : prod_list [d] = d.
Proof. unfold prod_list. simpl. lia. Qed.


Lemma concat_chunk {A} (d : nat) (ls : list (list A)) (k : nat) (l : list A) :
  Forall (fun x => length x = d) ls ->
  ls !! k = Some l ->
  take d (drop (k * d) (concat ls)) = l.
Proof.
  revert k. induction ls as [|x ls IH]; intros k Hall Hk; [done|].
  inversion Hall as [|? ? Hx Hls]; subst.
  destruct k as [|k].
  - injection Hk as ->. rewrite Nat.mul_0_l, drop_0. cbn [concat].
    by rewrite take_app_length.
  - cbn [concat]. replace (S k * length x) with (length x + k * length x) by lia.
    rewrite drop_app_add'; [|done]. by apply IH.
Qed.

Lemma Forall2_lookup_seq {B} (P : nat -> B -> Prop) (n0 N : nat) (ys : list B) :
  Forall2 P (seq n0 N) ys ->
  forall k, k < N -> exists y, ys !! k = Some y /\ P (n0 + k) y.
Proof.
  intros HF k Hk.
  destruct (Forall2_lookup_l _ _ _ k (n0 + k) HF) as (y & Hy & HP).
  { by apply lookup_seq_lt. }
  eauto.
Qed.

(** The adapter on a non-empty batch: every row is rounded on its own and
    the result has the shape of the input. *)
Lemma botorch_rounding_func_rowwise f X (bs : list nat) (d : nat) :
  t_shape X = bs ++ [d] ->
  0 < numel X ->
  (forall x y, x ∈ rows_of X d -> f x = Ok y ->
     t_shape y = [d] /\ t_device y = t_device X) ->
  botorch_rounding_func f X = round_rowwise f X.
Proof.
  intros Hshape Hpos Hf.
  assert (Hnum : numel X = prod_list bs * d).
  { unfold numel. rewrite Hshape, prod_list_app, prod_list_singleton. done. }
  assert (Hd : d <> 0) by (intros ->; lia).
  assert (Hbs : prod_list bs <> 0) by (intros E; rewrite E in Hnum; lia).
  unfold botorch_rounding_func, round_rowwise, shape_last, shape_init.
  rewrite Hshape, last_snoc. simpl.
  unfold view_rows. rewrite bool_decide_eq_false_2 by done.
  rewrite bool_decide_eq_true_2 by (rewrite Hnum; apply Nat.Div0.mod_mul).
  simpl. unfold iter_tensor. simpl.
  rewrite Hnum, Nat.div_mul by done.
  unfold rows_of, shape_init. rewrite Hshape, removelast_last.
  change (select0 (reshaped X [prod_list bs; d]) [d]) with (row_of X d).
  pose proof (Hf' := Hf). unfold rows_of, shape_init in Hf'.
  rewrite Hshape, removelast_last in Hf'.
  destruct (mapM f (row_of X d <$> seq 0 (prod_list bs))) as [rounded|e] eqn:Hm;
    simpl; [|done].
  apply mapM_Res_Ok in Hm.
  assert (Hall : Forall (fun y => t_shape y = [d] /\ t_device y = t_device X) rounded).
  { apply Forall_forall. intros y Hy.
    apply list_elem_of_lookup in Hy as [i Hi].
    destruct (Forall2_lookup_r _ _ _ _ _ Hm Hi) as (x & Hx & Hfx).
    eapply Hf'; [|exact Hfx]. apply list_elem_of_lookup. eauto. }
  assert (Hlen : length rounded = prod_list bs).
  { apply Forall2_length in Hm. rewrite length_fmap, length_seq in Hm. done. }
  destruct rounded as [|r0 rest]; [simpl in Hlen; lia|].
  inversion Hall as [|? ? [Hs0 Hd0] Hrest]; subst.
  unfold stack.
  rewrite (proj2 (forallb_forall _ rest)).
  2:{ intros y Hy. apply bool_decide_eq_true_2.
      rewrite Forall_forall in Hrest. apply list_elem_of_In in Hy.
      destruct (Hrest y Hy) as [-> _]. done. }
  rewrite (proj2 (forallb_forall _ rest)).
  2:{ intros y Hy. apply bool_decide_eq_true_2.
      rewrite Forall_forall in Hrest. apply list_elem_of_In in Hy.
      destruct (Hrest y Hy) as [_ ->]. done. }
  simpl. unfold view.
  rewrite bool_decide_eq_true_2; [done|].
  unfold numel. cbn [t_shape stacked]. rewrite Hs0, prod_list_app.
  simpl in Hlen. rewrite <- Hlen. unfold prod_list. simpl. lia.
Qed.

(** Rows of the result of rounding row by row. *)
Lemma round_rowwise_rows f X Y (bs : list nat) (d : nat) :
  t_shape X = bs ++ [d] ->
  (forall x y, x ∈ rows_of X d -> f x = Ok y -> length (t_data y) = d) ->
  round_rowwise f X = Ok Y ->
  t_shape Y = t_shape X /\
  forall k, k < prod_list bs ->
    exists y, f (row_of X d k) = Ok y /\ t_data (row_of Y d k) = t_data y.
Proof.
  intros Hshape Hf. unfold round_rowwise, rows_of, shape_init in *.
  rewrite Hshape, last_snoc, removelast_last in *.
  destruct (mapM f (row_of X d <$> seq 0 (prod_list bs))) as [rounded|e] eqn:Hm;
    simpl; [|done].
  apply mapM_Res_Ok in Hm. intros HY.
  assert (Hlen : length rounded = prod_list bs).
  { apply Forall2_length in Hm. rewrite length_fmap, length_seq in Hm. done. }
  destruct rounded as [|r0 rest].
  { injection HY as <-. split; [done|]. simpl in Hlen. intros k Hk. lia. }
  injection HY as <-. split; [done|].
  intros k Hk.
  apply Forall2_fmap_l in Hm.
  destruct (Forall2_lookup_seq _ _ _ _ Hm k Hk) as (y & Hy & Hfy).
  exists y. split; [exact Hfy|].
  unfold row_of, select0, reshaped, stacked. cbn [t_data].
  rewrite Nat.mul_1_r.
  apply (concat_chunk d (t_data <$> (r0 :: rest)) k).
  - apply Forall_fmap, Forall_forall. intros z Hz.
    apply list_elem_of_lookup in Hz as [i Hi].
    destruct (Forall2_lookup_r _ _ _ _ _ Hm Hi) as (x & Hx & Hfx).
    simpl. eapply Hf; [|exact Hfx].
    apply list_elem_of_lookup. exists x. rewrite list_lookup_fmap.
    apply lookup_seq in Hx as [-> Hlt]. rewrite lookup_seq_lt by done. done.
  - rewrite list_lookup_fmap, Hy. done.
Qed.

End RoundingFacts.

(** ** The layout of a tensor *)

Section LayoutFacts.
Context {Scalar : Type}.
Implicit Types (X Y : Tensor Scalar) (f : Tensor Scalar -> Res (Tensor Scalar)).

Lemma running_strides_snoc (r : list nat) (x p : nat) :
  running_strides (r ++ [x]) p = running_strides r p ++ [p * prod_list r].
Proof.
  revert p. induction r as [|y r IH]; intros p.
  - cbn [app running_strides]. change (prod_list []) with 1.
    by rewrite Nat.mul_1_r.
  - cbn [app running_strides]. rewrite IH.
    change (prod_list (y :: r)) with (y * prod_list r).
    by rewrite Nat.mul_assoc.
Qed.

Lemma length_running_strides (r : list nat) (p : nat) :
  length (running_strides r p) = length r.
Proof. revert p. induction r as [|y r IH]; intros p; simpl; [done|]. by rewrite IH. Qed.

Lemma length_contiguous_strides (s : list nat) :
  length (contiguous_strides s) = length s.
Proof. induction s as [|x s IH]; simpl; [done|]. by rewrite IH. Qed.

Lemma prod_list_reverse (s : list nat) : prod_list (reverse s) = prod_list s.
Proof.
  induction s as [|x s IH]; [done|].
  rewrite reverse_cons, prod_list_app, IH, prod_list_singleton.
  change (prod_list (x :: s)) with (x * prod_list s). lia.
Qed.

Lemma prod_list_positive (s : list nat) :
  prod_list s <> 0 -> Nat.max 1 <$> s = s.
Proof.
  induction s as [|x s IH]; [done|].
  change (prod_list (x :: s)) with (x * prod_list s). intros Hp.
  rewrite fmap_cons, IH by lia. f_equal. lia.
Qed.

Lemma reverse_contiguous_strides (s : list nat) :
  prod_list s <> 0 ->
  reverse (contiguous_strides s) = running_strides (reverse s) 1.
Proof.
  induction s as [|x s IH]; [done|].
  change (prod_list (x :: s)) with (x * prod_list s). intros Hp.
  assert (Hs : prod_list s <> 0) by lia.
  cbn [contiguous_strides].
  rewrite !reverse_cons, running_strides_snoc, IH by done.
  rewrite prod_list_positive, prod_list_reverse by done.
  by rewrite Nat.mul_1_l.
Qed.

Lemma reverse_zip {A B} (a : list A) (b : list B) :
  length a = length b -> reverse (zip a b) = zip (reverse a) (reverse b).
Proof.
  revert b. induction a as [|x a IH]; intros [|y b]; try done.
  intros [= Hlen]. cbn [zip zip_with]. rewrite !reverse_cons, IH by done.
  rewrite zip_with_app by (by rewrite !length_reverse). done.
Qed.

Lemma chunks_fit_step (size stride size' stride' : nat) (rest : list (nat * nat))
    (base tensor_numel : nat) (rnew : list nat) :
  chunks_fit ((size, stride) :: (size', stride') :: rest) base tensor_numel rnew =
    if negb (size' =? 1)%nat && negb (stride' =? tensor_numel * size * base)%nat then
      let '(view_numel, rnew') := fill_chunk (tensor_numel * size) 1 rnew in
      (view_numel =? tensor_numel * size)%nat &&
      chunks_fit ((size', stride') :: rest) stride' 1 rnew'
    else chunks_fit ((size', stride') :: rest) base (tensor_numel * size) rnew.
Proof. reflexivity. Qed.

(** In a contiguous layout all dimensions form one chunk. *)
Lemma chunks_fit_running (r : list nat) (p : nat) (rnew : list nat) :
  r <> [] ->
  chunks_fit (zip r (running_strides r p)) 1 p rnew =
    (let '(view_numel, rnew') := fill_chunk (p * prod_list r) 1 rnew in
     (view_numel =? p * prod_list r)%nat && bool_decide (rnew' = [])).
Proof.
  revert p. induction r as [|x r IH]; intros p Hne; [done|].
  destruct r as [|y r].
  - rewrite prod_list_singleton. reflexivity.
  - change (zip (x :: y :: r) (running_strides (x :: y :: r) p))
      with ((x, p) :: (y, p * x) :: zip r (running_strides r (p * x * y))).
    rewrite chunks_fit_step, Nat.mul_1_r, Nat.eqb_refl, andb_false_r.
    change ((y, p * x) :: zip r (running_strides r (p * x * y)))
      with (zip (y :: r) (running_strides (y :: r) (p * x))).
    rewrite IH by done.
    change (prod_list (x :: y :: r)) with (x * prod_list (y :: r)).
    by rewrite !Nat.mul_assoc.
Qed.

(** A view of [N] rows of length [d] fills a chunk of [N * d] elements. *)
Lemma fill_chunk_rows (N d : nat) :
  N * d <> 0 -> fill_chunk (N * d) 1 [d; N] = (N * d, []).
Proof.
  intros Hp. assert (N <> 0 /\ d <> 0) as [HN Hd] by lia.
  cbn [fill_chunk].
  assert (H1 : ((1 <? N * d) || (d =? 1))%nat = true).
  { destruct (1 <? N * d)%nat eqn:E1; [done|]. apply Nat.ltb_ge in E1.
    simpl. apply Nat.eqb_eq. nia. }
  rewrite H1, Nat.mul_1_l.
  assert (H2 : ((d <? N * d) || (N =? 1))%nat = true).
  { destruct (d <? N * d)%nat eqn:E1; [done|]. apply Nat.ltb_ge in E1.
    simpl. apply Nat.eqb_eq. nia. }
  rewrite H2. f_equal. lia.
Qed.

(** A contiguous tensor can be viewed as rows of any length that divides its
    number of elements. *)
Lemma viewable_contiguous (s : list nat) (N d : nat) :
  prod_list s = N * d ->
  viewable s (contiguous_strides s) [N; d] = true.
Proof.
  intros Hp. unfold viewable.
  destruct (decide (prod_list s = 0)) as [Hz|Hz].
  { destruct (reverse _) as [|[size base] rold]; [done|].
    by rewrite (proj2 (Nat.eqb_eq _ _) Hz). }
  rewrite reverse_zip by (by rewrite length_contiguous_strides).
  rewrite reverse_contiguous_strides by done.
  destruct (reverse s) as [|x r] eqn:Hrs; [done|].
  change (zip (x :: r) (running_strides (x :: r) 1))
    with ((x, 1) :: zip r (running_strides r (1 * x))).
  cbv iota beta. rewrite (proj2 (Nat.eqb_neq _ _) Hz).
  change ((x, 1) :: zip r (running_strides r (1 * x)))
    with (zip (x :: r) (running_strides (x :: r) 1)).
  rewrite chunks_fit_running by done.
  rewrite <- Hrs, Nat.mul_1_l, prod_list_reverse, Hp.
  change (reverse [N; d]) with [d; N].
  rewrite fill_chunk_rows by lia. by rewrite Nat.eqb_refl.
Qed.

(** The adapter on a tensor stored with [strides]: the view of the rows
    exists and the adapter goes on as in the default layout, or it does not
    and the adapter stops there. *)
Lemma botorch_rounding_func_at_run (strides : list nat) f X :
  botorch_rounding_func_at strides f X =
    match shape_last X with
    | Raise e => Raise e
    | Ok d =>
        match view_rows X d with
        | Raise e => Raise e
        | Ok Xv =>
            if viewable (t_shape X) strides (t_shape Xv)
            then botorch_rounding_func f X
            else Raise view_not_compatible
        end
    end.
Proof.
  unfold botorch_rounding_func_at, botorch_rounding_func, view_rows_at.
  destruct (shape_last X) as [d|e]; simpl; [|done].
  destruct (view_rows X d) as [Xv|e]; simpl; [|done].
  by destruct (viewable _ _ _).
Qed.

(** The rows of a tensor with trailing dimension [d > 0]. *)
Lemma view_rows_shape X (bs : list nat) (d : nat) :
  t_shape X = bs ++ [d] -> d <> 0 ->
  shape_last X = Ok d /\
  view_rows X d = Ok (reshaped X [prod_list bs; d]).
Proof.
  intros Hshape Hd.
  assert (Hnum : numel X = prod_list bs * d).
  { unfold numel. by rewrite Hshape, prod_list_app, prod_list_singleton. }
  unfold shape_last, view_rows. rewrite Hshape, last_snoc. split; [done|].
  rewrite bool_decide_eq_false_2 by done.
  rewrite bool_decide_eq_true_2 by (rewrite Hnum; apply Nat.Div0.mod_mul).
  by rewrite Hnum, Nat.div_mul.
Qed.

Lemma botorch_rounding_func_at_shape (strides : list nat) f X (bs : list nat)
    (d : nat) :
  t_shape X = bs ++ [d] -> d <> 0 ->
  botorch_rounding_func_at strides f X =
    if viewable (t_shape X) strides [prod_list bs; d]
    then botorch_rounding_func f X
    else Raise view_not_compatible.
Proof.
  intros Hshape Hd. rewrite botorch_rounding_func_at_run.
  destruct (view_rows_shape X bs d Hshape Hd) as [-> ->]. done.
Qed.

(** In the default layout the strides never stand in the way. *)
Lemma botorch_rounding_func_at_contiguous f X :
  botorch_rounding_func_at (contiguous_strides (t_shape X)) f X =
    botorch_rounding_func f X.
Proof.
  rewrite botorch_rounding_func_at_run.
  unfold botorch_rounding_func.
  destruct (shape_last X) as [d|e] eqn:Hlast; simpl; [|done].
  unfold view_rows.
  destruct (bool_decide (d = 0)); [done|].
  destruct (bool_decide (numel X `mod` d = 0)) eqn:Hmod; [|done].
  apply bool_decide_eq_true_1 in Hmod. simpl.
  rewrite viewable_contiguous; [done|].
  apply Nat.Div0.div_exact in Hmod. unfold numel in *. lia.
Qed.

End LayoutFacts.

(** ** The facade monad *)

Section MonadFacts.
Context {Scalar Ext F Ev : Type}.
Abbreviation Mon := (M (Scalar:=Scalar) (Ext:=Ext) F Ev).
Abbreviation State := (St (Scalar:=Scalar) (Ext:=Ext) F Ev).
Abbreviation Coll := (Collab (Scalar:=Scalar) (Ext:=Ext)).

Lemma bindM_Ok_inv {A B} (c : Mon A) (k : A -> Mon B) st b st' :
  bindM c k st = (Ok b, st') ->
  exists a st1, c st = (Ok a, st1) /\ k a st1 = (Ok b, st').
Proof.
  unfold bindM. destruct (c st) as [[a|e] st1]; [eauto | discriminate].
Qed.

Lemma liftR_inv {A} (r : Res A) (st : State) r' st' :
  (liftR r : Mon A) st = (r', st') -> r' = r /\ st' = st.
Proof. unfold liftR. intros [= <- <-]. done. Qed.

Lemma call_inv {A} (ev : Ev) (c : Coll A) (st : State) r st' :
  call ev c st = (r, st') ->
  exists e', c (env st) = (r, e') /\
    st' = mkSt (self st) e' (trace st ++ [(ev, env st)]).
Proof.
  unfold call. destruct (c (env st)) as [r0 e'] eqn:Hc. intros [= <- <-]. eauto.
Qed.

Lemma new_events_app {A} (c : Mon A) st evs :
  trace (c st).2 = trace st ++ evs -> new_events c st = evs.
Proof. unfold new_events. intros ->. apply drop_app_length. Qed.

(** *** Computations that leave [self] alone *)

Lemma keeps_self_retM {A} (a : A) : keeps_self (retM a : Mon A).
Proof. done. Qed.
Lemma keeps_self_raiseM {A} e : keeps_self (raiseM e : Mon A).
Proof. done. Qed.
Lemma keeps_self_liftR {A} (r : Res A) : keeps_self (liftR r : Mon A).
Proof. done. Qed.
Lemma keeps_self_get_self : keeps_self (get_self : Mon F).
Proof. done. Qed.
Lemma keeps_self_call {A} ev (c : Coll A) : keeps_self (call ev c : Mon A).
Proof. intros st. unfold call. by destruct (c (env st)). Qed.
Lemma keeps_self_on_env {A} (c : Env Scalar Ext -> A * Env Scalar Ext) :
  keeps_self (on_env c : Mon A).
Proof. intros st. unfold on_env. by destruct (c (env st)). Qed.

Lemma keeps_self_bindM {A B} (c : Mon A) (k : A -> Mon B) :
  keeps_self c -> (forall a, keeps_self (k a)) -> keeps_self (bindM c k).
Proof.
  intros Hc Hk st. unfold bindM. specialize (Hc st).
  destruct (c st) as [[a|e] st1]; simpl in *; [|done].
  by rewrite (Hk a st1).
Qed.

Lemma keeps_self_try_except {A} (c : Mon A) h :
  keeps_self c -> (forall e, keeps_self (h e)) -> keeps_self (try_except c h).
Proof.
  intros Hc Hh st. unfold try_except. specialize (Hc st).
  destruct (c st) as [[a|e] st1]; simpl in *; [done|].
  by rewrite (Hh e st1).
Qed.

End MonadFacts.

Create HintDb facade discriminated.
#[export] Hint Resolve keeps_self_retM keeps_self_raiseM keeps_self_liftR
  keeps_self_get_self keeps_self_call keeps_self_on_env : facade.

(** One step of a proof that a computation leaves [self] alone. *)
Ltac keeps_self_step :=
  match goal with
  | |- keeps_self (bindM _ _) => apply keeps_self_bindM; [|intros ?]
  | |- keeps_self (try_except _ _) => apply keeps_self_try_except; [|intros ?]
  | |- keeps_self (match ?x with _ => _ end) => destruct x
  | |- keeps_self _ => solve [auto with facade]
  end.

Ltac solve_keeps_self := repeat keeps_self_step.

(** Expose the state-passing definitions of the monad. *)
Ltac unfold_monad :=
  unfold bindM, liftR, call, get_self, set_self, retM, raiseM, try_except,
    on_env in *.

(** ** The flat facade *)

Section FlatFacts.
Context {Scalar : Type} `{ScalarOps Scalar} {Model AcquisitionFunction Ext : Type}.
Variable C : Flat.Collaborators Scalar Model AcquisitionFunction Ext.

Abbreviation FState :=
  (St (Scalar:=Scalar) (Ext:=Ext) (Flat.BotorchModel Scalar Model)
      (Flat.Event Scalar Model AcquisitionFunction)).
Abbreviation PyVal := (PyVal Scalar).

Lemma kw_splat_more_no_override (named : gset string) (kw0 : gmap string PyVal) :
  kw_splat_more named kw0 (Flat.add_kwargs false) = Ok kw0.
Proof.
  unfold kw_splat_more, Flat.add_kwargs.
  rewrite bool_decide_eq_true_2 by (rewrite dom_empty_L; set_solver).
  by rewrite (right_id_L ∅ (∪)).
Qed.

Lemma qmc_not_acqf_keyword : "qmc" ∉ Flat.acqf_keywords.
Proof. apply (bool_decide_eq_false_1 _). vm_compute. reflexivity. Qed.

Lemma kw_splat_more_override (kw0 : gmap string PyVal) :
  kw_splat_more Flat.acqf_keywords kw0 (Flat.add_kwargs true) =
    if bool_decide (kw0 !! "qmc" = None)
    then Ok (<["qmc" := VBool false]> kw0)
    else Raise TypeError_multiple_values.
Proof.
  unfold kw_splat_more, Flat.add_kwargs.
  rewrite dom_singleton_L.
  destruct (kw0 !! "qmc") as [v|] eqn:Hq.
  - rewrite bool_decide_eq_false_2.
    + by rewrite bool_decide_eq_false_2.
    + intros Hd. apply (Hd "qmc"); [set_solver|].
      apply elem_of_union_r, elem_of_dom. eauto.
  - rewrite bool_decide_eq_true_2.
    + rewrite bool_decide_eq_true_2 by done.
      by rewrite insert_union_singleton_r.
    + apply disjoint_singleton_l. intros [Hk|Hk]%elem_of_union.
      * by apply qmc_not_acqf_keyword.
      * apply elem_of_dom in Hk as [v Hv]. congruence.
Qed.

(** [gen] and [cross_validate] assign no attribute. *)
Lemma gen_keeps_self (a : GenArgs Scalar) : keeps_self (Flat.gen C a).
Proof.
  unfold Flat.gen, Flat.gen_prologue, Flat.optimize_with_fallback,
    Flat.make_and_optimize_acqf, Flat.gen_return.
  solve_keeps_self.
Qed.

Lemma cross_validate_keeps_self (Xs_train Ys_train Yvars_train : list (Tensor Scalar))
    (X_test : Tensor Scalar) :
  keeps_self (Flat.cross_validate C Xs_train Ys_train Yvars_train X_test).
Proof.
  unfold Flat.cross_validate, Flat.copy_of_state_dict. solve_keeps_self.
Qed.

(** One attempt calls the acquisition constructor at most once, with the
    keyword arguments of the configuration (and [qmc=False] when overriding),
    and leaves [self] alone. *)
Lemma make_and_optimize_acqf_trace (L : Flat.GenLocals) (b : bool) (st : FState) :
  exists evs,
    trace (Flat.make_and_optimize_acqf C L b st).2 = trace st ++ evs /\
    self (Flat.make_and_optimize_acqf C L b st).2 = self st /\
    match kw_splat Flat.acqf_keywords (Flat.gl_acf_options L) with
    | Ok kw0 =>
        match kw_splat_more Flat.acqf_keywords kw0 (Flat.add_kwargs b) with
        | Ok kw => Flat.acqf_constructor_calls evs = [Flat.acqf_args L kw]
        | Raise e => evs = [] /\ (Flat.make_and_optimize_acqf C L b st).1 = Raise e
        end
    | Raise e => evs = [] /\ (Flat.make_and_optimize_acqf C L b st).1 = Raise e
    end.
Proof.
  unfold Flat.make_and_optimize_acqf. unfold_monad.
  destruct (kw_splat Flat.acqf_keywords (Flat.gl_acf_options L)) as [kw0|e0];
    [|exists []; by rewrite app_nil_r].
  destruct (kw_splat_more Flat.acqf_keywords kw0 (Flat.add_kwargs b)) as [kw|e1];
    [|exists []; by rewrite app_nil_r].
  destruct (Flat.acqf_constructor C (Flat.acqf_args L kw) (env st)) as [[f|e2] e'];
    simpl; [|eexists; split; [reflexivity|done]].
  destruct (Flat.checked_cast_AcquisitionFunction C f) as [f1|e3];
    simpl; [|eexists; split; [reflexivity|done]].
  destruct (Flat.checked_cast_AcquisitionFunction C f1) as [f2|e4];
    simpl; [|eexists; split; [reflexivity|done]].
  destruct (Flat._to_inequality_constraints C (Flat.gl_linear_constraints L))
    as [ic|e5]; simpl; [|eexists; split; [reflexivity|done]].
  destruct (kw_splat Flat.optimizer_keywords (Flat.gl_optimizer_options L))
    as [okw|e6]; simpl; [|eexists; split; [reflexivity|done]].
  match goal with |- context [Flat.acqf_optimizer C ?a ?e] =>
    destruct (Flat.acqf_optimizer C a e) as [r e''] end.
  simpl. eexists. split; [by rewrite <- app_assoc|done].
Qed.


Lemma acqf_constructor_calls_app
    (l1 l2 : list (Flat.Event Scalar Model AcquisitionFunction * Env Scalar Ext)) :
  Flat.acqf_constructor_calls (l1 ++ l2) =
    Flat.acqf_constructor_calls l1 ++ Flat.acqf_constructor_calls l2.
Proof. apply omap_app. Qed.

Lemma make_and_optimize_acqf_calls (L : Flat.GenLocals) (b : bool) (st : FState) :
  exists evs,
    trace (Flat.make_and_optimize_acqf C L b st).2 = trace st ++ evs /\
    self (Flat.make_and_optimize_acqf C L b st).2 = self st /\
    (Flat.acqf_constructor_calls evs = [] \/
     exists kw0, kw_splat Flat.acqf_keywords (Flat.gl_acf_options L) = Ok kw0 /\
       if b then kw0 !! "qmc" = None /\
                 Flat.acqf_constructor_calls evs =
                   [Flat.qmc_disabled (Flat.acqf_args L kw0)]
       else Flat.acqf_constructor_calls evs = [Flat.acqf_args L kw0]).
Proof.
  destruct (make_and_optimize_acqf_trace L b st) as (evs & Htr & Hself & Hc).
  exists evs. split; [done|]. split; [done|].
  destruct (kw_splat Flat.acqf_keywords (Flat.gl_acf_options L)) as [kw0|e0];
    [|left; by destruct Hc as [-> _]].
  destruct b.
  - rewrite kw_splat_more_override in Hc. case_bool_decide as Hq.
    + right. exists kw0. done.
    + left. by destruct Hc as [-> _].
  - rewrite kw_splat_more_no_override in Hc. right. exists kw0. done.
Qed.

Lemma gen_return_trace (k : Z) (r : Tensor Scalar * Tensor Scalar) (st : FState) :
  trace (Flat.gen_return k r st).2 = trace st /\
  self (Flat.gen_return k r st).2 = self st /\
  env (Flat.gen_return k r st).2 = env st.
Proof.
  unfold Flat.gen_return. destruct r as [c v]. unfold_monad.
  by destruct (torch_ones k (Flat.dtype (self st))).
Qed.

(** The [try] statement: at most two constructor calls, the second being the
    first with [qmc=False]. *)
Lemma optimize_with_fallback_trace (L : Flat.GenLocals) (st : FState) :
  exists evs,
    trace (Flat.optimize_with_fallback C L st).2 = trace st ++ evs /\
    self (Flat.optimize_with_fallback C L st).2 = self st /\
    length (Flat.acqf_constructor_calls evs) <= 2 /\
    forall c1 c2, Flat.acqf_constructor_calls evs = [c1; c2] ->
      Flat.ac_kwargs c1 !! "qmc" = None /\ c2 = Flat.qmc_disabled c1.
Proof.
  unfold Flat.optimize_with_fallback, try_except.
  destruct (make_and_optimize_acqf_calls L false st) as (evs1 & Htr1 & Hs1 & Hc1).
  destruct (Flat.make_and_optimize_acqf C L false st) as [[r|e] st1]; simpl in *.
  { exists evs1. split; [done|]. split; [done|].
    destruct Hc1 as [->|(kw0 & _ & ->)]; simpl; split; try lia; intros; discriminate. }
  destruct (is_UnsupportedError e); cycle 1.
  { exists evs1. simpl. split; [done|]. split; [done|].
    destruct Hc1 as [->|(kw0 & _ & ->)]; simpl; split; try lia; intros; discriminate. }
  destruct (str_contains Flat.sobol_limit_message (exn_msg e)); cycle 1.
  { exists evs1. simpl. split; [done|]. split; [done|].
    destruct Hc1 as [->|(kw0 & _ & ->)]; simpl; split; try lia; intros; discriminate. }
  destruct (make_and_optimize_acqf_calls L true st1) as (evs2 & Htr2 & Hs2 & Hc2).
  exists (evs1 ++ evs2). rewrite Htr2, Htr1, Hs2, Hs1, app_assoc.
  split; [done|]. split; [done|].
  rewrite acqf_constructor_calls_app.
  destruct Hc1 as [->|(kw0 & Hk0 & ->)];
    destruct Hc2 as [->|(kw0' & Hk0' & Hq & ->)]; simpl;
    (split; [lia|]); intros c1 c2 Heq; try discriminate.
  injection Heq as <- <-. rewrite Hk0 in Hk0'. injection Hk0' as <-. done.
Qed.

Lemma gen_prologue_trace (a : GenArgs Scalar) (st : FState) :
  exists evs,
    trace (Flat.gen_prologue C a st).2 = trace st ++ evs /\
    self (Flat.gen_prologue C a st).2 = self st /\
    Flat.acqf_constructor_calls evs = [].
Proof.
  unfold Flat.gen_prologue.
  destruct (truthy_dict (target_fidelities (spec a)));
    [exists []; by rewrite app_nil_r|].
  unfold_monad.
  match goal with |- context [Flat._get_X_pending_and_observed C ?x ?e] =>
    destruct (Flat._get_X_pending_and_observed C x e) as [[[Xp Xo]|e1] e'] end;
    simpl; [|eexists; split; [reflexivity|done]].
  destruct (truthy _); simpl.
  - match goal with |- context [Flat.subset_model C ?x ?y ?z ?e] =>
      destruct (Flat.subset_model C x y z e) as [[r|e2] e''] end;
      simpl; [|eexists; split; [by rewrite <- app_assoc|done]].
    destruct (transpose01 _); simpl; eexists; (split; [by rewrite <- app_assoc|done]).
  - destruct (transpose01 _); simpl; eexists; (split; [reflexivity|done]).
Qed.

(** A successful attempt ends with the optimizer call that produced its
    result. *)
Lemma make_and_optimize_acqf_Ok (L : Flat.GenLocals) (b : bool) (st st' : FState)
    (r : Tensor Scalar * Tensor Scalar) :
  Flat.make_and_optimize_acqf C L b st = (Ok r, st') ->
  exists oargs e tr,
    trace st' = tr ++ [(Flat.CallAcqfOptimizer oargs, e)] /\
    Flat.acqf_optimizer C oargs e = (Ok r, env st') /\
    Flat.ao_n oargs = Flat.gl_n L /\
    self st' = self st.
Proof.
  unfold Flat.make_and_optimize_acqf. intros Hrun.
  apply bindM_Ok_inv in Hrun as (kw0 & s1 & H1 & Hrun).
  apply liftR_inv in H1 as [_ ->].
  apply bindM_Ok_inv in Hrun as (kw & s2 & H2 & Hrun).
  apply liftR_inv in H2 as [_ ->].
  apply bindM_Ok_inv in Hrun as (f & s3 & H3 & Hrun).
  apply call_inv in H3 as (e3 & Hc3 & ->).
  apply bindM_Ok_inv in Hrun as (f1 & s4 & H4 & Hrun).
  apply liftR_inv in H4 as [_ ->].
  apply bindM_Ok_inv in Hrun as (f2 & s5 & H5 & Hrun).
  apply liftR_inv in H5 as [_ ->].
  apply bindM_Ok_inv in Hrun as (ic & s6 & H6 & Hrun).
  apply liftR_inv in H6 as [_ ->].
  apply bindM_Ok_inv in Hrun as (okw & s7 & H7 & Hrun).
  apply liftR_inv in H7 as [_ ->].
  apply call_inv in Hrun as (e8 & Hc8 & ->). simpl in *.
  eexists _, _, _. split; [reflexivity|]. split; [exact Hc8|]. done.
Qed.

Lemma optimize_with_fallback_Ok (L : Flat.GenLocals) (st st' : FState)
    (r : Tensor Scalar * Tensor Scalar) :
  Flat.optimize_with_fallback C L st = (Ok r, st') ->
  exists oargs e tr,
    trace st' = tr ++ [(Flat.CallAcqfOptimizer oargs, e)] /\
    Flat.acqf_optimizer C oargs e = (Ok r, env st') /\
    Flat.ao_n oargs = Flat.gl_n L /\
    self st' = self st.
Proof.
  unfold Flat.optimize_with_fallback, try_except.
  destruct (Flat.make_and_optimize_acqf C L false st) as [[r1|e1] st1] eqn:H1.
  - intros [= <- <-]. by eapply make_and_optimize_acqf_Ok.
  - pose proof (make_and_optimize_acqf_calls L false st) as (evs & _ & Hs1 & _).
    rewrite H1 in Hs1. simpl in Hs1.
    destruct (is_UnsupportedError e1); [|discriminate].
    destruct (str_contains _ _); [|discriminate].
    intros H2. apply make_and_optimize_acqf_Ok in H2 as (oargs & e & tr & ? & ? & ? & Hs2).
    exists oargs, e, tr. rewrite Hs2, Hs1. done.
Qed.

Lemma gen_prologue_Ok (a : GenArgs Scalar) (st st' : FState) (L : Flat.GenLocals) :
  Flat.gen_prologue C a st = (Ok L, st') ->
  Flat.gl_n L = n a /\ self st' = self st.
Proof.
  intros Hrun.
  pose proof (gen_prologue_trace a st) as (evs & _ & Hs & _).
  rewrite Hrun in Hs. split; [|done].
  unfold Flat.gen_prologue in Hrun.
  destruct (truthy_dict _); [discriminate|].
  apply bindM_Ok_inv in Hrun as (s0 & s1 & _ & Hrun).
  apply bindM_Ok_inv in Hrun as ([Xp Xo] & s2 & _ & Hrun).
  apply bindM_Ok_inv in Hrun as (s3 & s4 & _ & Hrun).
  apply bindM_Ok_inv in Hrun as ([[m ow] oc] & s5 & _ & Hrun).
  apply bindM_Ok_inv in Hrun as (s6 & s7 & _ & Hrun).
  apply bindM_Ok_inv in Hrun as (bd & s8 & _ & Hrun).
  injection Hrun as <- _. done.
Qed.

Lemma gen_Ok_flat (a : GenArgs Scalar) (st : FState) (r : GenResult Scalar) :
  (Flat.gen C a st).1 = Ok r ->
  exists candidates expected_acquisition_value oargs e tr weights,
    trace (Flat.gen C a st).2 = tr ++ [(Flat.CallAcqfOptimizer oargs, e)] /\
    Flat.acqf_optimizer C oargs e =
      (Ok (candidates, expected_acquisition_value), env (Flat.gen C a st).2) /\
    Flat.ao_n oargs = n a /\
    (0 <= n a)%Z /\
    t_shape weights = [Z.to_nat (n a)] /\
    t_data weights = replicate (Z.to_nat (n a)) scalar_one /\
    r = (to_cpu (detach candidates), weights,
         {[ "expected_acquisition_value" := tolist expected_acquisition_value ]},
         None).
Proof.
  destruct (Flat.gen C a st) as [r0 st'] eqn:Hrun. simpl. intros ->.
  unfold Flat.gen in Hrun.
  apply bindM_Ok_inv in Hrun as (L & s1 & H1 & Hrun).
  apply gen_prologue_Ok in H1 as [Hn Hs1].
  apply bindM_Ok_inv in Hrun as ([cand eav] & s2 & H2 & Hrun).
  apply optimize_with_fallback_Ok in H2 as (oargs & e & tr & Htr & Hopt & Hk & Hs2).
  unfold Flat.gen_return in Hrun.
  apply bindM_Ok_inv in Hrun as (s & s3 & H3 & Hrun).
  injection H3 as <- <-.
  apply bindM_Ok_inv in Hrun as (w & s4 & H4 & Hrun).
  apply liftR_inv in H4 as [H4 ->].
  injection Hrun as <- <-.
  unfold torch_ones in H4. destruct (n a <? 0)%Z eqn:Hneg; [discriminate|].
  injection H4 as ->.
  exists cand, eav, oargs, e, tr.
  exists {| t_shape := [Z.to_nat (n a)];
            t_data := replicate (Z.to_nat (n a)) scalar_one;
            t_dtype := default default_dtype (Flat.dtype (self s2));
            t_device := cpu; t_requires_grad := false |}.
  split; [exact Htr|]. split; [exact Hopt|]. split; [congruence|].
  split; [lia|]. done.
Qed.


(** *** The state-dict policy of [update] and [cross_validate] *)


Lemma deepcopy_fresh_copy (l : loc) (e : Env Scalar Ext) :
  fresh_copy e l (deepcopy l e).2 (deepcopy l e).1.
Proof.
  unfold fresh_copy, deepcopy. simpl.
  split; [apply is_fresh|]. split; [apply lookup_insert_eq|].
  split; [|done]. intros k Hk. by apply lookup_insert_ne.
Qed.

Lemma copy_of_state_dict_run (m : Model) (st : FState) :
  match Flat.state_dict C m (env st) with
  | (Ok l0, e1) =>
      Flat.copy_of_state_dict C m st =
        (Ok (Some (deepcopy l0 e1).1),
         mkSt (self st) (deepcopy l0 e1).2
              (trace st ++ [(Flat.CallStateDict m, env st)]))
  | (Raise e, e1) =>
      Flat.copy_of_state_dict C m st =
        (Raise e, mkSt (self st) e1 (trace st ++ [(Flat.CallStateDict m, env st)]))
  end.
Proof.
  unfold Flat.copy_of_state_dict. unfold_monad.
  destruct (Flat.state_dict C m (env st)) as [[l0|e] e1]; [|done].
  simpl. by destruct (deepcopy l0 e1).
Qed.


(** C4.  The state dict that [update] hands to the model constructor, on a
    fitted flat facade.  [update] calls the constructor at most once.  With
    [refit_on_update] set and [warm_start_refitting] cleared the call carries
    [state_dict=None] and no snapshot is taken; in every other combination
    of the flags it carries a new dictionary object holding what the live
    model's [state_dict()] returned, everything else in the environment being
    as [state_dict()] left it.  The call is made as soon as the keyword
    arguments are accepted and, when a snapshot is needed, [state_dict()]
    returns. *)
Theorem update_state_dict_policy (Xs_ Ys_ Yvars_ : list (Tensor Scalar))
    (st : FState) (m : Model) :
  Flat.model (self st) = Some m ->
  exists evs,
    trace (Flat.update C Xs_ Ys_ Yvars_ st).2 = trace st ++ evs /\
    length (Flat.model_constructor_calls evs) <= 1 /\
    (forall args e, (args, e) ∈ Flat.model_constructor_calls evs ->
       if Flat.refit_on_update (self st) && negb (Flat.warm_start_refitting (self st))
       then Flat.mc_state_dict args = Some None /\ e = env st
       else exists l0 e1 l1,
              Flat.state_dict C m (env st) = (Ok l0, e1) /\
              Flat.mc_state_dict args = Some (Some l1) /\
              fresh_copy e1 l0 e l1) /\
    (is_ok (kw_splat Flat.refit_keywords (VDict (Flat._kwargs (self st)))) = true ->
     Flat.refit_on_update (self st) && negb (Flat.warm_start_refitting (self st)) = true
       \/ is_ok (Flat.state_dict C m (env st)).1 = true ->
     length (Flat.model_constructor_calls evs) = 1).
Proof.
  intros Hm. unfold Flat.update.
  unfold bindM at 1. unfold get_self at 1. rewrite Hm.
  unfold bindM at 1. unfold set_self at 1.
  unfold bindM at 1. unfold get_self at 1. cbn [self env trace Flat.with_observations
    Flat.refit_on_update Flat.warm_start_refitting].
  destruct (Flat.refit_on_update (self st) && negb (Flat.warm_start_refitting (self st)))
    eqn:Hcold.
  - unfold_monad. cbn [self env trace Flat.with_observations Flat._kwargs].
    destruct (kw_splat Flat.refit_keywords (VDict (Flat._kwargs (self st)))) as [kw|ek].
    + match goal with |- context [Flat.model_constructor C ?x ?e] =>
        destruct (Flat.model_constructor C x e) as [[m'|em] e'] end; simpl;
      (eexists; split; [reflexivity|]); simpl;
      (split; [lia|]); (split; [|done]);
      intros args e Hin; apply list_elem_of_singleton in Hin; injection Hin as -> ->; done.
    + simpl. exists []. rewrite app_nil_r. simpl. split; [done|]. split; [lia|].
      split; [|done]. intros args e Hin. by apply elem_of_nil in Hin.
  - unfold bindM at 1.
    match goal with |- context [Flat.copy_of_state_dict C m ?s] =>
      pose proof (copy_of_state_dict_run m s) as Hcopy end.
    cbn [self env trace] in Hcopy.
    destruct (Flat.state_dict C m (env st)) as [[l0|e0] e1] eqn:Hsd; rewrite Hcopy.
    + unfold_monad. cbn [self env trace Flat.with_observations Flat._kwargs].
      destruct (kw_splat Flat.refit_keywords (VDict (Flat._kwargs (self st)))) as [kw|ek].
      * match goal with |- context [Flat.model_constructor C ?x ?e] =>
          destruct (Flat.model_constructor C x e) as [[m'|em] e'] end; simpl;
        (eexists; split; [by rewrite <- app_assoc|]); simpl;
        (split; [lia|]); (split; [|done]);
        intros args e Hin; apply list_elem_of_singleton in Hin; injection Hin as -> ->;
        eexists _, _, _; (split; [reflexivity|]); (split; [reflexivity|]);
        apply deepcopy_fresh_copy.
      * simpl. eexists. split; [reflexivity|]. simpl. split; [lia|].
        split; [|done]. intros args e Hin. by apply elem_of_nil in Hin.
    + simpl. eexists. split; [reflexivity|]. simpl. split; [lia|].
      split; [intros args e Hin; by apply elem_of_nil in Hin|].
      intros _ [?|?]; done.
Qed.


(** C5.  [cross_validate] on a fitted flat facade.  No attribute of the facade
    is assigned: the live model and the stored [Xs], [Ys], [Yvars] are what
    they were.  The model constructor is called at most once, on the training
    subset, with [state_dict=None] when [refit_on_cv] is set and with a new
    copy of the live model's snapshot otherwise.  If the constructor returns a
    model, the predictor is called last, on that model and the held-out
    points, and its outcome is the outcome of [cross_validate]; if it raises,
    so does [cross_validate]. *)
Theorem cross_validate_throwaway (Xs_train Ys_train Yvars_train : list (Tensor Scalar))
    (X_test : Tensor Scalar) (st : FState) (m : Model) :
  Flat.model (self st) = Some m ->
  let run := Flat.cross_validate C Xs_train Ys_train Yvars_train X_test st in
  self run.2 = self st /\
  exists evs,
    trace run.2 = trace st ++ evs /\
    length (Flat.model_constructor_calls evs) <= 1 /\
    (forall args e, (args, e) ∈ Flat.model_constructor_calls evs ->
       Flat.mc_Xs args = Xs_train /\ Flat.mc_Ys args = Ys_train /\
       Flat.mc_Yvars args = Yvars_train /\
       (if Flat.refit_on_cv (self st)
        then Flat.mc_state_dict args = Some None /\ e = env st
        else exists l0 e1 l1,
               Flat.state_dict C m (env st) = (Ok l0, e1) /\
               Flat.mc_state_dict args = Some (Some l1) /\
               fresh_copy e1 l0 e l1) /\
       match Flat.model_constructor C args e with
       | (Ok m', e') =>
           last evs = Some (Flat.CallModelPredictor (Some m') X_test, e') /\
           run.1 = (Flat.model_predictor C (Some m') X_test e').1 /\
           env run.2 = (Flat.model_predictor C (Some m') X_test e').2
       | (Raise ex, e') => run.1 = Raise ex /\ env run.2 = e'
       end) /\
    (is_ok (kw_splat Flat.refit_keywords (VDict (Flat._kwargs (self st)))) = true ->
     Flat.refit_on_cv (self st) = true
       \/ is_ok (Flat.state_dict C m (env st)).1 = true ->
     length (Flat.model_constructor_calls evs) = 1).
Proof.
  intros Hm run. subst run.
  split; [apply cross_validate_keeps_self|].
  remember (Flat.cross_validate C Xs_train Ys_train Yvars_train X_test st) as run
    eqn:Hrun.
  unfold Flat.cross_validate in Hrun.
  unfold bindM at 1 in Hrun. unfold get_self at 1 in Hrun. rewrite Hm in Hrun.
  destruct (Flat.refit_on_cv (self st)) eqn:Hcv.
  - unfold_monad. cbn [self env trace] in Hrun.
    destruct (kw_splat Flat.refit_keywords (VDict (Flat._kwargs (self st)))) as [kw|ek].
    + match type of Hrun with context [Flat.model_constructor C ?x ?e] =>
        destruct (Flat.model_constructor C x e) as [[m'|em] e'] eqn:Hmc end;
        simpl in Hrun.
      * destruct (Flat.model_predictor C (Some m') X_test e') as [rp ep] eqn:Hp.
        subst run. simpl. eexists.
        split; [by rewrite <- app_assoc|]. simpl.
        split; [lia|]. split; [|done].
        intros args e Hin. apply list_elem_of_singleton in Hin.
        injection Hin as -> ->. simpl. rewrite Hmc, Hp. done.
      * subst run. simpl. eexists. split; [reflexivity|]. simpl.
        split; [lia|]. split; [|done].
        intros args e Hin. apply list_elem_of_singleton in Hin.
        injection Hin as -> ->. simpl. rewrite Hmc. done.
    + subst run. simpl. exists []. rewrite app_nil_r. simpl.
      split; [done|]. split; [lia|].
      split; [|done]. intros args e Hin. by apply elem_of_nil in Hin.
  - unfold bindM at 1 in Hrun.
    pose proof (copy_of_state_dict_run m st) as Hcopy.
    destruct (Flat.state_dict C m (env st)) as [[l0|e0] e1] eqn:Hsd;
      rewrite Hcopy in Hrun.
    + pose proof (deepcopy_fresh_copy l0 e1) as Hfresh.
      destruct (deepcopy l0 e1) as [l1 e2]. cbn [fst snd] in Hfresh, Hrun.
      unfold_monad. cbn [self env trace] in Hrun.
      destruct (kw_splat Flat.refit_keywords (VDict (Flat._kwargs (self st)))) as [kw|ek].
      * match type of Hrun with context [Flat.model_constructor C ?x ?e] =>
          destruct (Flat.model_constructor C x e) as [[m'|em] e'] eqn:Hmc end;
          simpl in Hrun.
        -- destruct (Flat.model_predictor C (Some m') X_test e') as [rp ep] eqn:Hp.
           subst run. simpl. eexists.
           split; [by rewrite <- !app_assoc|]. simpl.
           split; [lia|]. split; [|done].
           intros args e Hin. apply list_elem_of_singleton in Hin.
           injection Hin as -> ->. simpl. rewrite Hmc, Hp.
           repeat split; try done. by exists l0, e1, l1.
        -- subst run. simpl. eexists.
           split; [by rewrite <- !app_assoc|]. simpl.
           split; [lia|]. split; [|done].
           intros args e Hin. apply list_elem_of_singleton in Hin.
           injection Hin as -> ->. simpl. rewrite Hmc.
           repeat split; try done. by exists l0, e1, l1.
      * subst run. simpl. eexists. split; [reflexivity|]. simpl.
        split; [lia|].
        split; [|done]. intros args e Hin. by apply elem_of_nil in Hin.
    + subst run. simpl. eexists. split; [reflexivity|]. simpl.
      split; [lia|].
      split; [intros args e Hin; by apply elem_of_nil in Hin|].
      intros _ [?|?]; done.
Qed.


(** *** Subsetting in [gen] *)

Abbreviation not_subset_call :=
  (fun ev : Flat.Event Scalar Model AcquisitionFunction * Env Scalar Ext =>
     Flat.is_subset_model_call ev.1 = false).

Lemma make_and_optimize_acqf_events (L : Flat.GenLocals) (b : bool) (st : FState) :
  exists evs,
    trace (Flat.make_and_optimize_acqf C L b st).2 = trace st ++ evs /\
    Forall not_subset_call evs /\
    forall c, c ∈ Flat.acqf_constructor_calls evs ->
      Flat.ac_model c = Flat.gl_model L /\
      Flat.ac_objective_weights c = Flat.gl_objective_weights L /\
      Flat.ac_outcome_constraints c = Flat.gl_outcome_constraints L.
Proof.
  unfold Flat.make_and_optimize_acqf. unfold_monad.
  destruct (kw_splat Flat.acqf_keywords (Flat.gl_acf_options L)) as [kw0|e0];
    [|exists []; rewrite app_nil_r; split;
      [done|split; [apply Forall_nil_2|by intros c ?%elem_of_nil]]].
  destruct (kw_splat_more Flat.acqf_keywords kw0 (Flat.add_kwargs b)) as [kw|e1];
    [|exists []; rewrite app_nil_r; split;
      [done|split; [apply Forall_nil_2|by intros c ?%elem_of_nil]]].
  assert (Hone : forall c, c ∈ [Flat.acqf_args L kw] ->
      Flat.ac_model c = Flat.gl_model L /\
      Flat.ac_objective_weights c = Flat.gl_objective_weights L /\
      Flat.ac_outcome_constraints c = Flat.gl_outcome_constraints L).
  { intros c ->%list_elem_of_singleton. done. }
  destruct (Flat.acqf_constructor C (Flat.acqf_args L kw) (env st)) as [[f|e2] e'];
    simpl; [|eexists; split; [reflexivity|split; [by repeat constructor|done]]].
  destruct (Flat.checked_cast_AcquisitionFunction C f) as [f1|e3];
    simpl; [|eexists; split; [reflexivity|split; [by repeat constructor|done]]].
  destruct (Flat.checked_cast_AcquisitionFunction C f1) as [f2|e4];
    simpl; [|eexists; split; [reflexivity|split; [by repeat constructor|done]]].
  destruct (Flat._to_inequality_constraints C (Flat.gl_linear_constraints L))
    as [ic|e5]; simpl; [|eexists; split; [reflexivity|split; [by repeat constructor|done]]].
  destruct (kw_splat Flat.optimizer_keywords (Flat.gl_optimizer_options L))
    as [okw|e6]; simpl;
    [|eexists; split; [reflexivity|split; [by repeat constructor|done]]].
  match goal with |- context [Flat.acqf_optimizer C ?a ?e] =>
    destruct (Flat.acqf_optimizer C a e) as [r e''] end.
  simpl. eexists. split; [by rewrite <- app_assoc|].
  split; [by repeat constructor|done].
Qed.

Lemma optimize_with_fallback_events (L : Flat.GenLocals) (st : FState) :
  exists evs,
    trace (Flat.optimize_with_fallback C L st).2 = trace st ++ evs /\
    Forall not_subset_call evs /\
    forall c, c ∈ Flat.acqf_constructor_calls evs ->
      Flat.ac_model c = Flat.gl_model L /\
      Flat.ac_objective_weights c = Flat.gl_objective_weights L /\
      Flat.ac_outcome_constraints c = Flat.gl_outcome_constraints L.
Proof.
  unfold Flat.optimize_with_fallback, try_except.
  destruct (make_and_optimize_acqf_events L false st) as (evs1 & Htr1 & Hn1 & Hc1).
  destruct (Flat.make_and_optimize_acqf C L false st) as [[r|e] st1]; simpl in *;
    [by exists evs1|].
  destruct (is_UnsupportedError e); [|by exists evs1].
  destruct (str_contains Flat.sobol_limit_message (exn_msg e)); [|by exists evs1].
  destruct (make_and_optimize_acqf_events L true st1) as (evs2 & Htr2 & Hn2 & Hc2).
  exists (evs1 ++ evs2). rewrite Htr2, Htr1, app_assoc.
  split; [done|]. split; [by apply Forall_app|].
  intros c. rewrite acqf_constructor_calls_app, elem_of_app. intros [?|?]; auto.
Qed.

Lemma gen_prologue_subset (a : GenArgs Scalar) (st : FState) :
  let subset :=
    truthy (dict_get (or_empty (model_gen_options (spec a)))
                     (SUBSET_MODEL (Flat.Keys C)) (VBool true)) in
  exists evs,
    trace (Flat.gen_prologue C a st).2 = trace st ++ evs /\
    self (Flat.gen_prologue C a st).2 = self st /\
    Flat.acqf_constructor_calls evs = [] /\
    (subset = false -> Forall not_subset_call evs) /\
    forall L, (Flat.gen_prologue C a st).1 = Ok L ->
      if subset then
        exists e r e',
          (Flat.CallSubsetModel (Flat.model (self st)) (objective_weights (spec a))
                                (outcome_constraints (spec a)), e) ∈ evs /\
          Flat.subset_model C (Flat.model (self st)) (objective_weights (spec a))
                            (outcome_constraints (spec a)) e = (Ok r, e') /\
          Flat.gl_model L = Some (Flat.sm_model r) /\
          Flat.gl_objective_weights L = Flat.sm_objective_weights r /\
          Flat.gl_outcome_constraints L = Flat.sm_outcome_constraints r
      else
        Flat.gl_model L = Flat.model (self st) /\
        Flat.gl_objective_weights L = objective_weights (spec a) /\
        Flat.gl_outcome_constraints L = outcome_constraints (spec a).
Proof.
  cbv zeta. unfold Flat.gen_prologue.
  destruct (truthy_dict (target_fidelities (spec a))).
  { exists []. rewrite app_nil_r. do 3 (split; [done|]).
    split; [intros _; apply Forall_nil_2|discriminate]. }
  unfold_monad.
  match goal with |- context [Flat._get_X_pending_and_observed C ?x ?e] =>
    destruct (Flat._get_X_pending_and_observed C x e) as [[[Xp Xo]|e1] e'] end;
    simpl.
  2:{ eexists. split; [reflexivity|]. do 2 (split; [done|]).
      split; [intros _; by repeat constructor|discriminate]. }
  destruct (truthy _); simpl.
  - match goal with |- context [Flat.subset_model C ?x ?y ?z ?e] =>
      destruct (Flat.subset_model C x y z e) as [[r|e2] e''] eqn:Hsub end; simpl.
    2:{ eexists. split; [by rewrite <- app_assoc|]. do 3 (split; [done|]).
        discriminate. }
    destruct (transpose01 _); simpl;
      (eexists; split; [by rewrite <- app_assoc|]; do 3 (split; [done|]));
      [|discriminate].
    intros L [= <-]. simpl. exists e', r, e''. split; [|done].
    apply list_elem_of_further, list_elem_of_here.
  - destruct (transpose01 _); simpl;
      (eexists; split; [reflexivity|]; do 2 (split; [done|]);
       split; [intros _; by repeat constructor|]);
      [|discriminate].
    intros L [= <-]. done.
Qed.

(** [gen] ends in the state its last phase ends in, up to the environment. *)
Lemma gen_final_state (a : GenArgs Scalar) (st : FState) :
  match Flat.gen_prologue C a st with
  | (Raise e, st0) => (Flat.gen C a st).2 = st0
  | (Ok L, st0) =>
      self (Flat.gen C a st).2 = self (Flat.optimize_with_fallback C L st0).2 /\
      trace (Flat.gen C a st).2 = trace (Flat.optimize_with_fallback C L st0).2
  end.
Proof.
  unfold Flat.gen, bindM.
  destruct (Flat.gen_prologue C a st) as [[L|e] st0]; [|done].
  destruct (Flat.optimize_with_fallback C L st0) as [[r|e] st1]; [|done].
  simpl. by destruct (gen_return_trace (n a) r st1) as (-> & -> & _).
Qed.

(** *** The [target_fidelities] guard *)

Lemma truthy_dict_Some {K V} `{Countable K} (m : gmap K V) :
  truthy_dict (Some m) = negb (bool_decide (m = ∅)).
Proof.
  unfold truthy_dict. f_equal. apply bool_decide_ext. apply dom_empty_iff_L.
Qed.

Lemma gen_guard_raises (a : GenArgs Scalar) (st : FState) (tf : gmap Z Scalar) :
  target_fidelities (spec a) = Some tf ->
  tf <> ∅ ->
  Flat.gen C a st = (Raise Flat.target_fidelities_not_implemented, st).
Proof.
  intros Htf Hne. unfold Flat.gen, bindM, Flat.gen_prologue.
  rewrite Htf, truthy_dict_Some, bool_decide_eq_false_2 by done. done.
Qed.

(** C7 (as amended).  [gen] on the flat facade with a non-empty
    [target_fidelities] raises [NotImplementedError] at once: no collaborator
    has been called, and facade, environment and trace are as before. *)
Theorem gen_rejects_target_fidelities (a : GenArgs Scalar) (st : FState)
    (tf : gmap Z Scalar) :
  target_fidelities (spec a) = Some tf ->
  tf <> ∅ ->
  exists msg,
    (Flat.gen C a st).1 = Raise (mkExn NotImplementedError msg) /\
    trace (Flat.gen C a st).2 = trace st /\
    self (Flat.gen C a st).2 = self st /\
    env (Flat.gen C a st).2 = env st.
Proof.
  intros Htf Hne. rewrite (gen_guard_raises a st tf Htf Hne).
  by eexists.
Qed.



End FlatFacts.

(** ** The protocol of [gen] on the flat facade *)

Section FlatProtocol.
Context {Scalar : Type} `{ScalarOps Scalar} {Model AcquisitionFunction Ext : Type}.
Variable C : Flat.Collaborators Scalar Model AcquisitionFunction Ext.

Abbreviation FState :=
  (St (Scalar:=Scalar) (Ext:=Ext) (Flat.BotorchModel Scalar Model)
      (Flat.Event Scalar Model AcquisitionFunction)).
Abbreviation PyVal := (PyVal Scalar).







(** An attempt that returns has called the constructor. *)
Lemma make_and_optimize_acqf_Ok_calls (L : Flat.GenLocals) (b : bool) (st : FState) :
  exists evs,
    trace (Flat.make_and_optimize_acqf C L b st).2 = trace st ++ evs /\
    (is_ok (Flat.make_and_optimize_acqf C L b st).1 = true ->
     Flat.acqf_constructor_calls evs <> []) /\
    (b = false ->
     is_ok (kw_splat Flat.acqf_keywords (Flat.gl_acf_options L)) = true ->
     Flat.acqf_constructor_calls evs <> []).
Proof.
  destruct (make_and_optimize_acqf_trace C L b st) as (evs & Htr & _ & Hc).
  exists evs. split; [done|].
  destruct (kw_splat Flat.acqf_keywords (Flat.gl_acf_options L)) as [kw0|e0].
  - split.
    + destruct (kw_splat_more Flat.acqf_keywords kw0 (Flat.add_kwargs b)) as [kw|e1].
      * by rewrite Hc.
      * destruct Hc as [_ ->]. discriminate.
    + intros -> _. rewrite kw_splat_more_no_override in Hc. by rewrite Hc.
  - destruct Hc as [_ ->]. split; [discriminate|]. intros _. discriminate.
Qed.

Lemma optimize_with_fallback_calls (L : Flat.GenLocals) (st : FState) :
  exists evs,
    trace (Flat.optimize_with_fallback C L st).2 = trace st ++ evs /\
    (is_ok (Flat.optimize_with_fallback C L st).1 = true ->
     Flat.acqf_constructor_calls evs <> []) /\
    (is_ok (kw_splat Flat.acqf_keywords (Flat.gl_acf_options L)) = true ->
     Flat.acqf_constructor_calls evs <> []).
Proof.
  unfold Flat.optimize_with_fallback, try_except.
  destruct (make_and_optimize_acqf_Ok_calls L false st) as (evs1 & Htr1 & Hok1 & Hkw1).
  destruct (Flat.make_and_optimize_acqf C L false st) as [[r|e] st1]; simpl in *.
  { exists evs1. split; [done|]. split; [done|]. by apply Hkw1. }
  destruct (is_UnsupportedError e).
  2:{ exists evs1. split; [done|]. split; [discriminate|]. by apply Hkw1. }
  destruct (str_contains Flat.sobol_limit_message (exn_msg e)).
  2:{ exists evs1. split; [done|]. split; [discriminate|]. by apply Hkw1. }
  destruct (make_and_optimize_acqf_Ok_calls L true st1) as (evs2 & Htr2 & Hok2 & _).
  exists (evs1 ++ evs2). rewrite Htr2, Htr1, app_assoc. split; [done|].
  rewrite acqf_constructor_calls_app. split.
  - intros Hok Happ. apply app_eq_nil in Happ as [_ Happ]. by apply Hok2.
  - intros Hkw Happ. apply app_eq_nil in Happ as [Happ _]. by apply Hkw1.
Qed.

(** The keyword arguments the prologue reads for the constructor. *)
Lemma gen_prologue_acf_options (a : GenArgs Scalar) (st st' : FState)
    (L : Flat.GenLocals) :
  Flat.gen_prologue C a st = (Ok L, st') ->
  Flat.gl_acf_options L =
    dict_get (or_empty (model_gen_options (spec a))) (ACQF_KWARGS (Flat.Keys C))
             (VDict ∅).
Proof.
  intros Hrun. unfold Flat.gen_prologue in Hrun.
  destruct (truthy_dict _); [discriminate|].
  apply bindM_Ok_inv in Hrun as (s0 & s1 & _ & Hrun).
  apply bindM_Ok_inv in Hrun as ([Xp Xo] & s2 & _ & Hrun).
  apply bindM_Ok_inv in Hrun as (s3 & s4 & _ & Hrun).
  apply bindM_Ok_inv in Hrun as ([[m ow] oc] & s5 & _ & Hrun).
  apply bindM_Ok_inv in Hrun as (s6 & s7 & _ & Hrun).
  apply bindM_Ok_inv in Hrun as (bd & s8 & _ & Hrun).
  by injection Hrun as <- _.
Qed.

(** C9.  Subsetting in [gen] of the flat facade.  [gen] assigns no attribute
    of the facade.  It calls the acquisition constructor whenever its prologue
    (options, guard, pending and observed points, subsetting, bounds) returns
    and the keyword arguments of the configuration are accepted, and so
    whenever [gen] returns.  When the configuration has no [subset_model]
    entry, or the entry is [True], a prologue that returns has called
    [subset_model] on the stored model and the caller's weights and
    constraints, and every call of the acquisition constructor receives the
    model, objective weights and outcome constraints that this call returned.
    When the entry is [False], [subset_model] is not called and the
    constructor receives the stored model and the caller's weights and
    constraints. *)
Theorem gen_subset_model (a : GenArgs Scalar) (st : FState) :
  let options := or_empty (model_gen_options (spec a)) in
  let key := SUBSET_MODEL (Flat.Keys C) in
  let subset_call :=
    Flat.CallSubsetModel (Flat.model (self st)) (objective_weights (spec a))
                         (outcome_constraints (spec a)) in
  self (Flat.gen C a st).2 = self st /\
  exists evs,
    trace (Flat.gen C a st).2 = trace st ++ evs /\
    (is_ok (Flat.gen_prologue C a st).1 = true ->
     is_ok (kw_splat Flat.acqf_keywords
              (dict_get options (ACQF_KWARGS (Flat.Keys C)) (VDict ∅))) = true ->
     Flat.acqf_constructor_calls evs <> []) /\
    (is_ok (Flat.gen C a st).1 = true -> Flat.acqf_constructor_calls evs <> []) /\
    (options !! key = None \/ options !! key = Some (VBool true) ->
     (is_ok (Flat.gen_prologue C a st).1 = true ->
      exists e r e',
        (subset_call, e) ∈ evs /\
        Flat.subset_model C (Flat.model (self st)) (objective_weights (spec a))
                          (outcome_constraints (spec a)) e = (Ok r, e')) /\
     forall c, c ∈ Flat.acqf_constructor_calls evs ->
       exists e r e',
         (subset_call, e) ∈ evs /\
         Flat.subset_model C (Flat.model (self st)) (objective_weights (spec a))
                           (outcome_constraints (spec a)) e = (Ok r, e') /\
         Flat.ac_model c = Some (Flat.sm_model r) /\
         Flat.ac_objective_weights c = Flat.sm_objective_weights r /\
         Flat.ac_outcome_constraints c = Flat.sm_outcome_constraints r) /\
    (options !! key = Some (VBool false) ->
     Forall (fun ev => Flat.is_subset_model_call ev.1 = false) evs /\
     forall c, c ∈ Flat.acqf_constructor_calls evs ->
       Flat.ac_model c = Flat.model (self st) /\
       Flat.ac_objective_weights c = objective_weights (spec a) /\
       Flat.ac_outcome_constraints c = outcome_constraints (spec a)).
Proof.
  cbv zeta. split; [apply gen_keeps_self|].
  assert (Hgen : is_ok (Flat.gen C a st).1 = true ->
                 exists L st0, Flat.gen_prologue C a st = (Ok L, st0) /\
                   is_ok (Flat.optimize_with_fallback C L st0).1 = true).
  { unfold Flat.gen, bindM.
    destruct (Flat.gen_prologue C a st) as [[L|e] st0];
      [|intros Hok; simpl in Hok; discriminate].
    destruct (Flat.optimize_with_fallback C L st0) as [[r|e] st1] eqn:Hrun;
      [|intros Hok; simpl in Hok; discriminate].
    intros _. exists L, st0. by rewrite Hrun. }
  destruct (gen_prologue_subset C a st) as (evs0 & Htr0 & Hs0 & Hc0 & Hns0 & HL).
  cbv zeta in Hns0, HL.
  pose proof (gen_final_state C a st) as Hfin.
  pose proof (gen_prologue_acf_options a st) as Hacf.
  destruct (Flat.gen_prologue C a st) as [[L|e] st0]; simpl in *.
  2:{ rewrite Hfin. exists evs0. split; [done|]. rewrite Hc0.
      split; [discriminate|]. split.
      { intros (L & st0' & Hpro & _)%Hgen. discriminate. }
      split.
      - intros _. split; [discriminate|]. intros c ?%elem_of_nil; done.
      - intros Hk. split; [|intros c ?%elem_of_nil; done].
        apply Hns0. unfold dict_get. by rewrite Hk. }
  specialize (HL L eq_refl). specialize (Hacf st0 L eq_refl).
  destruct (optimize_with_fallback_events C L st0) as (evs1 & Htr1 & Hns1 & Hc1).
  destruct (optimize_with_fallback_calls L st0) as (evs1' & Htr1' & Hok1 & Hkw1).
  rewrite Htr1 in Htr1'. apply app_inv_head in Htr1' as <-.
  destruct Hfin as [_ ->]. rewrite Htr1, Htr0, <- app_assoc.
  exists (evs0 ++ evs1). split; [done|].
  rewrite acqf_constructor_calls_app, Hc0. simpl.
  split; [intros _ Hkw; apply Hkw1; by rewrite Hacf|].
  split.
  { intros (L' & st0' & Hpro & Hok)%Hgen. injection Hpro as <- <-. by apply Hok1. }
  split.
  - intros Hk.
    assert (Ht : truthy (dict_get (or_empty (model_gen_options (spec a)))
              (SUBSET_MODEL (Flat.Keys C)) (VBool true)) = true).
    { unfold dict_get. by destruct Hk as [-> | ->]. }
    rewrite Ht in HL. destruct HL as (e & r & e' & Hin' & Hsub & Lm & Lw & Lc).
    split.
    + intros _. exists e, r, e'. split; [apply elem_of_app; by left|done].
    + intros c Hin. destruct (Hc1 c Hin) as (Em & Ew & Ec).
      exists e, r, e'. split; [apply elem_of_app; by left|].
      split; [done|]. split; [congruence|]. split; congruence.
  - intros Hk.
    assert (Ht : truthy (dict_get (or_empty (model_gen_options (spec a)))
              (SUBSET_MODEL (Flat.Keys C)) (VBool true)) = false).
    { unfold dict_get. by rewrite Hk. }
    rewrite Ht in HL. destruct HL as (Lm & Lw & Lc).
    split; [apply Forall_app; auto|]. intros c Hin.
    destruct (Hc1 c Hin) as (Em & Ew & Ec).
    split; [congruence|]. split; congruence.
Qed.

End FlatProtocol.

(** ** The modular facade *)

Section ModularFacts.
Context {Scalar : Type} `{ScalarOps Scalar}.
Context {Surrogate Acquisition AcquisitionClass BotorchAcqfClass Ext : Type}.
Variable C :
  Modular.Collaborators Scalar Surrogate Acquisition AcquisitionClass
    BotorchAcqfClass Ext.

Abbreviation MState :=
  (St (Scalar:=Scalar) (Ext:=Ext)
      (Modular.BoTorchModel Scalar Surrogate AcquisitionClass BotorchAcqfClass)
      (Modular.Event Scalar Surrogate Acquisition AcquisitionClass BotorchAcqfClass)).

Lemma surrogate_inv (st st' : MState) (r : Res Surrogate) :
  Modular.surrogate (Acquisition:=Acquisition) st = (r, st') ->
  st' = st /\
  r = match Modular._surrogate (self st) with
      | Some sg => Ok sg
      | None => Raise Modular.surrogate_not_set
      end.
Proof.
  unfold Modular.surrogate, bindM, get_self.
  destruct (Modular._surrogate (self st)); intros [= <- <-]; done.
Qed.

Lemma predict_without_surrogate (X : Tensor Scalar) (st : MState) :
  Modular._surrogate (self st) = None ->
  Modular.predict C X st = (Raise Modular.surrogate_not_set, st).
Proof.
  intros Hs. unfold Modular.predict, Modular.surrogate, bindM, get_self.
  by rewrite Hs.
Qed.

Lemma instantiate_acquisition_Ok (sp : ObjectiveSpec Scalar)
    (pending : option (list (Tensor Scalar))) (o : PyVal Scalar)
    (st st' : MState) (acqf : Acquisition) :
  Modular._instantiate_acquisition C sp pending o st = (Ok acqf, st') ->
  exists sg, Modular._surrogate (self st) = Some sg /\
             Modular._surrogate (self st') = Some sg.
Proof.
  unfold Modular._instantiate_acquisition. intros Hrun.
  apply bindM_Ok_inv in Hrun as (s0 & st0 & H0 & Hrun).
  injection H0 as <- <-.
  apply bindM_Ok_inv in Hrun as ([] & st1 & H1 & Hrun).
  assert (Hs1 : Modular._surrogate (self st1) = Modular._surrogate (self st)).
  { destruct (Modular._botorch_acqf_class (self st)).
    - by injection H1 as <-.
    - apply bindM_Ok_inv in H1 as (c & st2 & H2 & H1).
      apply call_inv in H2 as (e2 & _ & ->). by injection H1 as <-. }
  apply bindM_Ok_inv in Hrun as (s1 & st1' & H1' & Hrun).
  injection H1' as <- <-.
  apply bindM_Ok_inv in Hrun as (sg & st2 & H2 & Hrun).
  apply surrogate_inv in H2 as [-> H2].
  apply bindM_Ok_inv in Hrun as (cls & st3 & H3 & Hrun).
  unfold Modular.botorch_acqf_class, bindM, get_self in H3.
  destruct (Modular._botorch_acqf_class (self st1)); [|discriminate].
  injection H3 as <- <-.
  apply call_inv in Hrun as (e4 & _ & ->). simpl.
  exists sg. rewrite <- Hs1.
  destruct (Modular._surrogate (self st1)); [|discriminate].
  by injection H2 as <-.
Qed.

Lemma gen_without_surrogate (a : GenArgs Scalar) (st : MState) :
  Modular._surrogate (self st) = None ->
  is_ok (Modular.gen C a st).1 = false.
Proof.
  intros Hs. destruct (Modular.gen C a st) as [[r|e] st'] eqn:Hrun; [|done].
  exfalso. unfold Modular.gen in Hrun.
  apply bindM_Ok_inv in Hrun as (s0 & st0 & H0 & Hrun).
  injection H0 as <- <-.
  apply bindM_Ok_inv in Hrun as ([ao oo] & st1 & H1 & Hrun).
  apply call_inv in H1 as (e1 & _ & ->).
  apply bindM_Ok_inv in Hrun as (acqf & st2 & H2 & Hrun).
  apply instantiate_acquisition_Ok in H2 as (sg & Hsg & _).
  simpl in Hsg. congruence.
Qed.

Lemma gen_Ok_modular (a : GenArgs Scalar) (st : MState) (r : GenResult Scalar) :
  (Modular.gen C a st).1 = Ok r ->
  exists candidates expected_acquisition_value acqf oargs e e' tr tr' weights,
    trace (Modular.gen C a st).2 =
      tr ++ (Modular.CallAcquisitionOptimize acqf oargs, e) :: tr' /\
    Modular.acquisition_optimize C acqf oargs e =
      (Ok (candidates, expected_acquisition_value), e') /\
    Modular.az_n oargs = n a /\
    (0 <= n a)%Z /\
    t_shape weights = [Z.to_nat (n a)] /\
    t_data weights = replicate (Z.to_nat (n a)) scalar_one /\
    r = (to_cpu (detach candidates), weights,
         {[ EXPECTED_ACQF_VAL (Modular.Keys C) :=
              tolist expected_acquisition_value ]},
         None).
Proof.
  destruct (Modular.gen C a st) as [r0 st'] eqn:Hrun. simpl. intros ->.
  unfold Modular.gen in Hrun.
  apply bindM_Ok_inv in Hrun as (s0 & st0 & H0 & Hrun).
  injection H0 as <- <-.
  apply bindM_Ok_inv in Hrun as ([ao oo] & st1 & H1 & Hrun).
  apply bindM_Ok_inv in Hrun as (acqf & st2 & H2 & Hrun).
  apply bindM_Ok_inv in Hrun as (bd & st3 & H3 & Hrun).
  apply bindM_Ok_inv in Hrun as (ic & st4 & H4 & Hrun).
  apply liftR_inv in H4 as [_ ->].
  apply bindM_Ok_inv in Hrun as (opts & st5 & H5 & Hrun).
  apply liftR_inv in H5 as [_ ->].
  apply bindM_Ok_inv in Hrun as ([cand eav] & st6 & H6 & Hrun).
  apply call_inv in H6 as (e6 & Hopt & ->).
  apply bindM_Ok_inv in Hrun as (sg & st7 & H7 & Hrun).
  apply surrogate_inv in H7 as [-> _].
  apply bindM_Ok_inv in Hrun as (dt & st8 & H8 & Hrun).
  apply call_inv in H8 as (e8 & _ & ->).
  apply bindM_Ok_inv in Hrun as (w & st9 & H9 & Hrun).
  apply liftR_inv in H9 as [H9 ->].
  injection Hrun as <- <-.
  unfold torch_ones in H9. destruct (n a <? 0)%Z eqn:Hneg; [discriminate|].
  injection H9 as ->. simpl.
  eexists cand, eav, acqf, _, _, e6, _, _.
  exists {| t_shape := [Z.to_nat (n a)];
            t_data := replicate (Z.to_nat (n a)) scalar_one;
            t_dtype := default default_dtype (Some dt);
            t_device := cpu; t_requires_grad := false |}.
  split; [by rewrite <- app_assoc|]. split; [exact Hopt|].
  split; [done|]. split; [lia|]. done.
Qed.

End ModularFacts.

(** ** Both facades *)

Section NumericFacts.
Context {Scalar : Type}.

Lemma is_numeric_nest (s : list nat) (data : list Scalar) :
  is_numeric (nest s data) = true.
Proof.
  revert data. induction s as [|k s IH]; intros data; simpl.
  - by destruct data.
  - apply forallb_forall. intros v Hv. apply in_map_iff in Hv as (i & <- & _).
    apply IH.
Qed.

Lemma is_numeric_tolist (t : Tensor Scalar) : is_numeric (tolist t) = true.
Proof. apply is_numeric_nest. Qed.

End NumericFacts.

Section BothFacades.
Context {Scalar : Type} `{ScalarOps Scalar}.
Context {Model AcquisitionFunction Ext : Type}.
Context {Surrogate Acquisition AcquisitionClass BotorchAcqfClass : Type}.
Variable C : Flat.Collaborators Scalar Model AcquisitionFunction Ext.
Variable CM :
  Modular.Collaborators Scalar Surrogate Acquisition AcquisitionClass
    BotorchAcqfClass Ext.

Abbreviation FState :=
  (St (Scalar:=Scalar) (Ext:=Ext) (Flat.BotorchModel Scalar Model)
      (Flat.Event Scalar Model AcquisitionFunction)).
Abbreviation MState :=
  (St (Scalar:=Scalar) (Ext:=Ext)
      (Modular.BoTorchModel Scalar Surrogate AcquisitionClass BotorchAcqfClass)
      (Modular.Event Scalar Surrogate Acquisition AcquisitionClass BotorchAcqfClass)).

(** C3.  What a successful [gen] returns, on both facades: the candidates
    that the optimizer returned, detached and moved to the host; a weight
    vector of [n] ones; a metadata dictionary whose one entry is the expected
    acquisition value as numbers ([tolist]); and [None] for the candidate
    metadata.  The optimizer call in question was made with the caller's
    [n]. *)
Theorem gen_result (a : GenArgs Scalar) (st : FState) (stm : MState)
    (r rm : GenResult Scalar) :
  ((Flat.gen C a st).1 = Ok r ->
   exists candidates expected_acquisition_value oargs e tr weights,
     trace (Flat.gen C a st).2 = tr ++ [(Flat.CallAcqfOptimizer oargs, e)] /\
     Flat.acqf_optimizer C oargs e =
       (Ok (candidates, expected_acquisition_value), env (Flat.gen C a st).2) /\
     Flat.ao_n oargs = n a /\
     (0 <= n a)%Z /\
     t_shape weights = [Z.to_nat (n a)] /\
     t_data weights = replicate (Z.to_nat (n a)) scalar_one /\
     is_numeric (tolist expected_acquisition_value) = true /\
     r = (to_cpu (detach candidates), weights,
          {[ "expected_acquisition_value" := tolist expected_acquisition_value ]},
          None)) /\
  ((Modular.gen CM a stm).1 = Ok rm ->
   exists candidates expected_acquisition_value acqf oargs e e' tr tr' weights,
     trace (Modular.gen CM a stm).2 =
       tr ++ (Modular.CallAcquisitionOptimize acqf oargs, e) :: tr' /\
     Modular.acquisition_optimize CM acqf oargs e =
       (Ok (candidates, expected_acquisition_value), e') /\
     Modular.az_n oargs = n a /\
     (0 <= n a)%Z /\
     t_shape weights = [Z.to_nat (n a)] /\
     t_data weights = replicate (Z.to_nat (n a)) scalar_one /\
     is_numeric (tolist expected_acquisition_value) = true /\
     rm = (to_cpu (detach candidates), weights,
           {[ EXPECTED_ACQF_VAL (Modular.Keys CM) :=
                tolist expected_acquisition_value ]},
           None)).
Proof.
  split.
  - intros Hok.
    destruct (gen_Ok_flat C a st r Hok)
      as (cand & eav & oargs & e & tr & w & ? & ? & ? & ? & ? & ? & ?).
    exists cand, eav, oargs, e, tr, w.
    repeat (split; [done|]). split; [apply is_numeric_tolist|done].
  - intros Hok.
    destruct (gen_Ok_modular CM a stm rm Hok)
      as (cand & eav & acqf & oargs & e & e' & tr & tr' & w & ? & ? & ? & ? & ? & ? & ?).
    exists cand, eav, acqf, oargs, e, e', tr, tr', w.
    repeat (split; [done|]). split; [apply is_numeric_tolist|done].
Qed.

(** C2 (as amended).  On a flat facade straight out of [__init__], [update]
    and [cross_validate] raise the [RuntimeError] that says the model has not
    been fitted, before any collaborator is called and without touching the
    facade; [predict] has no such check: it calls the model predictor with
    [model=None] and returns or raises whatever the predictor does.  On a
    modular facade built without a surrogate, [predict] raises the
    [ValueError] of the [surrogate] property and [gen] never returns a
    result. *)
Theorem unfitted_operations
    (refit_on_cv refit_on_update warm_start_refitting
     use_input_warping use_loocv_pseudo_likelihood : bool)
    (kwargs : gmap string (PyVal Scalar))
    (e : Env Scalar Ext)
    (tr : list (Flat.Event Scalar Model AcquisitionFunction * Env Scalar Ext))
    (acquisition_class : option AcquisitionClass)
    (acquisition_options surrogate_fit_options : option (gmap string (PyVal Scalar)))
    (botorch_acqf_class : option BotorchAcqfClass)
    (em : Env Scalar Ext)
    (trm : list (Modular.Event Scalar Surrogate Acquisition AcquisitionClass
                   BotorchAcqfClass * Env Scalar Ext))
    (Xs_ Ys_ Yvars_ : list (Tensor Scalar)) (X : Tensor Scalar)
    (a : GenArgs Scalar) :
  let st : FState :=
    mkSt (Flat.BotorchModel_init refit_on_cv refit_on_update warm_start_refitting
            use_input_warping use_loocv_pseudo_likelihood kwargs) e tr in
  let stm : MState :=
    mkSt (Modular.BoTorchModel_init CM acquisition_class acquisition_options
            botorch_acqf_class None surrogate_fit_options) em trm in
  Flat.update C Xs_ Ys_ Yvars_ st = (Raise Flat.not_fitted_update, st) /\
  Flat.cross_validate C Xs_ Ys_ Yvars_ X st =
    (Raise Flat.not_fitted_cross_validate, st) /\
  Flat.predict C X st =
    (let '(r, e') := Flat.model_predictor C None X e in
     (r, mkSt (self st) e' (tr ++ [(Flat.CallModelPredictor None X, e)]))) /\
  Modular.predict CM X stm = (Raise Modular.surrogate_not_set, stm) /\
  is_ok (Modular.gen CM a stm).1 = false.
Proof.
  cbv zeta. split; [done|]. split; [done|]. split; [done|].
  split; [by apply predict_without_surrogate|by apply gen_without_surrogate].
Qed.

(** C8 (as amended).  [best_point] of the flat facade is one call of the
    best-point recommender with the facade itself and the caller's bounds,
    objective weights, outcome and linear constraints, fixed features,
    generation options and target fidelities, and returns or raises whatever
    the recommender does.  [best_point] of the modular facade raises
    [NotImplementedError] and calls nothing. *)
Theorem best_point_delegation (sp : ObjectiveSpec Scalar) (st : FState)
    (stm : MState) :
  Flat.best_point C sp st =
    (let '(r, e') := Flat.best_point_recommender C (self st) sp (env st) in
     (r, mkSt (self st) e'
              (trace st ++ [(Flat.CallBestPointRecommender (self st) sp, env st)])))
  /\ Modular.best_point sp stm = (Raise Modular.coming_soon, stm).
Proof. done. Qed.

End BothFacades.

Section RoundingAdapter.
Context {Scalar : Type}.

(** C6 (as amended).  Without a rounding function [get_rounding_func] returns
    [None]; with a rounding function [f] it returns the adapter, which on a
    tensor in the default layout is the adapter at the contiguous strides.
    Let [f] map a [d]-vector to a [d]-vector on the same device, and let [X]
    have at least one element and last dimension [d].  If the strides [X] is
    stored with allow [X.view(-1, d)], as the contiguous strides always do,
    the adapter equals rounding row by row: it fails with the first exception
    of [f], and otherwise returns a tensor of the shape of the input whose
    [k]-th row holds [f] of the [k]-th row of the input, rows being counted
    over all leading dimensions.  On a [(q, d)] batch row [i] is [f (X[i])]; on
    an [(s, q, d)] batch row [i * q + j] is [f (X[i, j])].  If the strides do
    not allow the view, the adapter raises the [RuntimeError] of [view] and
    rounds nothing.  [strides] holds one stride per dimension of [X]. *)
Theorem get_rounding_func_rowwise
    (f : Tensor Scalar -> Res (Tensor Scalar)) (X : Tensor Scalar)
    (strides bs : list nat) (d : nat) :
  t_shape X = bs ++ [d] ->
  length strides = length (t_shape X) ->
  0 < numel X ->
  (forall x y, x ∈ rows_of X d -> f x = Ok y ->
     t_shape y = [d] /\ length (t_data y) = d /\ t_device y = t_device X) ->
  get_rounding_func (Scalar:=Scalar) None = None /\
  (exists g,
     get_rounding_func (Some f) = Some g /\
     g X = botorch_rounding_func_at (contiguous_strides (t_shape X)) f X) /\
  viewable (t_shape X) (contiguous_strides (t_shape X)) [prod_list bs; d] = true /\
  if viewable (t_shape X) strides [prod_list bs; d] then
    botorch_rounding_func_at strides f X = round_rowwise f X /\
    forall Y, botorch_rounding_func_at strides f X = Ok Y ->
      t_shape Y = t_shape X /\
      (forall k, k < prod_list bs ->
         exists y, f (row_of X d k) = Ok y /\ t_data (row_of Y d k) = t_data y) /\
      (forall q, bs = [q] -> forall i, i < q ->
         exists y, f (row_of X d i) = Ok y /\ t_data (row_of Y d i) = t_data y) /\
      (forall s q, bs = [s; q] -> forall i j, i < s -> j < q ->
         exists y, f (row_of X d (i * q + j)) = Ok y /\
                   t_data (row_of Y d (i * q + j)) = t_data y)
  else botorch_rounding_func_at strides f X = Raise view_not_compatible.
Proof.
  intros Hshape _ Hpos Hf. split; [done|].
  assert (Hnum : numel X = prod_list bs * d).
  { unfold numel. by rewrite Hshape, prod_list_app, prod_list_singleton. }
  assert (Hd : d <> 0) by (intros ->; lia).
  split.
  { exists (botorch_rounding_func f). split; [done|].
    by rewrite botorch_rounding_func_at_contiguous. }
  split; [by apply viewable_contiguous|].
  rewrite (botorch_rounding_func_at_shape strides f X bs d) by done.
  destruct (viewable (t_shape X) strides [prod_list bs; d]); [|done].
  assert (Heq : botorch_rounding_func f X = round_rowwise f X).
  { apply (botorch_rounding_func_rowwise f X bs d); [done..|].
    intros x y Hx Hy. destruct (Hf x y Hx Hy) as (? & _ & ?). done. }
  split; [done|]. intros Y HY. rewrite Heq in HY.
  destruct (round_rowwise_rows f X Y bs d) as [HsY Hrows]; [done| |done|].
  { intros x y Hx Hy. by destruct (Hf x y Hx Hy) as (_ & ? & _). }
  split; [done|]. split; [done|]. split.
  - intros q -> i Hi. apply Hrows. unfold prod_list. simpl. lia.
  - intros s q -> i j Hi Hj. apply Hrows. unfold prod_list. simpl. nia.
Qed.

End RoundingAdapter.

(** ** The facades on explicit inputs *)

(** The scenario of the specification: the constructor overflows unless
    [qmc=False]; [gen] succeeds with two constructor calls. *)
Example gen_falls_back_once :
  (Flat.gen Toy.collaborators (Toy.gen_args Toy.objective) Toy.fitted).1
    = Ok Toy.gen_output /\
  length (Flat.acqf_constructor_calls
            (new_events (Flat.gen Toy.collaborators (Toy.gen_args Toy.objective))
                        Toy.fitted)) = 2.
Proof. split; vm_compute; reflexivity. Qed.

Lemma gen_result_witness :
  (Flat.gen Toy.collaborators (Toy.gen_args Toy.objective) Toy.fitted).1
    = Ok Toy.gen_output /\
  (Modular.gen Toy.modular_collaborators (Toy.gen_args Toy.objective)
               Toy.modular_ready).1 = Ok Toy.gen_output /\
  (exists candidates expected_acquisition_value weights,
     t_data weights = replicate 3 1%Z /\
     Toy.gen_output =
       (to_cpu (detach candidates), weights,
        {[ "expected_acquisition_value" := tolist expected_acquisition_value ]},
        None)) /\
  (exists candidates expected_acquisition_value weights,
     t_data weights = replicate 3 1%Z /\
     Toy.gen_output =
       (to_cpu (detach candidates), weights,
        {[ "expected_acquisition_value" := tolist expected_acquisition_value ]},
        None)).
Proof.
  assert (H1 : (Flat.gen Toy.collaborators (Toy.gen_args Toy.objective)
                  Toy.fitted).1 = Ok Toy.gen_output)
    by (vm_compute; reflexivity).
  assert (H2 : (Modular.gen Toy.modular_collaborators (Toy.gen_args Toy.objective)
                  Toy.modular_ready).1 = Ok Toy.gen_output)
    by (vm_compute; reflexivity).
  split; [exact H1|]. split; [exact H2|].
  destruct (gen_result Toy.collaborators Toy.modular_collaborators
              (Toy.gen_args Toy.objective) Toy.fitted Toy.modular_ready
              Toy.gen_output Toy.gen_output) as [Hf Hm].
  split.
  - destruct (Hf H1) as (c & v & _ & _ & _ & w & _ & _ & _ & _ & _ & Hw & _ & Hr).
    exists c, v, w. split; [exact Hw|exact Hr].
  - destruct (Hm H2)
      as (c & v & _ & _ & _ & _ & _ & _ & w & _ & _ & _ & _ & _ & Hw & _ & Hr).
    exists c, v, w. split; [exact Hw|exact Hr].
Defined.


Lemma update_state_dict_policy_witness :
  Flat.model (self Toy.fitted) = Some 2 /\
  Flat.model (self Toy.fitted_cold) = Some 2 /\
  (exists args e l1,
     Flat.model_constructor_calls
       (new_events (Flat.update Toy.collaborators [] [] []) Toy.fitted)
       = [(args, e)] /\
     Flat.mc_state_dict args = Some (Some l1) /\
     fresh_copy (env Toy.fitted) 1%positive e l1) /\
  (exists args e,
     Flat.model_constructor_calls
       (new_events (Flat.update Toy.collaborators [] [] []) Toy.fitted_cold)
       = [(args, e)] /\
     Flat.mc_state_dict args = Some None).
Proof.
  assert (H1 : Flat.model (self Toy.fitted) = Some 2) by reflexivity.
  assert (H2 : Flat.model (self Toy.fitted_cold) = Some 2) by reflexivity.
  split; [exact H1|]. split; [exact H2|]. split.
  - destruct (update_state_dict_policy Toy.collaborators [] [] [] Toy.fitted 2 H1)
      as (evs & Htr & _ & Hargs & Hone).
    rewrite (new_events_app _ _ _ Htr).
    assert (Hlen : length (Flat.model_constructor_calls evs) = 1).
    { apply Hone; [reflexivity|right; reflexivity]. }
    destruct (Flat.model_constructor_calls evs) as [|[args e] [|c2 rest]];
      try discriminate Hlen.
    destruct (Hargs args e) as (l0 & e1 & l1 & Hsd & Hmc & Hcopy).
    { apply list_elem_of_here. }
    change (Flat.state_dict Toy.collaborators 2 (env Toy.fitted))
      with (Ok (A:=loc) 1%positive, env Toy.fitted) in Hsd.
    injection Hsd as <- <-.
    exists args, e, l1. split; [reflexivity|]. split; [exact Hmc|exact Hcopy].
  - destruct (update_state_dict_policy Toy.collaborators [] [] [] Toy.fitted_cold 2 H2)
      as (evs & Htr & _ & Hargs & Hone).
    rewrite (new_events_app _ _ _ Htr).
    assert (Hlen : length (Flat.model_constructor_calls evs) = 1).
    { apply Hone; [reflexivity|left; reflexivity]. }
    destruct (Flat.model_constructor_calls evs) as [|[args e] [|c2 rest]];
      try discriminate Hlen.
    destruct (Hargs args e) as [Hmc _].
    { apply list_elem_of_here. }
    exists args, e. split; [reflexivity|exact Hmc].
Defined.

Lemma cross_validate_throwaway_witness :
  Flat.model (self Toy.fitted) = Some 2 /\
  self (Flat.cross_validate Toy.collaborators [Toy.vec [0%Z]] [Toy.vec [5%Z]]
          [Toy.vec [0%Z]] (Toy.vec [1%Z]) Toy.fitted).2 = self Toy.fitted /\
  exists args e l1,
    Flat.model_constructor_calls
      (new_events (Flat.cross_validate Toy.collaborators [Toy.vec [0%Z]]
                     [Toy.vec [5%Z]] [Toy.vec [0%Z]] (Toy.vec [1%Z])) Toy.fitted)
      = [(args, e)] /\
    Flat.mc_Xs args = [Toy.vec [0%Z]] /\
    Flat.mc_state_dict args = Some (Some l1) /\
    fresh_copy (env Toy.fitted) 1%positive e l1.
Proof.
  assert (H1 : Flat.model (self Toy.fitted) = Some 2) by reflexivity.
  split; [exact H1|].
  destruct (cross_validate_throwaway Toy.collaborators [Toy.vec [0%Z]]
              [Toy.vec [5%Z]] [Toy.vec [0%Z]] (Toy.vec [1%Z]) Toy.fitted 2 H1)
    as (Hself & evs & Htr & _ & Hargs & Hone).
  split; [exact Hself|].
  rewrite (new_events_app _ _ _ Htr).
  assert (Hlen : length (Flat.model_constructor_calls evs) = 1).
  { apply Hone; [reflexivity|right; reflexivity]. }
  destruct (Flat.model_constructor_calls evs) as [|[args e] [|c2 rest]];
    try discriminate Hlen.
  destruct (Hargs args e) as (HX & _ & _ & (l0 & e1 & l1 & Hsd & Hmc & Hcopy) & _).
  { apply list_elem_of_here. }
  change (Flat.state_dict Toy.collaborators 2 (env Toy.fitted))
    with (Ok (A:=loc) 1%positive, env Toy.fitted) in Hsd.
  injection Hsd as <- <-.
  exists args, e, l1. split; [reflexivity|]. split; [exact HX|].
  split; [exact Hmc|exact Hcopy].
Defined.

Lemma gen_rejects_target_fidelities_witness :
  target_fidelities
    (Toy.with_target_fidelities (Some {[ 0%Z := 1%Z ]}) Toy.objective)
    = Some {[ 0%Z := 1%Z ]} /\
  ({[ 0%Z := 1%Z ]} : gmap Z Z) <> ∅ /\
  exists msg,
    (Flat.gen Toy.collaborators
       (Toy.gen_args
          (Toy.with_target_fidelities (Some {[ 0%Z := 1%Z ]}) Toy.objective))
       Toy.fitted).1 = Raise (mkExn NotImplementedError msg) /\
    trace (Flat.gen Toy.collaborators
       (Toy.gen_args
          (Toy.with_target_fidelities (Some {[ 0%Z := 1%Z ]}) Toy.objective))
       Toy.fitted).2 = trace Toy.fitted.
Proof.
  assert (Hne : ({[ 0%Z := 1%Z ]} : gmap Z Z) <> ∅).
  { intros Heq. apply (f_equal (fun m => m !! 0%Z)) in Heq. discriminate Heq. }
  split; [reflexivity|]. split; [exact Hne|].
  destruct (gen_rejects_target_fidelities Toy.collaborators
              (Toy.gen_args
                 (Toy.with_target_fidelities (Some {[ 0%Z := 1%Z ]}) Toy.objective))
              Toy.fitted {[ 0%Z := 1%Z ]} eq_refl Hne)
    as (msg & Hraise & Htrace & _).
  exists msg. split; [exact Hraise|exact Htrace].
Defined.


Lemma gen_subset_model_witness :
  or_empty (model_gen_options Toy.objective) !! "subset_model" = None /\
  or_empty (model_gen_options
              (Toy.with_options (Some {[ "subset_model" := VBool false ]})
                                Toy.objective)) !! "subset_model"
    = Some (VBool false) /\
  (exists c rest,
     Flat.acqf_constructor_calls
       (new_events (Flat.gen Toy.collaborators (Toy.gen_args Toy.objective))
                   Toy.fitted) = c :: rest /\
     Flat.ac_model c = Some 3 /\
     Flat.ac_objective_weights c = Toy.vec [1%Z]) /\
  (exists c rest,
     Flat.acqf_constructor_calls
       (new_events
          (Flat.gen Toy.collaborators
             (Toy.gen_args
                (Toy.with_options (Some {[ "subset_model" := VBool false ]})
                                  Toy.objective)))
          Toy.fitted) = c :: rest /\
     Flat.ac_model c = Some 2 /\
     Flat.ac_objective_weights c = Toy.vec [1; 0]%Z).
Proof.
  assert (H1 : or_empty (model_gen_options Toy.objective) !! "subset_model"
               = (None : option (PyVal Z))) by reflexivity.
  assert (H2 : or_empty (model_gen_options
                 (Toy.with_options (Some {[ "subset_model" := VBool false ]})
                                   Toy.objective)) !! "subset_model"
               = Some (VBool false : PyVal Z)) by (vm_compute; reflexivity).
  split; [exact H1|]. split; [exact H2|]. split.
  - destruct (gen_subset_model Toy.collaborators (Toy.gen_args Toy.objective)
                Toy.fitted) as (_ & evs & Htr & Hex & _ & Hon & _).
    rewrite (new_events_app _ _ _ Htr).
    assert (Hne : Flat.acqf_constructor_calls evs <> []).
    { apply Hex; vm_compute; reflexivity. }
    destruct (Flat.acqf_constructor_calls evs) as [|c rest]; [done|].
    exists c, rest. split; [reflexivity|].
    destruct (Hon (or_introl H1)) as [_ Hargs].
    destruct (Hargs c) as (e & r & e' & _ & Hsub & -> & -> & _).
    { apply list_elem_of_here. }
    injection Hsub as <- _. split; reflexivity.
  - destruct (gen_subset_model Toy.collaborators
                (Toy.gen_args
                   (Toy.with_options (Some {[ "subset_model" := VBool false ]})
                                     Toy.objective))
                Toy.fitted) as (_ & evs & Htr & Hex & _ & _ & Hoff).
    rewrite (new_events_app _ _ _ Htr).
    assert (Hne : Flat.acqf_constructor_calls evs <> []).
    { apply Hex; vm_compute; reflexivity. }
    destruct (Flat.acqf_constructor_calls evs) as [|c rest]; [done|].
    exists c, rest. split; [reflexivity|].
    destruct (Hoff H2) as [_ Hargs].
    destruct (Hargs c) as (-> & -> & _).
    { apply list_elem_of_here. }
    split; reflexivity.
Defined.

Lemma get_rounding_func_rowwise_witness :
  t_shape Toy.batch = [2] ++ [2] /\
  0 < numel Toy.batch /\
  t_shape Scenario.transposed_batch = [3; 2] ++ [2] /\
  0 < numel Scenario.transposed_batch /\
  get_rounding_func (Scalar:=Z) None = None /\
  (exists g,
     get_rounding_func (Some Toy.zero_row) = Some g /\
     g Toy.batch = botorch_rounding_func_at [2; 1] Toy.zero_row Toy.batch) /\
  botorch_rounding_func_at [2; 1] Toy.zero_row Toy.batch =
    round_rowwise Toy.zero_row Toy.batch /\
  botorch_rounding_func_at Scenario.transposed_strides Toy.zero_row Scenario.transposed_batch =
    Raise view_not_compatible.
Proof.
  assert (H1 : t_shape Toy.batch = [2] ++ [2]) by reflexivity.
  assert (H2 : 0 < numel Toy.batch) by (vm_compute; lia).
  assert (H3 : t_shape Scenario.transposed_batch = [3; 2] ++ [2]) by reflexivity.
  assert (H4 : 0 < numel Scenario.transposed_batch) by (vm_compute; lia).
  assert (Hzero : forall (X : Tensor Z) x y,
            length (t_data X) = 2 * prod_list (shape_init X) ->
            x ∈ rows_of X 2 -> Toy.zero_row x = Ok y ->
            t_shape y = [2] /\ length (t_data y) = 2 /\ t_device y = t_device X).
  { intros X x y Hlen Hx Hy. injection Hy as <-. simpl.
    apply list_elem_of_fmap in Hx as (k & -> & Hk). simpl.
    split; [reflexivity|]. split; [|reflexivity].
    apply elem_of_seq in Hk.
    rewrite length_fmap, length_take, length_drop. lia. }
  split; [exact H1|]. split; [exact H2|]. split; [exact H3|]. split; [exact H4|].
  destruct (get_rounding_func_rowwise Toy.zero_row Toy.batch [2; 1] [2] 2 H1
              eq_refl H2 (fun x y => Hzero Toy.batch x y eq_refl))
    as (Hnone & Hg & _ & Hrows).
  destruct (get_rounding_func_rowwise Toy.zero_row Scenario.transposed_batch
              Scenario.transposed_strides [3; 2] 2 H3 eq_refl H4
              (fun x y => Hzero Scenario.transposed_batch x y eq_refl))
    as (_ & _ & _ & Hraise).
  split; [exact Hnone|]. split; [exact Hg|].
  split; [exact (proj1 Hrows)|exact Hraise].
Defined.

(** *** Inputs on which the specification's wording fails *)


Lemma unfitted_predict_and_gen_succeed :
  (Flat.predict Toy.collaborators (Toy.vec [0; 1]%Z) Toy.unfitted).1
    = Ok (Toy.vec [0; 1]%Z, Toy.vec [0; 1]%Z) /\
  is_ok (Flat.gen Toy.collaborators (Toy.gen_args Toy.objective) Toy.unfitted).1
    = true.
Proof. split; vm_compute; reflexivity. Qed.

Lemma rounding_empty_batch_raises :
  botorch_rounding_func Ok Toy.empty_batch
    = Raise (mkExn RuntimeError "stack expects a non-empty TensorList") /\
  round_rowwise Ok Toy.empty_batch = Ok Toy.empty_batch.
Proof. split; vm_compute; reflexivity. Qed.

Lemma gen_accepts_empty_target_fidelities :
  target_fidelities (Toy.with_target_fidelities (Some ∅) Toy.objective) = Some ∅ /\
  (Flat.gen Toy.collaborators
     (Toy.gen_args (Toy.with_target_fidelities (Some ∅) Toy.objective))
     Toy.fitted).1 = Ok Toy.gen_output.
Proof. split; vm_compute; reflexivity. Qed.

Lemma modular_best_point_not_delegated :
  Flat.model (self Toy.fitted) = Some 2 /\
  Modular._surrogate (self Toy.modular_ready) = Some 1 /\
  (Modular.best_point Toy.objective Toy.modular_ready).1
    = Raise (mkExn NotImplementedError "Coming soon.").
Proof. repeat split. Qed.

(** * Properties of the rest of the facades *)

(** ** More on the rounding adapter *)

Section RoundingEdges.
Context {Scalar : Type}.
Implicit Types (X Y : Tensor Scalar) (f : Tensor Scalar -> Res (Tensor Scalar)).

(** [mapM] stops at the first element on which the function raises. *)
Lemma mapM_Res_first_error {A B} (g : A -> Res B) (l : list A) (k : nat) (x : A) e :
  l !! k = Some x -> g x = Raise e ->
  (forall j xj, j < k -> l !! j = Some xj -> is_ok (g xj) = true) ->
  mapM g l = Raise e.
Proof.
  revert k. induction l as [|a l IH]; intros k Hk Hg Hbefore; [done|].
  destruct k as [|k]; simpl in *.
  - injection Hk as ->. unfold mbind, Res_bind. by rewrite Hg.
  - pose proof (Hbefore 0 a ltac:(lia) eq_refl) as Ha.
    assert (IH' : mapM g l = Raise e).
    { apply (IH k Hk Hg). intros j xj Hj Hl. apply (Hbefore (S j) xj); [lia|done]. }
    unfold mbind, Res_bind in *.
    destruct (g a) as [b|e0]; [|discriminate]. by rewrite IH'.
Qed.

Lemma mapM_Res_ext {A B} (g h : A -> Res B) (l : list A) :
  (forall x, x ∈ l -> g x = h x) -> mapM g l = mapM h l.
Proof.
  induction l as [|a l IH]; intros Hgh; [done|]. simpl.
  rewrite (Hgh a) by apply list_elem_of_here.
  assert (IH' : mapM g l = mapM h l).
  { apply IH. intros x Hx. apply Hgh. by apply list_elem_of_further. }
  unfold mbind, Res_bind in *. destruct (h a); [|done]. by rewrite IH'.
Qed.

(** With a trailing dimension [d > 0], the rows the adapter iterates over are
    the rows of [X]. *)
Lemma botorch_rounding_func_unfold f X (d : nat) :
  last (t_shape X) = Some d -> d <> 0 ->
  botorch_rounding_func f X =
    (rounded ← mapM f (rows_of X d);
     X_round ← stack rounded;
     view X_round (shape_init X ++ [d])).
Proof.
  intros Hlast Hd.
  assert (Hshape : t_shape X = shape_init X ++ [d]).
  { unfold shape_init. destruct (t_shape X) as [|a s] eqn:Hs using rev_ind; [done|].
    rewrite last_snoc in Hlast. injection Hlast as ->. by rewrite removelast_last. }
  assert (Hnum : numel X = prod_list (shape_init X) * d).
  { unfold numel. rewrite Hshape at 1. by rewrite prod_list_app, prod_list_singleton. }
  unfold botorch_rounding_func, shape_last. rewrite Hlast. simpl.
  unfold view_rows. rewrite bool_decide_eq_false_2 by done.
  rewrite bool_decide_eq_true_2 by (rewrite Hnum; apply Nat.Div0.mod_mul).
  simpl. unfold iter_tensor. simpl.
  rewrite Hnum, Nat.div_mul by done. reflexivity.
Qed.

Lemma rows_of_shape X (d : nat) x : x ∈ rows_of X d -> t_shape x = [d].
Proof.
  unfold rows_of. intros (k & -> & _)%list_elem_of_fmap. done.
Qed.

Lemma rows_of_well_formed X (d : nat) x :
  last (t_shape X) = Some d -> well_formed X ->
  x ∈ rows_of X d -> length (t_data x) = d.
Proof.
  intros Hlast Hwf.
  assert (Hshape : t_shape X = shape_init X ++ [d]).
  { unfold shape_init. destruct (t_shape X) as [|a s] eqn:Hs using rev_ind; [done|].
    rewrite last_snoc in Hlast. injection Hlast as ->. by rewrite removelast_last. }
  unfold rows_of. intros (k & -> & Hk)%list_elem_of_fmap.
  apply elem_of_seq in Hk. unfold row_of, select0. cbn [t_data].
  rewrite prod_list_singleton, length_take, length_drop.
  unfold well_formed, numel in Hwf. rewrite Hwf, Hshape, prod_list_app, prod_list_singleton.
  nia.
Qed.

(** On one point the adapter is the rounding function itself. *)
Lemma botorch_rounding_func_point f (x : Tensor Scalar) (d : nat) :
  t_shape x = [d] -> d <> 0 -> length (t_data x) = d ->
  (forall y, f x = Ok y -> t_shape y = [d]) ->
  botorch_rounding_func f x = f x.
Proof.
  intros Hs Hd Hlen Hf.
  rewrite (botorch_rounding_func_unfold f x d); [|by rewrite Hs|done].
  unfold rows_of, shape_init. rewrite Hs. simpl.
  assert (Hrow : row_of x d 0 = x).
  { unfold row_of, select0. rewrite prod_list_singleton. simpl. rewrite drop_0.
    rewrite take_ge by lia. destruct x; simpl in *; by subst. }
  rewrite Hrow. unfold mbind at 2, Res_bind. unfold mret, Res_ret.
  destruct (f x) as [y|e] eqn:Hfx; [|done].
  specialize (Hf y eq_refl). simpl.
  unfold view. rewrite bool_decide_eq_true_2.
  2:{ unfold numel, stacked. cbn [t_shape]. rewrite Hf. unfold prod_list. simpl. lia. }
  f_equal. unfold reshaped, stacked, stacked_dtype. simpl.
  rewrite app_nil_r, orb_false_r. destruct y; simpl in *; by subst.
Qed.

(** X1.  Edge behaviour of the wrapped rounding function.  On a tensor that
    holds no element it raises [RuntimeError], and on a 0-d tensor
    [IndexError], in both cases whatever the rounding function is: the
    function is not consulted. *)
Theorem botorch_rounding_func_degenerate X :
  (numel X = 0 ->
   exists msg, forall f, botorch_rounding_func f X = Raise (mkExn RuntimeError msg)) /\
  (t_shape X = [] ->
   forall f, botorch_rounding_func f X =
             Raise (mkExn IndexError "tuple index out of range")).
Proof.
  split.
  - intros Hnum.
    destruct (last (t_shape X)) as [d|] eqn:Hlast.
    2:{ apply last_None in Hlast. unfold numel in Hnum. rewrite Hlast in Hnum.
        discriminate. }
    destruct (decide (d = 0)) as [->|Hd].
    + eexists. intros f. unfold botorch_rounding_func, shape_last.
      rewrite Hlast. simpl. unfold view_rows. simpl. rewrite Hnum. simpl. reflexivity.
    + eexists. intros f. rewrite (botorch_rounding_func_unfold f X d) by done.
      assert (Hshape : t_shape X = shape_init X ++ [d]).
      { unfold shape_init. destruct (t_shape X) as [|a s] eqn:Hs using rev_ind;
          [done|].
        rewrite last_snoc in Hlast. injection Hlast as ->.
        by rewrite removelast_last. }
      assert (Hrows : prod_list (shape_init X) = 0).
      { unfold numel in Hnum. rewrite Hshape, prod_list_app, prod_list_singleton in Hnum.
        nia. }
      unfold rows_of. rewrite Hrows. simpl. reflexivity.
  - intros Hs f. unfold botorch_rounding_func, shape_last. by rewrite Hs.
Qed.

(** X2.  An exception of the rounding function comes out of the wrapped
    function unchanged.  Let the rounding function raise on row [k] and
    return on every earlier row.  On a tensor whose strides allow
    [X.view(-1, d)] the wrapped function raises that exception; on a tensor
    whose strides do not, it raises the [RuntimeError] of [view] before the
    rounding function is called.  [strides] holds one stride per dimension
    of [X]. *)
Theorem botorch_rounding_func_propagates f X (strides : list nat) (d k : nat)
    (x : Tensor Scalar) (e : Exn) :
  last (t_shape X) = Some d -> d <> 0 ->
  length strides = length (t_shape X) ->
  rows_of X d !! k = Some x ->
  f x = Raise e ->
  (forall j xj, j < k -> rows_of X d !! j = Some xj -> is_ok (f xj) = true) ->
  botorch_rounding_func_at strides f X =
    if viewable (t_shape X) strides [prod_list (shape_init X); d] then Raise e
    else Raise view_not_compatible.
Proof.
  intros Hlast Hd _ Hk Hf Hbefore.
  assert (Hshape : t_shape X = shape_init X ++ [d]).
  { unfold shape_init. destruct (t_shape X) as [|a s] eqn:Hs using rev_ind; [done|].
    rewrite last_snoc in Hlast. injection Hlast as ->. by rewrite removelast_last. }
  rewrite (botorch_rounding_func_at_shape strides f X (shape_init X) d) by done.
  destruct (viewable _ _ _); [|done].
  rewrite (botorch_rounding_func_unfold f X d) by done.
  by rewrite (mapM_Res_first_error f _ k x e).
Qed.

(** X3.  On a single point the wrapped function is the rounding function.  For a
    well-formed [d]-vector [x] and a rounding function that answers with a
    [d]-vector, wrapping changes nothing: same result, same exception. *)
Theorem get_rounding_func_point f (x : Tensor Scalar) (d : nat) :
  t_shape x = [d] -> d <> 0 -> well_formed x ->
  (forall y, f x = Ok y -> t_shape y = [d]) ->
  exists g, get_rounding_func (Some f) = Some g /\ g x = f x.
Proof.
  intros Hs Hd Hwf Hf. eexists. split; [reflexivity|].
  apply (botorch_rounding_func_point f x d); try done.
  unfold well_formed, numel in Hwf. by rewrite Hwf, Hs, prod_list_singleton.
Qed.

(** X4.  Wrapping is idempotent.  On a well-formed tensor with trailing
    dimension [d], for a rounding function that answers each row with a
    [d]-vector, wrapping the wrapped function gives the same result, or the
    same exception, as wrapping once. *)
Theorem get_rounding_func_idempotent f X (d : nat) :
  last (t_shape X) = Some d -> well_formed X ->
  (forall x y, x ∈ rows_of X d -> f x = Ok y -> t_shape y = [d]) ->
  exists g g2,
    get_rounding_func (Some f) = Some g /\
    get_rounding_func (get_rounding_func (Some f)) = Some g2 /\
    g2 X = g X.
Proof.
  intros Hlast Hwf Hf. do 2 eexists. split; [reflexivity|]. split; [reflexivity|].
  destruct (decide (d = 0)) as [->|Hd].
  { unfold botorch_rounding_func at 1 3, shape_last. rewrite Hlast. simpl.
    unfold view_rows. simpl. done. }
  rewrite (botorch_rounding_func_unfold (botorch_rounding_func f) X d) by done.
  rewrite (botorch_rounding_func_unfold f X d) by done.
  rewrite (mapM_Res_ext (botorch_rounding_func f) f); [done|].
  intros x Hx. apply (botorch_rounding_func_point f x d); try done.
  - by apply (rows_of_shape X).
  - by apply (rows_of_well_formed X).
  - intros y. by apply Hf.
Qed.

End RoundingEdges.

(** ** The bounds tensor *)

Section BoundsTensor.
Context {Scalar : Type} `{ScalarOps Scalar}.

Lemma transposed_pairs_column (j : nat) (proj : Scalar * Scalar -> Scalar)
    (bs : list (Scalar * Scalar)) :
  (forall p, take 1 (drop j [p.1; p.2]) = [proj p]) -> j < 2 ->
  forall (pre : list Scalar) (m : nat), length pre = 2 * m ->
    concat ((fun i => take 1 (drop ((i * 2 + j) * 1)
                        (pre ++ concat ((fun p => [p.1; p.2]) <$> bs))))
            <$> seq m (length bs)) = proj <$> bs.
Proof.
  intros Hproj Hj. induction bs as [|p bs IH]; intros pre m Hpre; [done|].
  cbn [length seq fmap list_fmap concat].
  assert (Hhead : take 1 (drop ((m * 2 + j) * 1)
                    (pre ++ [p.1; p.2] ++ concat ((fun p => [p.1; p.2]) <$> bs)))
                  = [proj p]).
  { replace ((m * 2 + j) * 1) with (length pre + j) by lia.
    rewrite drop_app_add. specialize (Hproj p).
    destruct j as [|[|j]]; [| |lia]; simpl in *; done. }
  rewrite Hhead. cbn [app]. f_equal.
  rewrite <- (IH (pre ++ [p.1; p.2]) (S m)) by (rewrite length_app; simpl; lia).
  f_equal. apply list_fmap_ext. intros _ i _.
  by rewrite <- app_assoc.
Qed.

(** [torch.tensor(bounds, ...).transpose(0, 1)] is the row of lower bounds over
    the row of upper bounds; for an empty list of bounds the tensor is
    one-dimensional and cannot be transposed. *)
Lemma transposed_bounds (bounds_ : Bounds Scalar) (dt : option Dtype)
    (dv : option Device) :
  transpose01 (torch_tensor_pairs bounds_ dt dv) =
    match bounds_ with
    | [] => Raise (mkExn IndexError "Dimension out of range")
    | _ => Ok (lower_upper bounds_ (default default_dtype dt) (default cpu dv))
    end.
Proof.
  destruct bounds_ as [|p bs]; [done|].
  unfold transpose01, torch_tensor_pairs, lower_upper.
  cbn [t_shape t_data t_dtype t_device t_requires_grad].
  f_equal. f_equal.
  set (l := p :: bs).
  cbn [seq fmap list_fmap concat]. rewrite app_nil_r.
  change (prod_list []) with 1.
  f_equal.
  - apply (transposed_pairs_column 0 fst l) with (pre := []) (m := 0); [done|lia|done].
  - apply (transposed_pairs_column 1 snd l) with (pre := []) (m := 0); [done|lia|done].
Qed.

End BoundsTensor.

(** ** Fitting and updating the flat facade *)

Section FlatFitting.
Context {Scalar : Type} `{ScalarOps Scalar} {Model AcquisitionFunction Ext : Type}.
Variable C : Flat.Collaborators Scalar Model AcquisitionFunction Ext.

Abbreviation FState :=
  (St (Scalar:=Scalar) (Ext:=Ext) (Flat.BotorchModel Scalar Model)
      (Flat.Event Scalar Model AcquisitionFunction)).
Abbreviation PyVal := (PyVal Scalar).

(** The construction-time settings of a facade: the flags and the extra
    keyword arguments. *)
Abbreviation same_settings :=
  (fun s s' : Flat.BotorchModel Scalar Model =>
     Flat._kwargs s' = Flat._kwargs s /\
     Flat.refit_on_cv s' = Flat.refit_on_cv s /\
     Flat.refit_on_update s' = Flat.refit_on_update s /\
     Flat.warm_start_refitting s' = Flat.warm_start_refitting s /\
     Flat.use_input_warping s' = Flat.use_input_warping s /\
     Flat.use_loocv_pseudo_likelihood s' = Flat.use_loocv_pseudo_likelihood s).

(** X5.  [fit] is not atomic.  On an empty list of inputs [Xs[0]] raises
    [IndexError] before anything is assigned or called: facade, environment
    and trace are as before.  With a non-empty [Xs], whatever happens later (a
    0-d first input, indices that cannot be normalised, a rejected keyword, a
    model constructor that raises), the facade already holds the new [dtype]
    and [device] of [Xs[0]] and the new [Xs], [Ys], [Yvars]; the settings are
    never touched; and when [fit] raises, [model] is still the model from
    before. *)
Theorem fit_overwrites_data (Xs_ Ys_ Yvars_ : list (Tensor Scalar))
    (ssd : SearchSpaceDigest) (names : list string) (st : FState) :
  let out := Flat.fit C Xs_ Ys_ Yvars_ ssd names st in
  match Xs_ with
  | [] => out = (Raise (mkExn IndexError "list index out of range"), st)
  | X0 :: _ =>
      Flat.dtype (self out.2) = Some (t_dtype X0) /\
      Flat.device (self out.2) = Some (t_device X0) /\
      Flat.Xs (self out.2) = Xs_ /\
      Flat.Ys (self out.2) = Ys_ /\
      Flat.Yvars (self out.2) = Yvars_ /\
      same_settings (self st) (self out.2) /\
      (is_ok out.1 = false -> Flat.model (self out.2) = Flat.model (self st))
  end.
Proof.
  cbv zeta. destruct Xs_ as [|X0 rest]; [reflexivity|].
  unfold Flat.fit. unfold_monad. simpl.
  destruct (shape_last X0) as [d|e0]; simpl; [|done].
  destruct (Flat.normalize_indices C (ssd_task_features ssd) d) as [tf|e1];
    simpl; [|done].
  destruct (Flat.normalize_indices C (ssd_fidelity_features ssd) d) as [ff|e2];
    simpl; [|done].
  destruct (bool_decide _); simpl; [|done].
  match goal with |- context [Flat.model_constructor C ?a ?e] =>
    destruct (Flat.model_constructor C a e) as [[m|e3] e'] end; simpl; done.
Qed.

(** X6.  A successful [fit] is a cold start.  It made exactly one call, to the
    model constructor, in the environment [fit] started in: with the data it
    was given, the task and fidelity features normalised against the last
    dimension of [Xs[0]], the metric names, the facade's two model flags and
    its extra keyword arguments, and with neither a [state_dict] nor a
    [refit_model] keyword.  The model that call returned is the facade's
    [model], and the normalised features and the names are stored. *)
Theorem fit_cold_start (Xs_ Ys_ Yvars_ : list (Tensor Scalar))
    (ssd : SearchSpaceDigest) (names : list string) (st st' : FState) :
  Flat.fit C Xs_ Ys_ Yvars_ ssd names st = (Ok tt, st') ->
  exists X0 d args m,
    head Xs_ = Some X0 /\ last (t_shape X0) = Some d /\
    trace st' = trace st ++ [(Flat.CallModelConstructor args, env st)] /\
    Flat.model_constructor C args (env st) = (Ok m, env st') /\
    Flat.model (self st') = Some m /\
    Flat.mc_state_dict args = None /\
    Flat.mc_refit_model args = None /\
    Flat.mc_Xs args = Xs_ /\ Flat.mc_Ys args = Ys_ /\ Flat.mc_Yvars args = Yvars_ /\
    Flat.normalize_indices C (ssd_task_features ssd) d =
      Ok (Flat.mc_task_features args) /\
    Flat.normalize_indices C (ssd_fidelity_features ssd) d =
      Ok (Flat.mc_fidelity_features args) /\
    Flat.mc_metric_names args = names /\
    Flat.mc_use_input_warping args = Flat.use_input_warping (self st) /\
    Flat.mc_use_loocv_pseudo_likelihood args =
      Flat.use_loocv_pseudo_likelihood (self st) /\
    Flat.mc_kwargs args = Flat._kwargs (self st) /\
    Flat.task_features (self st') = Flat.mc_task_features args /\
    Flat.fidelity_features (self st') = Flat.mc_fidelity_features args /\
    Flat.metric_names (self st') = names.
Proof.
  unfold Flat.fit. unfold_monad.
  destruct Xs_ as [|X0 rest]; simpl; [discriminate|].
  unfold shape_last.
  destruct (last (t_shape X0)) as [d|] eqn:Hlast; simpl; [|discriminate].
  destruct (Flat.normalize_indices C (ssd_task_features ssd) d) as [tf|e1] eqn:Htf;
    simpl; [|discriminate].
  destruct (Flat.normalize_indices C (ssd_fidelity_features ssd) d) as [ff|e2] eqn:Hff;
    simpl; [|discriminate].
  destruct (bool_decide _); simpl; [|discriminate].
  match goal with |- context [Flat.model_constructor C ?a ?e] =>
    destruct (Flat.model_constructor C a e) as [[m|e3] e'] eqn:Hmc end;
    simpl; [|discriminate].
  intros [= <-]. simpl.
  eexists X0, d, _, m. split; [done|]. split; [done|].
  split; [reflexivity|]. split; [exact Hmc|]. simpl. done.
Qed.

(** X7.  [fit] then [predict].  After a successful [fit], [predict] is one call
    of the model predictor with the model that the constructor returned to
    [fit], and returns or raises what the predictor does. *)
Theorem fit_then_predict (Xs_ Ys_ Yvars_ : list (Tensor Scalar))
    (ssd : SearchSpaceDigest) (names : list string) (st st' : FState)
    (X : Tensor Scalar) :
  Flat.fit C Xs_ Ys_ Yvars_ ssd names st = (Ok tt, st') ->
  exists args m,
    (Flat.CallModelConstructor args, env st) ∈ trace st' /\
    Flat.model_constructor C args (env st) = (Ok m, env st') /\
    Flat.predict C X st' =
      (let '(r, e') := Flat.model_predictor C (Some m) X (env st') in
       (r, mkSt (self st') e'
                (trace st' ++ [(Flat.CallModelPredictor (Some m) X, env st')]))).
Proof.
  unfold Flat.fit. unfold_monad.
  destruct Xs_ as [|X0 rest]; simpl; [discriminate|].
  destruct (shape_last X0) as [d|e0]; simpl; [|discriminate].
  destruct (Flat.normalize_indices C (ssd_task_features ssd) d) as [tf|e1];
    simpl; [|discriminate].
  destruct (Flat.normalize_indices C (ssd_fidelity_features ssd) d) as [ff|e2];
    simpl; [|discriminate].
  destruct (bool_decide _); simpl; [|discriminate].
  match goal with |- context [Flat.model_constructor C ?a ?e] =>
    destruct (Flat.model_constructor C a e) as [[m|e3] e'] eqn:Hmc end;
    simpl; [|discriminate].
  intros [= <-]. eexists _, m.
  split; [apply elem_of_app; right; apply list_elem_of_here|].
  split; [exact Hmc|]. unfold Flat.predict. unfold_monad. reflexivity.
Qed.

(** X8.  What [update] does to a fitted facade.  Whatever the outcome, the
    facade holds the new [Xs], [Ys], [Yvars], and everything that [fit]
    derived from the first data (dtype, device, task and fidelity features,
    metric names) and the settings are as before: they are not recomputed
    from the new data.  When [update] raises, [model] is still the old model;
    when it returns, [model] is what the model constructor returned. *)
Theorem update_overwrites_data (Xs_ Ys_ Yvars_ : list (Tensor Scalar)) (st : FState)
    (m : Model) :
  Flat.model (self st) = Some m ->
  let out := Flat.update C Xs_ Ys_ Yvars_ st in
  Flat.Xs (self out.2) = Xs_ /\
  Flat.Ys (self out.2) = Ys_ /\
  Flat.Yvars (self out.2) = Yvars_ /\
  Flat.dtype (self out.2) = Flat.dtype (self st) /\
  Flat.device (self out.2) = Flat.device (self st) /\
  Flat.task_features (self out.2) = Flat.task_features (self st) /\
  Flat.fidelity_features (self out.2) = Flat.fidelity_features (self st) /\
  Flat.metric_names (self out.2) = Flat.metric_names (self st) /\
  same_settings (self st) (self out.2) /\
  (is_ok out.1 = false -> Flat.model (self out.2) = Some m) /\
  (is_ok out.1 = true ->
   exists args e m',
     (Flat.CallModelConstructor args, e) ∈ trace out.2 /\
     Flat.model_constructor C args e = (Ok m', env out.2) /\
     Flat.model (self out.2) = Some m').
Proof.
  intros Hm. cbv zeta. unfold Flat.update. unfold_monad. rewrite Hm. simpl.
  destruct (Flat.refit_on_update (self st) && negb (Flat.warm_start_refitting (self st)));
    simpl.
  - destruct (bool_decide _); simpl; [|by repeat (split; [done|])].
    match goal with |- context [Flat.model_constructor C ?a ?e] =>
      destruct (Flat.model_constructor C a e) as [[m'|e3] e'] eqn:Hmc end;
      simpl; repeat (split; [done|]); [|done].
    intros _. eexists _, _, m'.
    split; [apply elem_of_app; right; apply list_elem_of_here|]. done.
  - unfold Flat.copy_of_state_dict. unfold_monad. simpl.
    destruct (Flat.state_dict C m (env st)) as [[l0|e0] e1]; simpl;
      [|by repeat (split; [done|])].
    destruct (deepcopy l0 e1) as [l1 e2]. simpl.
    destruct (bool_decide _); simpl; [|by repeat (split; [done|])].
    match goal with |- context [Flat.model_constructor C ?a ?e] =>
      destruct (Flat.model_constructor C a e) as [[m'|e3] e'] eqn:Hmc end;
      simpl; repeat (split; [done|]); [|done].
    intros _. eexists _, _, m'.
    split; [apply elem_of_app; right; apply list_elem_of_here|]. done.
Qed.

(** X9.  Extra keyword arguments that collide with [update] and
    [cross_validate].  A facade built with an extra keyword argument named
    [state_dict] or [refit_model] cannot be updated or cross-validated: both
    methods pass that keyword themselves, so the call of the model constructor
    is rejected before the constructor runs.  Neither method returns, and
    neither calls the constructor. *)
Theorem refit_keyword_collision (Xs_ Ys_ Yvars_ : list (Tensor Scalar))
    (X_test : Tensor Scalar) (st : FState) (k : string) :
  k = "state_dict" \/ k = "refit_model" ->
  is_Some (Flat._kwargs (self st) !! k) ->
  let up := Flat.update C Xs_ Ys_ Yvars_ st in
  let cv := Flat.cross_validate C Xs_ Ys_ Yvars_ X_test st in
  is_ok up.1 = false /\
  Flat.model_constructor_calls (new_events (Flat.update C Xs_ Ys_ Yvars_) st) = [] /\
  is_ok cv.1 = false /\
  Flat.model_constructor_calls
    (new_events (Flat.cross_validate C Xs_ Ys_ Yvars_ X_test) st) = [].
Proof.
  intros Hk Hin. cbv zeta.
  assert (Hsplat :
    bool_decide (dom (Flat._kwargs (self st)) ## Flat.refit_keywords) = false).
  { apply bool_decide_eq_false_2. intros Hd. apply (Hd k).
    - by apply elem_of_dom.
    - unfold Flat.refit_keywords. apply elem_of_union_r.
      destruct Hk as [-> | ->]; set_solver. }
  unfold new_events.
  unfold Flat.update, Flat.cross_validate. unfold_monad.
  destruct (Flat.model (self st)) as [m|] eqn:Hm; simpl.
  2:{ rewrite drop_all. done. }
  split_and!.
  - destruct (_ && _); simpl.
    + rewrite Hsplat. done.
    + unfold Flat.copy_of_state_dict. unfold_monad. simpl.
      destruct (Flat.state_dict C m (env st)) as [[l0|e0] e1]; simpl; [|done].
      destruct (deepcopy l0 e1) as [l1 e2]. simpl. rewrite Hsplat. done.
  - destruct (_ && _); simpl.
    + rewrite Hsplat. simpl. by rewrite drop_all.
    + unfold Flat.copy_of_state_dict. unfold_monad. simpl.
      destruct (Flat.state_dict C m (env st)) as [[l0|e0] e1]; simpl;
        [|by rewrite drop_app_length].
      destruct (deepcopy l0 e1) as [l1 e2]. simpl. rewrite Hsplat.
      simpl. by rewrite drop_app_length.
  - destruct (Flat.refit_on_cv (self st)); simpl.
    + rewrite Hsplat. done.
    + unfold Flat.copy_of_state_dict. unfold_monad. simpl.
      destruct (Flat.state_dict C m (env st)) as [[l0|e0] e1]; simpl; [|done].
      destruct (deepcopy l0 e1) as [l1 e2]. simpl. rewrite Hsplat. done.
  - destruct (Flat.refit_on_cv (self st)); simpl.
    + rewrite Hsplat. simpl. by rewrite drop_all.
    + unfold Flat.copy_of_state_dict. unfold_monad. simpl.
      destruct (Flat.state_dict C m (env st)) as [[l0|e0] e1]; simpl;
        [|by rewrite drop_app_length].
      destruct (deepcopy l0 e1) as [l1 e2]. simpl. rewrite Hsplat.
      simpl. by rewrite drop_app_length.
Qed.

End FlatFitting.

(** ** Candidate generation on the flat facade, continued *)

Section FlatGeneration.
Context {Scalar : Type} `{ScalarOps Scalar} {Model AcquisitionFunction Ext : Type}.
Variable C : Flat.Collaborators Scalar Model AcquisitionFunction Ext.

Abbreviation FState :=
  (St (Scalar:=Scalar) (Ext:=Ext) (Flat.BotorchModel Scalar Model)
      (Flat.Event Scalar Model AcquisitionFunction)).
Abbreviation PyVal := (PyVal Scalar).
Abbreviation FTrace :=
  (list (Flat.Event Scalar Model AcquisitionFunction * Env Scalar Ext)).

Abbreviation generation_call :=
  (fun ev : Flat.Event Scalar Model AcquisitionFunction * Env Scalar Ext =>
     is_generation_call ev.1 = true).

(** What an optimizer call of one attempt receives from the enclosing [gen]. *)
Abbreviation optimizer_args_of :=
  (fun (L : Flat.GenLocals) (o : Flat.AcqfOptimizerArgs) =>
     Flat.ao_bounds o = Flat.gl_bounds_ L /\
     Flat.ao_n o = Flat.gl_n L /\
     Flat.ao_fixed_features o = Flat.gl_fixed_features L /\
     Flat.ao_rounding_func o = Flat.gl_botorch_rounding_func L /\
     Flat._to_inequality_constraints C (Flat.gl_linear_constraints L) =
       Ok (Flat.ao_inequality_constraints o) /\
     Flat.gl_optimizer_options L = VDict (Flat.ao_kwargs o)).

Lemma acqf_optimizer_calls_app (l1 l2 : FTrace) :
  acqf_optimizer_calls (l1 ++ l2) = acqf_optimizer_calls l1 ++ acqf_optimizer_calls l2.
Proof. apply omap_app. Qed.

Lemma kw_splat_Ok (named : gset string) (v : PyVal) (kw : gmap string PyVal) :
  kw_splat named v = Ok kw -> v = VDict kw.
Proof.
  destruct v; simpl; try discriminate. case_bool_decide; [|discriminate].
  by intros [= ->].
Qed.

(** One attempt: its events, and what its optimizer call receives. *)
Lemma make_and_optimize_acqf_optimizer (L : Flat.GenLocals) (b : bool) (st : FState) :
  exists evs,
    trace (Flat.make_and_optimize_acqf C L b st).2 = trace st ++ evs /\
    Forall generation_call evs /\
    (forall o, o ∈ acqf_optimizer_calls evs -> optimizer_args_of L o) /\
    (is_ok (Flat.make_and_optimize_acqf C L b st).1 = true ->
     acqf_optimizer_calls evs <> []) /\
    (is_ok (kw_splat Flat.optimizer_keywords (Flat.gl_optimizer_options L)) = false ->
     acqf_optimizer_calls evs = []).
Proof.
  unfold Flat.make_and_optimize_acqf. unfold_monad.
  destruct (kw_splat Flat.acqf_keywords (Flat.gl_acf_options L)) as [kw0|e0];
    [|exists []; rewrite app_nil_r; split_and!;
      [done|apply Forall_nil_2|by intros o ?%elem_of_nil|done|done]].
  destruct (kw_splat_more Flat.acqf_keywords kw0 (Flat.add_kwargs b)) as [kw|e1];
    [|exists []; rewrite app_nil_r; split_and!;
      [done|apply Forall_nil_2|by intros o ?%elem_of_nil|done|done]].
  destruct (Flat.acqf_constructor C (Flat.acqf_args L kw) (env st)) as [[f|e2] e'];
    simpl; [|eexists; split_and!;
      [reflexivity|by repeat constructor|by intros o ?%elem_of_nil|done|done]].
  destruct (Flat.checked_cast_AcquisitionFunction C f) as [f1|e3];
    simpl; [|eexists; split_and!;
      [reflexivity|by repeat constructor|by intros o ?%elem_of_nil|done|done]].
  destruct (Flat.checked_cast_AcquisitionFunction C f1) as [f2|e4];
    simpl; [|eexists; split_and!;
      [reflexivity|by repeat constructor|by intros o ?%elem_of_nil|done|done]].
  destruct (Flat._to_inequality_constraints C (Flat.gl_linear_constraints L))
    as [ic|e5] eqn:Hic; simpl; [|eexists; split_and!;
      [reflexivity|by repeat constructor|by intros o ?%elem_of_nil|done|done]].
  destruct (kw_splat Flat.optimizer_keywords (Flat.gl_optimizer_options L))
    as [okw|e6] eqn:Hokw; simpl; [|eexists; split_and!;
      [reflexivity|by repeat constructor|by intros o ?%elem_of_nil|done|done]].
  apply kw_splat_Ok in Hokw.
  match goal with |- context [Flat.acqf_optimizer C ?a ?e] =>
    destruct (Flat.acqf_optimizer C a e) as [r e''] end.
  simpl. eexists. split; [by rewrite <- app_assoc|].
  split; [by repeat constructor|]. simpl.
  split; [|done]. intros o ->%list_elem_of_singleton. simpl. done.
Qed.

(** The [try] statement, likewise. *)
Lemma optimize_with_fallback_optimizer (L : Flat.GenLocals) (st : FState) :
  exists evs,
    trace (Flat.optimize_with_fallback C L st).2 = trace st ++ evs /\
    Forall generation_call evs /\
    (forall o, o ∈ acqf_optimizer_calls evs -> optimizer_args_of L o) /\
    (is_ok (Flat.optimize_with_fallback C L st).1 = true ->
     acqf_optimizer_calls evs <> []) /\
    (is_ok (kw_splat Flat.optimizer_keywords (Flat.gl_optimizer_options L)) = false ->
     acqf_optimizer_calls evs = []).
Proof.
  unfold Flat.optimize_with_fallback, try_except.
  destruct (make_and_optimize_acqf_optimizer L false st)
    as (evs1 & Htr1 & Hg1 & Ho1 & Hok1 & Hno1).
  destruct (Flat.make_and_optimize_acqf C L false st) as [[r|e] st1]; simpl in *;
    [by exists evs1|].
  destruct (is_UnsupportedError e); [|by exists evs1].
  destruct (str_contains Flat.sobol_limit_message (exn_msg e)); [|by exists evs1].
  destruct (make_and_optimize_acqf_optimizer L true st1)
    as (evs2 & Htr2 & Hg2 & Ho2 & Hok2 & Hno2).
  exists (evs1 ++ evs2). rewrite Htr2, Htr1, app_assoc.
  split; [done|]. split; [by apply Forall_app|].
  rewrite acqf_optimizer_calls_app. split_and!.
  - intros o [?|?]%elem_of_app; auto.
  - intros Hok Happ. apply app_eq_nil in Happ as [_ Happ]. by apply Hok2.
  - intros Hbad. by rewrite Hno1, Hno2.
Qed.

(** The prologue: its events, and the values the attempts close over. *)
Lemma gen_prologue_calls (a : GenArgs Scalar) (st : FState) :
  exists evs,
    trace (Flat.gen_prologue C a st).2 = trace st ++ evs /\
    Forall generation_call evs /\
    Flat.acqf_constructor_calls evs = [] /\
    acqf_optimizer_calls evs = [].
Proof.
  unfold Flat.gen_prologue.
  destruct (truthy_dict (target_fidelities (spec a)));
    [exists []; by rewrite app_nil_r|].
  unfold_monad.
  match goal with |- context [Flat._get_X_pending_and_observed C ?x ?e] =>
    destruct (Flat._get_X_pending_and_observed C x e) as [[[Xp Xo]|e1] e'] end;
    simpl; [|eexists; split; [reflexivity|split; [by repeat constructor|done]]].
  destruct (truthy _); simpl.
  - match goal with |- context [Flat.subset_model C ?x ?y ?z ?e] =>
      destruct (Flat.subset_model C x y z e) as [[r|e2] e''] end;
      simpl; [|eexists; split;
               [by rewrite <- app_assoc|split; [by repeat constructor|done]]].
    destruct (transpose01 _); simpl; eexists;
      (split; [by rewrite <- app_assoc|split; [by repeat constructor|done]]).
  - destruct (transpose01 _); simpl; eexists;
      (split; [reflexivity|split; [by repeat constructor|done]]).
Qed.

Lemma gen_prologue_locals (a : GenArgs Scalar) (st st' : FState) (L : Flat.GenLocals) :
  Flat.gen_prologue C a st = (Ok L, st') ->
  let options := or_empty (model_gen_options (spec a)) in
  bounds (spec a) <> [] /\
  Flat.gl_bounds_ L =
    lower_upper (bounds (spec a)) (default default_dtype (Flat.dtype (self st)))
                (default cpu (Flat.device (self st))) /\
  Flat.gl_n L = n a /\
  Flat.gl_fixed_features L = fixed_features (spec a) /\
  Flat.gl_botorch_rounding_func L = get_rounding_func (rounding_func a) /\
  Flat.gl_linear_constraints L = linear_constraints (spec a) /\
  Flat.gl_acf_options L =
    dict_get options (ACQF_KWARGS (Flat.Keys C)) (VDict ∅) /\
  Flat.gl_optimizer_options L =
    dict_get options (OPTIMIZER_KWARGS (Flat.Keys C)) (VDict ∅).
Proof.
  intros Hrun. cbv zeta. unfold Flat.gen_prologue in Hrun.
  destruct (truthy_dict _); [discriminate|].
  apply bindM_Ok_inv in Hrun as (s0 & s1 & H0 & Hrun).
  injection H0 as <- <-.
  apply bindM_Ok_inv in Hrun as ([Xp Xo] & s2 & H2 & Hrun).
  apply call_inv in H2 as (e2 & _ & ->).
  apply bindM_Ok_inv in Hrun as (s3 & s4 & H3 & Hrun).
  injection H3 as <- <-.
  apply bindM_Ok_inv in Hrun as ([[m ow] oc] & s5 & H5 & Hrun).
  assert (Hs5 : self s5 = self st).
  { destruct (truthy _).
    - apply bindM_Ok_inv in H5 as (r & s6 & H6 & H5).
      apply call_inv in H6 as (e6 & _ & ->). by injection H5 as _ _ _ <-.
    - by injection H5 as _ _ _ <-. }
  apply bindM_Ok_inv in Hrun as (s6 & s7 & H6 & Hrun).
  injection H6 as <- <-.
  apply bindM_Ok_inv in Hrun as (bd & s8 & H8 & Hrun).
  apply liftR_inv in H8 as [H8 ->].
  injection Hrun as <- _. simpl.
  rewrite transposed_bounds, Hs5 in H8.
  destruct (bounds (spec a)) as [|p bs] eqn:Hb; [discriminate|].
  injection H8 as <-. done.
Qed.

(** The events of [gen] are those of its prologue followed by those of the
    [try] statement. *)
Lemma gen_events (a : GenArgs Scalar) (st : FState) :
  exists evs0,
    trace (Flat.gen_prologue C a st).2 = trace st ++ evs0 /\
    Forall generation_call evs0 /\
    Flat.acqf_constructor_calls evs0 = [] /\
    acqf_optimizer_calls evs0 = [] /\
    match Flat.gen_prologue C a st with
    | (Raise e, st0) =>
        Flat.gen C a st = (Raise e, st0) /\ new_events (Flat.gen C a) st = evs0
    | (Ok L, st0) =>
        exists evs1,
          trace (Flat.optimize_with_fallback C L st0).2 = trace st0 ++ evs1 /\
          new_events (Flat.gen C a) st = evs0 ++ evs1 /\
          (is_ok (Flat.gen C a st).1 = true ->
           is_ok (Flat.optimize_with_fallback C L st0).1 = true)
    end.
Proof.
  destruct (gen_prologue_calls a st) as (evs0 & Htr0 & Hg0 & Hc0 & Ho0).
  exists evs0. do 4 (split; [done|]).
  pose proof (gen_final_state C a st) as Hfin.
  destruct (Flat.gen_prologue C a st) as [[L|e] st0] eqn:Hpro; simpl in *.
  - destruct (optimize_with_fallback_trace C L st0) as (evs1 & Htr1 & _).
    exists evs1. split; [done|].
    split.
    + apply new_events_app. destruct Hfin as [_ ->]. by rewrite Htr1, Htr0, app_assoc.
    + unfold Flat.gen, bindM. rewrite Hpro.
      by destruct (Flat.optimize_with_fallback C L st0) as [[r|e] st1].
  - split; [|apply new_events_app; by rewrite Hfin].
    unfold Flat.gen, bindM. by rewrite Hpro.
Qed.

(** X10.  What the optimizer receives from [gen].  Every optimizer call that
    [gen] makes gets: as bounds the 2 x d tensor whose first row holds the
    lower bounds and whose second row holds the upper bounds, in the dtype and
    on the device stored by [fit] (the defaults before any [fit]); the
    caller's [n] and fixed features; the caller's rounding function wrapped by
    [get_rounding_func]; the linear constraints converted by
    [_to_inequality_constraints]; and the [optimizer_kwargs] dictionary of the
    options.  A [gen] that returns made at least one such call. *)
Theorem gen_optimizer_arguments (a : GenArgs Scalar) (st : FState) :
  let options := or_empty (model_gen_options (spec a)) in
  (forall o, o ∈ acqf_optimizer_calls (new_events (Flat.gen C a) st) ->
     Flat.ao_bounds o =
       lower_upper (bounds (spec a)) (default default_dtype (Flat.dtype (self st)))
                   (default cpu (Flat.device (self st))) /\
     Flat.ao_n o = n a /\
     Flat.ao_fixed_features o = fixed_features (spec a) /\
     Flat.ao_rounding_func o = get_rounding_func (rounding_func a) /\
     Flat._to_inequality_constraints C (linear_constraints (spec a)) =
       Ok (Flat.ao_inequality_constraints o) /\
     dict_get options (OPTIMIZER_KWARGS (Flat.Keys C)) (VDict ∅) =
       VDict (Flat.ao_kwargs o)) /\
  (is_ok (Flat.gen C a st).1 = true ->
   acqf_optimizer_calls (new_events (Flat.gen C a) st) <> []).
Proof.
  cbv zeta.
  destruct (gen_events a st) as (evs0 & Htr0 & Hg0 & Hc0 & Ho0 & Hgen).
  destruct (Flat.gen_prologue C a st) as [[L|e] st0] eqn:Hpro.
  - destruct Hgen as (evs1 & Htr1 & -> & Hok).
    destruct (optimize_with_fallback_optimizer L st0)
      as (evs1' & Htr1' & _ & Hargs & Hsome & _).
    rewrite Htr1 in Htr1'. apply app_inv_head in Htr1' as <-.
    rewrite acqf_optimizer_calls_app, Ho0. simpl.
    destruct (gen_prologue_locals a st st0 L Hpro)
      as (_ & Hb & Hn & Hff & Hrf & Hlc & _ & Hoo).
    split; [|by intros ?%Hok%Hsome].
    intros o Ho. destruct (Hargs o Ho) as (-> & -> & -> & -> & Hic & Hkw).
    rewrite <- Hlc, <- Hoo. done.
  - destruct Hgen as [-> ->]. rewrite Ho0. split; [|done].
    by intros o ?%elem_of_nil.
Qed.

(** X11.  [gen] on an empty list of bounds.  The bounds tensor is then
    one-dimensional and cannot be transposed: [gen] does not return, and it
    stops before any acquisition function is built or optimised. *)
Theorem gen_empty_bounds (a : GenArgs Scalar) (st : FState) :
  bounds (spec a) = [] ->
  is_ok (Flat.gen C a st).1 = false /\
  Flat.acqf_constructor_calls (new_events (Flat.gen C a) st) = [] /\
  acqf_optimizer_calls (new_events (Flat.gen C a) st) = [].
Proof.
  intros Hb.
  destruct (gen_events a st) as (evs0 & Htr0 & Hg0 & Hc0 & Ho0 & Hgen).
  destruct (Flat.gen_prologue C a st) as [[L|e] st0] eqn:Hpro.
  - by destruct (gen_prologue_locals a st st0 L Hpro) as (Hne & _).
  - destruct Hgen as [-> ->]. done.
Qed.

(** X12.  What [gen] never calls.  Every call that [gen] makes is a call of
    [_get_X_pending_and_observed], of [subset_model], of the acquisition
    constructor or of the optimizer: [gen] never builds a model, never asks
    for predictions, never takes a snapshot of the model's parameters and
    never asks for the best point. *)
Theorem gen_only_generation_calls (a : GenArgs Scalar) (st : FState) :
  Forall (fun ev => is_generation_call ev.1 = true) (new_events (Flat.gen C a) st) /\
  Flat.model_constructor_calls (new_events (Flat.gen C a) st) = [].
Proof.
  assert (Hall : Forall generation_call (new_events (Flat.gen C a) st)).
  { destruct (gen_events a st) as (evs0 & Htr0 & Hg0 & Hc0 & Ho0 & Hgen).
    destruct (Flat.gen_prologue C a st) as [[L|e] st0] eqn:Hpro.
    - destruct Hgen as (evs1 & Htr1 & -> & _).
      destruct (optimize_with_fallback_optimizer L st0) as (evs1' & Htr1' & Hg1 & _).
      rewrite Htr1 in Htr1'. apply app_inv_head in Htr1' as <-.
      by apply Forall_app.
    - by destruct Hgen as [_ ->]. }
  split; [done|].
  induction Hall as [|[ev e] evs Hev _ IH]; [done|].
  unfold Flat.model_constructor_calls in *. simpl.
  destruct ev; simpl in *; done.
Qed.

(** X13.  Option dictionaries that [gen] cannot pass on.  When the
    [acquisition_function_kwargs] entry of the options is not a dictionary, or
    names an argument that [gen] passes itself, no acquisition function is
    ever built; when the [optimizer_kwargs] entry is not a dictionary, or
    names an argument that [gen] passes itself, the optimizer is never called.
    In both cases [gen] does not return. *)
Theorem gen_rejects_option_keywords (a : GenArgs Scalar) (st : FState) :
  let options := or_empty (model_gen_options (spec a)) in
  (is_ok (kw_splat Flat.acqf_keywords
            (dict_get options (ACQF_KWARGS (Flat.Keys C)) (VDict ∅))) = false ->
   is_ok (Flat.gen C a st).1 = false /\
   Flat.acqf_constructor_calls (new_events (Flat.gen C a) st) = []) /\
  (is_ok (kw_splat Flat.optimizer_keywords
            (dict_get options (OPTIMIZER_KWARGS (Flat.Keys C)) (VDict ∅))) = false ->
   is_ok (Flat.gen C a st).1 = false /\
   acqf_optimizer_calls (new_events (Flat.gen C a) st) = []).
Proof.
  cbv zeta.
  destruct (gen_events a st) as (evs0 & Htr0 & Hg0 & Hc0 & Ho0 & Hgen).
  destruct (Flat.gen_prologue C a st) as [[L|e] st0] eqn:Hpro.
  2:{ destruct Hgen as [-> ->]. done. }
  destruct Hgen as (evs1 & Htr1 & -> & Hok).
  destruct (gen_prologue_locals a st st0 L Hpro) as (_ & _ & _ & _ & _ & _ & Hao & Hoo).
  rewrite <- Hao, <- Hoo. split.
  - intros Hbad.
    assert (Hattempt : forall b s,
      is_ok (Flat.make_and_optimize_acqf C L b s).1 = false /\
      exists evs, trace (Flat.make_and_optimize_acqf C L b s).2 = trace s ++ evs /\
                  Flat.acqf_constructor_calls evs = []).
    { intros b s. pose proof (make_and_optimize_acqf_trace C L b s) as (evs & Htr & _ & Hc).
      destruct (kw_splat Flat.acqf_keywords (Flat.gl_acf_options L)); [done|].
      destruct Hc as [-> Hr]. rewrite Hr. split; [done|]. by exists []. }
    assert (Hfb : is_ok (Flat.optimize_with_fallback C L st0).1 = false /\
                  Flat.acqf_constructor_calls evs1 = []).
    { revert Htr1. unfold Flat.optimize_with_fallback, try_except.
      destruct (Hattempt false st0) as (Hn1 & e1 & Ht1 & Hc1).
      destruct (Flat.make_and_optimize_acqf C L false st0) as [[r|e] st1];
        simpl in *; [discriminate|].
      destruct (is_UnsupportedError e);
        [|simpl; rewrite Ht1; by intros <-%app_inv_head].
      destruct (str_contains _ _);
        [|simpl; rewrite Ht1; by intros <-%app_inv_head].
      destruct (Hattempt true st1) as (Hn2 & e2 & Ht2 & Hc2).
      rewrite Ht2, Ht1, <- app_assoc. intros <-%app_inv_head.
      by rewrite acqf_constructor_calls_app, Hc1, Hc2. }
    destruct Hfb as [Hn Hc1]. split.
    + destruct (is_ok (Flat.gen C a st).1) eqn:Hg; [|done].
      by rewrite Hok in Hn.
    + by rewrite acqf_constructor_calls_app, Hc0, Hc1.
  - intros Hbad.
    destruct (optimize_with_fallback_optimizer L st0)
      as (evs1' & Htr1' & _ & _ & Hsome & Hnone).
    rewrite Htr1 in Htr1'. apply app_inv_head in Htr1' as <-.
    specialize (Hnone Hbad). split.
    + destruct (is_ok (Flat.gen C a st).1) eqn:Hg; [|done].
      exfalso. by apply (Hsome (Hok eq_refl)).
    + by rewrite acqf_optimizer_calls_app, Ho0, Hnone.
Qed.

End FlatGeneration.

(** ** The modular facade, continued *)

Section ModularGeneration.
Context {Scalar : Type} `{ScalarOps Scalar}.
Context {Surrogate Acquisition AcquisitionClass BotorchAcqfClass Ext : Type}.
Variable C :
  Modular.Collaborators Scalar Surrogate Acquisition AcquisitionClass
    BotorchAcqfClass Ext.

Abbreviation MState :=
  (St (Scalar:=Scalar) (Ext:=Ext)
      (Modular.BoTorchModel Scalar Surrogate AcquisitionClass BotorchAcqfClass)
      (Modular.Event Scalar Surrogate Acquisition AcquisitionClass BotorchAcqfClass)).
Abbreviation MTrace :=
  (list (Modular.Event Scalar Surrogate Acquisition AcquisitionClass BotorchAcqfClass
         * Env Scalar Ext)).
Abbreviation not_choose_call :=
  (fun ev : Modular.Event Scalar Surrogate Acquisition AcquisitionClass
              BotorchAcqfClass * Env Scalar Ext =>
     is_choose_acqf_class_call ev.1 = false).

(** [_instantiate_acquisition], step by step. *)
Lemma instantiate_acquisition_run (sp : ObjectiveSpec Scalar)
    (pending : option (list (Tensor Scalar))) (o : PyVal Scalar) (st : MState) :
  let build (st1 : MState) (c : BotorchAcqfClass) :=
    match Modular._surrogate (self st) with
    | Some sg =>
        call (Modular.CallAcquisitionClass (Modular.acquisition_class (self st))
                (acquisition_args sp pending o sg c))
             (Modular.new_acquisition C (Modular.acquisition_class (self st))
                (acquisition_args sp pending o sg c)) st1
    | None => (Raise Modular.surrogate_not_set, st1)
    end in
  Modular._instantiate_acquisition C sp pending o st =
    match Modular._botorch_acqf_class (self st) with
    | Some c0 => build st c0
    | None =>
        match Modular.choose_botorch_acqf_class C (env st) with
        | (Ok c, e1) =>
            build (mkSt (Modular.with_botorch_acqf_class (Some c) (self st)) e1
                        (trace st ++ [(Modular.CallChooseBotorchAcqfClass, env st)]))
                  c
        | (Raise e, e1) =>
            (Raise e,
             mkSt (self st) e1
                  (trace st ++ [(Modular.CallChooseBotorchAcqfClass, env st)]))
        end
    end.
Proof.
  cbv zeta. unfold Modular._instantiate_acquisition, Modular.surrogate,
    Modular.botorch_acqf_class. unfold_monad.
  destruct (Modular._botorch_acqf_class (self st)) as [c0|] eqn:Hc; simpl.
  - destruct (Modular._surrogate (self st)); [rewrite Hc|]; by destruct st.
  - destruct (Modular.choose_botorch_acqf_class C (env st)) as [[c|e] e1]; simpl;
      [|done].
    by destruct (Modular._surrogate (self st)).
Qed.

(** X14.  The acquisition-function class is chosen once and remembered.  When
    the facade has a class, [_instantiate_acquisition] does not call
    [choose_botorch_acqf_class] and leaves the facade as it is.  When it has
    none, the first thing [_instantiate_acquisition] does is to call
    [choose_botorch_acqf_class]; if that raises, so does
    [_instantiate_acquisition], and the facade is unchanged; if it returns a
    class, the facade holds that class from then on, also when the surrogate
    is missing or the acquisition cannot be built.  No other attribute is
    ever assigned. *)
Theorem acquisition_class_chosen_once (sp : ObjectiveSpec Scalar)
    (pending : option (list (Tensor Scalar))) (o : PyVal Scalar) (st : MState) :
  let out := Modular._instantiate_acquisition C sp pending o st in
  Modular._surrogate (self out.2) = Modular._surrogate (self st) /\
  Modular.surrogate_fit_options (self out.2) = Modular.surrogate_fit_options (self st) /\
  Modular.acquisition_class (self out.2) = Modular.acquisition_class (self st) /\
  Modular.acquisition_options (self out.2) = Modular.acquisition_options (self st) /\
  match Modular._botorch_acqf_class (self st) with
  | Some c0 =>
      self out.2 = self st /\
      Forall (fun ev => is_choose_acqf_class_call ev.1 = false)
             (new_events (Modular._instantiate_acquisition C sp pending o) st)
  | None =>
      head (new_events (Modular._instantiate_acquisition C sp pending o) st) =
        Some (Modular.CallChooseBotorchAcqfClass, env st) /\
      match Modular.choose_botorch_acqf_class C (env st) with
      | (Ok c, _) => Modular._botorch_acqf_class (self out.2) = Some c
      | (Raise e, _) => out.1 = Raise e /\ self out.2 = self st
      end
  end.
Proof.
  cbv zeta. unfold new_events. rewrite instantiate_acquisition_run.
  destruct (Modular._botorch_acqf_class (self st)) as [c0|] eqn:Hc.
  - destruct (Modular._surrogate (self st)) as [sg|] eqn:Hsg; simpl.
    + unfold call.
      match goal with |- context [Modular.new_acquisition C ?x ?y ?e] =>
        destruct (Modular.new_acquisition C x y e) as [r e'] end.
      simpl. rewrite drop_app_length. do 5 (split; [done|]). by repeat constructor.
    + rewrite drop_all. done.
  - destruct (Modular.choose_botorch_acqf_class C (env st)) as [[c|e] e1]; simpl.
    + destruct (Modular._surrogate (self st)) as [sg|] eqn:Hsg; simpl.
      * unfold call. simpl.
        match goal with |- context [Modular.new_acquisition C ?x ?y ?e] =>
          destruct (Modular.new_acquisition C x y e) as [r e'] end.
        simpl. rewrite <- app_assoc, drop_app_length. done.
      * rewrite drop_app_length. done.
    + rewrite drop_app_length. done.
Qed.

Lemma acquisition_class_calls_app (l1 l2 : MTrace) :
  acquisition_class_calls (l1 ++ l2) =
    acquisition_class_calls l1 ++ acquisition_class_calls l2.
Proof. apply omap_app. Qed.

Lemma acquisition_optimize_calls_app (l1 l2 : MTrace) :
  acquisition_optimize_calls (l1 ++ l2) =
    acquisition_optimize_calls l1 ++ acquisition_optimize_calls l2.
Proof. apply omap_app. Qed.

(** The events of [_instantiate_acquisition] and the acquisition it builds. *)
Lemma instantiate_acquisition_events (sp : ObjectiveSpec Scalar)
    (pending : option (list (Tensor Scalar))) (o : PyVal Scalar) (st : MState) :
  let out := Modular._instantiate_acquisition C sp pending o st in
  exists evs,
    trace out.2 = trace st ++ evs /\
    acquisition_optimize_calls evs = [] /\
    Modular._surrogate (self out.2) = Modular._surrogate (self st) /\
    match Modular._surrogate (self st) with
    | None => acquisition_class_calls evs = [] /\ is_ok out.1 = false
    | Some sg =>
        acquisition_class_calls evs = [] /\ is_ok out.1 = false \/
        exists c e,
          Modular._botorch_acqf_class (self out.2) = Some c /\
          acquisition_class_calls evs =
            [(Modular.acquisition_class (self st), acquisition_args sp pending o sg c)] /\
          (Modular.CallAcquisitionClass (Modular.acquisition_class (self st))
             (acquisition_args sp pending o sg c), e) ∈ evs /\
          Modular.new_acquisition C (Modular.acquisition_class (self st))
            (acquisition_args sp pending o sg c) e = (out.1, env out.2)
    end.
Proof.
  cbv zeta. rewrite instantiate_acquisition_run.
  destruct (Modular._botorch_acqf_class (self st)) as [c0|] eqn:Hc.
  - destruct (Modular._surrogate (self st)) as [sg|] eqn:Hsg; simpl.
    + unfold call.
      match goal with |- context [Modular.new_acquisition C ?x ?y ?e] =>
        destruct (Modular.new_acquisition C x y e) as [r e'] eqn:Hnew end.
      simpl. eexists. split; [reflexivity|]. do 2 (split; [done|]).
      right. exists c0, (env st). split; [done|]. split; [done|].
      split; [apply list_elem_of_here|done].
    + exists []. by rewrite app_nil_r.
  - destruct (Modular.choose_botorch_acqf_class C (env st)) as [[c|e] e1]; simpl.
    + destruct (Modular._surrogate (self st)) as [sg|] eqn:Hsg; simpl.
      * unfold call. simpl.
        match goal with |- context [Modular.new_acquisition C ?x ?y ?e] =>
          destruct (Modular.new_acquisition C x y e) as [r e'] eqn:Hnew end.
        simpl. eexists. split; [by rewrite <- app_assoc|]. do 2 (split; [done|]).
        right. exists c, e1. split; [done|]. split; [done|].
        split; [apply list_elem_of_further, list_elem_of_here|done].
      * eexists. split; [reflexivity|]. done.
    + eexists. split; [reflexivity|]. do 2 (split; [done|]).
      destruct (Modular._surrogate (self st)) eqn:Hsg; [left|]; done.
Qed.

(** X15.  What the acquisition class receives.  [_instantiate_acquisition] calls
    the facade's acquisition class at most once, with the facade's surrogate,
    the acquisition-function class the facade holds afterwards (the stored one,
    or the one just chosen) and the caller's bounds, weights, constraints,
    fixed features, pending observations, target fidelities and options; what
    that call returns or raises is the outcome.  If no call is made,
    [_instantiate_acquisition] does not return; without a surrogate no call is
    made. *)
Theorem instantiate_acquisition_arguments (sp : ObjectiveSpec Scalar)
    (pending : option (list (Tensor Scalar))) (o : PyVal Scalar) (st : MState) :
  let out := Modular._instantiate_acquisition C sp pending o st in
  let calls :=
    acquisition_class_calls
      (new_events (Modular._instantiate_acquisition C sp pending o) st) in
  (calls = [] /\ is_ok out.1 = false) \/
  (exists sg c e,
     Modular._surrogate (self st) = Some sg /\
     Modular._botorch_acqf_class (self out.2) = Some c /\
     calls = [(Modular.acquisition_class (self st), acquisition_args sp pending o sg c)] /\
     Modular.new_acquisition C (Modular.acquisition_class (self st))
       (acquisition_args sp pending o sg c) e = (out.1, env out.2)).
Proof.
  cbv zeta.
  destruct (instantiate_acquisition_events sp pending o st)
    as (evs & Htr & _ & _ & Hcalls).
  rewrite (new_events_app _ _ _ Htr).
  destruct (Modular._surrogate (self st)) as [sg|]; [|by left].
  destruct Hcalls as [?|(c & e & Hc & Hcalls & _ & Hnew)]; [by left|].
  right. by exists sg, c, e.
Qed.

(** [_bounds_as_tensor], step by step. *)
Lemma bounds_as_tensor_run (bounds_ : Bounds Scalar) (st : MState) :
  Modular._bounds_as_tensor C bounds_ st =
    match Modular._surrogate (self st) with
    | None => (Raise Modular.surrogate_not_set, st)
    | Some sg =>
        match Modular.surrogate_dtype C sg (env st) with
        | (Raise e, e1) =>
            (Raise e,
             mkSt (self st) e1 (trace st ++ [(Modular.CallSurrogateDtype sg, env st)]))
        | (Ok dt, e1) =>
            match Modular.surrogate_device C sg e1 with
            | (Raise e, e2) =>
                (Raise e,
                 mkSt (self st) e2
                      (trace st ++ [(Modular.CallSurrogateDtype sg, env st);
                                    (Modular.CallSurrogateDevice sg, e1)]))
            | (Ok dv, e2) =>
                (match bounds_ with
                 | [] => Raise (mkExn IndexError "Dimension out of range")
                 | _ => Ok (lower_upper bounds_ dt dv)
                 end,
                 mkSt (self st) e2
                      (trace st ++ [(Modular.CallSurrogateDtype sg, env st);
                                    (Modular.CallSurrogateDevice sg, e1)]))
            end
        end
    end.
Proof.
  unfold Modular._bounds_as_tensor, Modular.surrogate. unfold_monad.
  destruct (Modular._surrogate (self st)) as [sg|] eqn:Hsg; simpl; [|by destruct st].
  destruct (Modular.surrogate_dtype C sg (env st)) as [[dt|e] e1]; simpl; [|done].
  rewrite Hsg. simpl.
  destruct (Modular.surrogate_device C sg e1) as [[dv|e] e2]; simpl;
    [|by rewrite <- app_assoc].
  rewrite transposed_bounds, <- app_assoc. simpl. by destruct bounds_.
Qed.

(** X16.  The bounds tensor of the modular facade.  When [_bounds_as_tensor]
    returns, it returns the 2 x d tensor whose first row holds the lower
    bounds and whose second row holds the upper bounds, in the dtype and on
    the device that the facade's surrogate reported, first the dtype, then the
    device.  It never returns for an empty list of bounds or when the facade
    has no surrogate, and it assigns nothing. *)
Theorem bounds_as_tensor_value (bounds_ : Bounds Scalar) (st : MState) :
  let out := Modular._bounds_as_tensor C bounds_ st in
  self out.2 = self st /\
  (bounds_ = [] \/ Modular._surrogate (self st) = None -> is_ok out.1 = false) /\
  (forall t, out.1 = Ok t ->
     exists sg dt dv e1,
       Modular._surrogate (self st) = Some sg /\
       Modular.surrogate_dtype C sg (env st) = (Ok dt, e1) /\
       Modular.surrogate_device C sg e1 = (Ok dv, env out.2) /\
       t = lower_upper bounds_ dt dv).
Proof.
  cbv zeta. rewrite bounds_as_tensor_run.
  destruct (Modular._surrogate (self st)) as [sg|]; simpl.
  2:{ split; [done|]. split; [done|]. discriminate. }
  destruct (Modular.surrogate_dtype C sg (env st)) as [[dt|e] e1] eqn:Hdt; simpl.
  2:{ split; [done|]. split; [done|]. discriminate. }
  destruct (Modular.surrogate_device C sg e1) as [[dv|e] e2] eqn:Hdv; simpl.
  2:{ split; [done|]. split; [done|]. discriminate. }
  split; [done|]. split.
  - intros [->|?]; done.
  - intros t Ht. exists sg, dt, dv, e1. do 3 (split; [done|]).
    destruct bounds_; [discriminate|]. by injection Ht as <-.
Qed.

(** X17.  The optimizer call of the modular [gen].  [gen] calls
    [Acquisition.optimize] at most once, and a [gen] that makes no such call
    does not return.  The call is made on the acquisition that
    [_instantiate_acquisition] built, with the bounds as a 2 x d tensor of
    lower and upper bounds in the surrogate's dtype and on its device, the
    caller's [n] and fixed features, the caller's rounding function wrapped by
    [get_rounding_func], and the linear constraints converted by
    [_to_inequality_constraints].  With an empty list of bounds the acquisition
    is still built, but never optimised. *)
Theorem modular_gen_optimize (a : GenArgs Scalar) (st : MState) :
  let calls := acquisition_optimize_calls (new_events (Modular.gen C a) st) in
  (bounds (spec a) = [] -> calls = []) /\
  ((calls = [] /\ is_ok (Modular.gen C a st).1 = false) \/
   exists acqf o sg dt dv e1 e1' e2 e2',
     calls = [(acqf, o)] /\
     Modular._surrogate (self st) = Some sg /\
     Modular.surrogate_dtype C sg e1 = (Ok dt, e1') /\
     Modular.surrogate_device C sg e2 = (Ok dv, e2') /\
     Modular.az_bounds o = lower_upper (bounds (spec a)) dt dv /\
     Modular.az_n o = n a /\
     Modular.az_fixed_features o = fixed_features (spec a) /\
     Modular.az_rounding_func o = get_rounding_func (rounding_func a) /\
     Modular._to_inequality_constraints C (linear_constraints (spec a)) =
       Ok (Modular.az_inequality_constraints o)).
Proof.
  cbv zeta.
  assert (Hrun : exists evs,
    trace (Modular.gen C a st).2 = trace st ++ evs /\
    (bounds (spec a) = [] -> acquisition_optimize_calls evs = []) /\
    ((acquisition_optimize_calls evs = [] /\ is_ok (Modular.gen C a st).1 = false) \/
     exists acqf o sg dt dv e1 e1' e2 e2',
       acquisition_optimize_calls evs = [(acqf, o)] /\
       Modular._surrogate (self st) = Some sg /\
       Modular.surrogate_dtype C sg e1 = (Ok dt, e1') /\
       Modular.surrogate_device C sg e2 = (Ok dv, e2') /\
       Modular.az_bounds o = lower_upper (bounds (spec a)) dt dv /\
       Modular.az_n o = n a /\
       Modular.az_fixed_features o = fixed_features (spec a) /\
       Modular.az_rounding_func o = get_rounding_func (rounding_func a) /\
       Modular._to_inequality_constraints C (linear_constraints (spec a)) =
         Ok (Modular.az_inequality_constraints o))).
  { remember (Modular.gen C a st) as run eqn:Hrun.
    unfold Modular.gen in Hrun.
    unfold bindM at 1 in Hrun. unfold get_self at 1 in Hrun.
    unfold bindM at 1 in Hrun. unfold call at 1 in Hrun.
    destruct (Modular.construct_acquisition_and_optimizer_options C
                (Modular.acquisition_options (self st)) (model_gen_options (spec a))
                (env st)) as [[[ao oo]|e0] e0'].
    2:{ subst run. simpl. eexists. split; [reflexivity|]. split; [done|]. by left. }
    unfold bindM at 1 in Hrun.
    match type of Hrun with context [Modular._instantiate_acquisition C ?x ?y ?z ?s] =>
      pose proof (instantiate_acquisition_events x y z s) as (evs1 & Htr1 & Ho1 & Hsg1 & _);
      destruct (Modular._instantiate_acquisition C x y z s) as [[acqf|e1] st1] end;
      simpl in Htr1, Hsg1.
    2:{ subst run. simpl. eexists. split; [by rewrite Htr1, <- app_assoc|].
        rewrite acquisition_optimize_calls_app, Ho1. split; [done|]. by left. }
    unfold bindM at 1 in Hrun. rewrite bounds_as_tensor_run in Hrun.
    destruct (Modular._surrogate (self st1)) as [sg|] eqn:Hsg.
    2:{ subst run. simpl. eexists. split; [by rewrite Htr1, <- app_assoc|].
        rewrite acquisition_optimize_calls_app, Ho1. split; [done|]. by left. }
    destruct (Modular.surrogate_dtype C sg (env st1)) as [[dt|e2] e2'] eqn:Hdt.
    2:{ subst run. simpl. eexists. split; [by rewrite Htr1, <- !app_assoc|].
        rewrite !acquisition_optimize_calls_app, Ho1. split; [done|]. by left. }
    destruct (Modular.surrogate_device C sg e2') as [[dv|e3] e3'] eqn:Hdv.
    2:{ subst run. simpl. eexists. split; [by rewrite Htr1, <- !app_assoc|].
        rewrite !acquisition_optimize_calls_app, Ho1. split; [done|]. by left. }
    destruct (bounds (spec a)) as [|p bs] eqn:Hb.
    { subst run. simpl. eexists. split; [by rewrite Htr1, <- !app_assoc|].
      rewrite !acquisition_optimize_calls_app, Ho1. split; [done|]. by left. }
    unfold bindM at 1 in Hrun. unfold liftR at 1 in Hrun.
    destruct (Modular._to_inequality_constraints C (linear_constraints (spec a)))
      as [ic|e4] eqn:Hic.
    2:{ subst run. simpl. eexists. split; [by rewrite Htr1, <- !app_assoc|].
        rewrite !acquisition_optimize_calls_app, Ho1. split; [done|]. by left. }
    unfold bindM at 1 in Hrun. unfold liftR at 1 in Hrun.
    destruct (Modular.checked_cast_dict C oo) as [okw|e5].
    2:{ subst run. simpl. eexists. split; [by rewrite Htr1, <- !app_assoc|].
        rewrite !acquisition_optimize_calls_app, Ho1. split; [done|]. by left. }
    unfold bindM at 1 in Hrun. unfold call at 1 in Hrun. cbn [env self trace] in Hrun.
    match type of Hrun with context [Modular.acquisition_optimize C ?x ?y ?e] =>
      destruct (Modular.acquisition_optimize C x y e) as [[[cand eav]|e6] e6'] end.
    2:{ subst run. simpl. eexists. split; [by rewrite Htr1, <- !app_assoc|].
        rewrite !acquisition_optimize_calls_app, Ho1. split; [done|].
        right. exists acqf. eexists. exists sg, dt, dv. do 4 eexists.
        split; [reflexivity|]. simpl. rewrite <- Hsg1. split; [done|].
        split; [exact Hdt|]. split; [exact Hdv|]. done. }
    unfold Modular.surrogate in Hrun. unfold_monad. cbn [env self trace] in Hrun.
    rewrite Hsg in Hrun.
    match type of Hrun with context [Modular.surrogate_dtype C sg ?e] =>
      destruct (Modular.surrogate_dtype C sg e) as [[dt'|e7] e7'] end;
      cbn [env self trace fst snd] in Hrun;
      [destruct (torch_ones (n a) (Some dt')); cbn [env self trace fst snd] in Hrun|];
      (subst run; simpl; eexists; split; [by rewrite Htr1, <- !app_assoc|];
       rewrite !acquisition_optimize_calls_app, Ho1; split; [done|];
       right; exists acqf; eexists; exists sg, dt, dv; do 4 eexists;
       split; [reflexivity|]; simpl; rewrite <- Hsg1; split; [done|];
       split; [exact Hdt|]; split; [exact Hdv|]; done). }
  destruct Hrun as (evs & Htr & Hempty & Hcalls).
  by rewrite (new_events_app _ _ _ Htr).
Qed.

End ModularGeneration.

(** ** Feature importances *)

Section Concatenation.
Context {Scalar : Type}.
Implicit Types (t : Tensor Scalar) (ts : list (Tensor Scalar)).

Lemma existsb_false_Forall {A} (p : A -> bool) (l : list A) :
  Forall (fun x => p x = false) l -> existsb p l = false.
Proof. induction 1 as [|x l Hx _ IH]; [done|]. simpl. by rewrite Hx, IH. Qed.

Lemma forallb_true_Forall {A} (p : A -> bool) (l : list A) :
  Forall (fun x => p x = true) l -> forallb p l = true.
Proof. induction 1 as [|x l Hx _ IH]; [done|]. simpl. by rewrite Hx, IH. Qed.

Lemma filter_all {A} (P : A -> Prop) `{forall x, Decision (P x)} (l : list A) :
  Forall P l -> filter P l = l.
Proof.
  induction 1 as [|x l Hx _ IH]; [done|].
  rewrite filter_cons_True by done. by rewrite IH.
Qed.

Lemma sum_size0_ones ts (s : list nat) :
  Forall (fun t => t_shape t = 1 :: s) ts -> sum_list (size0 <$> ts) = length ts.
Proof.
  induction 1 as [|t l Hs _ IH]; [done|].
  cbn [fmap list_fmap sum_list length]. unfold size0 at 1. rewrite Hs. simpl.
  by rewrite <- IH.
Qed.

(** Concatenating tensors that all have shape [1 :: s] and sit on one device
    stacks them: one row per tensor, in order. *)
Lemma cat0_uniform t0 (rest : list (Tensor Scalar)) (s : list nat) :
  Forall (fun t => t_shape t = 1 :: s /\ t_device t = t_device t0) (t0 :: rest) ->
  cat0 (t0 :: rest) =
    Ok {| t_shape := S (length rest) :: s;
          t_data := concat (t_data <$> (t0 :: rest));
          t_dtype := stacked_dtype t0 rest;
          t_device := t_device t0;
          t_requires_grad := existsb t_requires_grad (t0 :: rest) |}.
Proof.
  intros Hall. unfold cat0.
  rewrite existsb_false_Forall.
  2:{ eapply Forall_impl; [exact Hall|]. intros t [Hs _]. simpl.
      apply bool_decide_eq_false_2. by rewrite Hs. }
  rewrite forallb_true_Forall.
  2:{ apply Forall_cons in Hall as [_ Hrest].
      eapply Forall_impl; [exact Hrest|]. intros t [_ Hd]. simpl.
      by apply bool_decide_eq_true_2. }
  cbn [negb].
  rewrite (filter_all (fun t => t_shape t <> [0])).
  2:{ eapply Forall_impl; [exact Hall|]. intros t [Hs _]. simpl.
      rewrite Hs. congruence. }
  pose proof Hall as [[Hs0 _] Hrest]%Forall_cons.
  rewrite forallb_true_Forall.
  2:{ eapply Forall_impl; [exact Hrest|]. intros t [Hs _]. simpl.
      apply bool_decide_eq_true_2. by rewrite Hs, Hs0. }
  cbn [negb]. f_equal. f_equal. rewrite Hs0. cbn [tail]. f_equal.
  rewrite (sum_size0_ones (t0 :: rest) s); [done|].
  eapply Forall_impl; [exact Hall|]. by intros t [Hs _].
Qed.

End Concatenation.

Section FeatureImportances.
Context {Scalar : Type} `{ScalarOps Scalar} {Model Ext : Type}.
Variable C : Importances.Collaborators Scalar Model Ext.

Abbreviation IState :=
  (St (Scalar:=Scalar) (Ext:=Ext) (Flat.BotorchModel Scalar Model)
      (Importances.Event Model)).

(** The sub-models that [feature_importances] loops over. *)
Abbreviation looped_models :=
  (fun (m : Model) (e : Env Scalar Ext) =>
     if Importances.is_ModelListGP C m then Importances.models C m e else [m]).

(** One round of the loop. *)
Lemma collect_lengthscales_cons (m : Model) (ms : list Model) (st : IState) :
  Importances.collect_lengthscales C (m :: ms) st =
    match Importances.lengthscale C m (env st) with
    | (Ok ls, e1) =>
        match Importances.collect_lengthscales C ms
                (mkSt (self st) e1 (trace st ++ [(Importances.ReadLengthscale m, env st)]))
        with
        | (Ok rest, st') =>
            (Ok ((if bool_decide (ndim ls = 2) then unsqueeze0 ls else ls) :: rest), st')
        | (Raise e, st') => (Raise e, st')
        end
    | (Raise e, e1) =>
        (Raise e,
         mkSt (self st) e1 (trace st ++ [(Importances.ReadLengthscale m, env st)]))
    end.
Proof.
  cbn [Importances.collect_lengthscales]. unfold bindM at 1. unfold call at 1.
  destruct (Importances.lengthscale C m (env st)) as [[ls|e] e1]; [|done].
  unfold bindM, retM.
  by destruct (Importances.collect_lengthscales C ms _) as [[r|e] s'].
Qed.

(** The loop reads one lengthscale per model, in order, and stops at the first
    read that raises. *)
Lemma collect_lengthscales_reads (ms : list Model) (st : IState) :
  exists k evs,
    trace (Importances.collect_lengthscales C ms st).2 = trace st ++ evs /\
    evs.*1 = Importances.ReadLengthscale <$> take k ms /\
    self (Importances.collect_lengthscales C ms st).2 = self st /\
    (is_ok (Importances.collect_lengthscales C ms st).1 = true -> k = length ms).
Proof.
  revert st. induction ms as [|m ms IH]; intros st.
  { exists 0, []. simpl. by rewrite app_nil_r. }
  rewrite collect_lengthscales_cons.
  destruct (Importances.lengthscale C m (env st)) as [[ls|e] e1].
  2:{ by exists 1, [(Importances.ReadLengthscale m, env st)]. }
  match goal with |- context [Importances.collect_lengthscales C ms ?s] =>
    destruct (IH s) as (k & evs & Htr & Hev & Hself & Hok);
    destruct (Importances.collect_lengthscales C ms s) as [[r|e] s']
  end; simpl in *.
  - exists (S k), ((Importances.ReadLengthscale m, env st) :: evs).
    rewrite Htr, <- app_assoc. cbn [fmap list_fmap take fst].
    change (list_fmap _ _ fst evs) with (evs.*1). rewrite Hev.
    split; [done|]. split; [done|]. split; [done|]. intros _. by rewrite Hok.
  - exists (S k), ((Importances.ReadLengthscale m, env st) :: evs).
    rewrite Htr, <- app_assoc. cbn [fmap list_fmap take fst].
    change (list_fmap _ _ fst evs) with (evs.*1). rewrite Hev. done.
Qed.

(** When every read returns and leaves the environment alone, the loop
    collects the lengthscales, two-dimensional ones with a leading dimension
    added. *)
Lemma collect_lengthscales_pure (ms : list Model) (lss : list (Tensor Scalar))
    (st : IState) :
  Forall2 (fun m ls => Importances.lengthscale C m (env st) = (Ok ls, env st)) ms lss ->
  Importances.collect_lengthscales C ms st =
    (Ok ((fun ls => if bool_decide (ndim ls = 2) then unsqueeze0 ls else ls) <$> lss),
     mkSt (self st) (env st)
          (trace st ++ ((fun m => (Importances.ReadLengthscale m, env st)) <$> ms))).
Proof.
  intros Hall. revert lss st Hall. induction ms as [|m ms IH]; intros lss st Hall.
  { apply Forall2_nil_inv_l in Hall as ->. simpl. rewrite app_nil_r. by destruct st. }
  apply Forall2_cons_inv_l in Hall as (ls & lss' & Hls & Hall & ->).
  rewrite collect_lengthscales_cons, Hls, (IH lss') by done. simpl.
  by rewrite <- app_assoc.
Qed.

(** X18.  The value of [feature_importances].  Let the facade be fitted, and let
    every model it loops over (the sub-models of a [ModelListGP], else the
    model itself) have a lengthscale of one and the same two-dimensional shape
    [(a, d)] on one device, read without side effect.  If there is at least
    one model, [feature_importances] returns an array of shape
    [(number of models, a, d)] holding the reciprocals of the lengthscales,
    model after model; the facade and the environment are as before, and the
    trace shows one read per model, in order. *)
Theorem feature_importances_value (st : IState) (mdl m0 : Model)
    (ms : list Model) (lss : list (Tensor Scalar)) (a d : nat) (dv : Device) :
  Flat.model (self st) = Some mdl ->
  looped_models mdl (env st) = m0 :: ms ->
  Forall2 (fun m ls => Importances.lengthscale C m (env st) = (Ok ls, env st))
          (m0 :: ms) lss ->
  Forall (fun ls => t_shape ls = [a; d] /\ t_device ls = dv) lss ->
  exists arr st',
    Importances.feature_importances C st = (Ok arr, st') /\
    a_shape arr = [S (length ms); a; d] /\
    a_data arr = Importances.reciprocal C <$> concat (t_data <$> lss) /\
    self st' = self st /\ env st' = env st /\
    trace st' =
      trace st ++ ((fun m => (Importances.ReadLengthscale m, env st)) <$> (m0 :: ms)).
Proof.
  intros Hm Hms Hreads Hshapes.
  unfold Importances.feature_importances. unfold bindM at 1. unfold get_self at 1.
  rewrite Hm. unfold bindM at 1.
  assert (Hmodels :
    (if Importances.is_ModelListGP C mdl
     then on_env (fun e => (Importances.models C mdl e, e))
     else retM [mdl]) st = (Ok (m0 :: ms), st)).
  { cbv beta in Hms. revert Hms.
    destruct (Importances.is_ModelListGP C mdl); intros Hms;
      unfold on_env, retM.
    - rewrite Hms. by destruct st.
    - by rewrite <- Hms. }
  rewrite Hmodels. unfold bindM at 1.
  rewrite (collect_lengthscales_pure (m0 :: ms) lss st Hreads).
  pose proof (Forall2_length _ _ _ Hreads) as Hlen.
  destruct lss as [|l0 lss']; [discriminate|].
  set (norm := fun ls : Tensor Scalar =>
                 if bool_decide (ndim ls = 2) then unsqueeze0 ls else ls).
  assert (Hnorm : forall ls, t_shape ls = [a; d] -> norm ls = unsqueeze0 ls).
  { intros ls Hs. unfold norm, ndim. by rewrite Hs. }
  assert (Hall : Forall (fun t => t_shape t = 1 :: [a; d] /\
                                  t_device t = t_device (norm l0))
                        (norm l0 :: (norm <$> lss'))).
  { pose proof Hshapes as [[Hs0 Hd0] _]%Forall_cons.
    change (norm l0 :: (norm <$> lss')) with (norm <$> (l0 :: lss')).
    apply Forall_fmap. eapply Forall_impl; [exact Hshapes|].
    intros ls [Hs Hd]. simpl. rewrite !Hnorm by done.
    unfold unsqueeze0, reshaped. simpl. by rewrite Hs, Hd, Hd0. }
  unfold bindM, liftR. cbn [fmap list_fmap].
  rewrite (cat0_uniform (norm l0) (norm <$> lss') [a; d] Hall).
  unfold numpy, to_cpu, detach, one_over. cbn [t_requires_grad t_device].
  rewrite bool_decide_eq_true_2 by done.
  eexists _, _. split; [reflexivity|].
  cbn [a_shape a_data self env trace t_shape t_data].
  rewrite length_fmap. simpl in Hlen.
  split; [f_equal; lia|]. split; [|done].
  f_equal.
  change (norm l0 :: (norm <$> lss')) with (norm <$> (l0 :: lss')).
  f_equal. rewrite <- list_fmap_compose.
  change (t_data l0 :: (t_data <$> lss')) with (t_data <$> (l0 :: lss')).
  apply Forall_fmap_ext_1.
  eapply Forall_impl; [exact Hshapes|]. intros ls [Hs _]. simpl.
  by rewrite Hnorm.
Qed.

(** X19.  When [feature_importances] fails without reading anything.  On a
    facade that was never fitted it raises the [RuntimeError] that says so; on
    a [ModelListGP] without sub-models there is nothing to concatenate and
    [torch.cat] raises [RuntimeError].  In both cases facade, environment and
    trace are as before. *)
Theorem feature_importances_nothing_to_read (st : IState) :
  match Flat.model (self st) with
  | None =>
      Importances.feature_importances C st =
        (Raise Importances.not_fitted_feature_importances, st)
  | Some mdl =>
      looped_models mdl (env st) = [] ->
      exists msg,
        Importances.feature_importances C st = (Raise (mkExn RuntimeError msg), st)
  end.
Proof.
  unfold Importances.feature_importances. unfold_monad.
  destruct (Flat.model (self st)) as [mdl|]; [|done].
  destruct (Importances.is_ModelListGP C mdl); [|discriminate].
  intros ->. simpl. eexists. by destruct st.
Qed.

(** [feature_importances] on a fitted facade: the loop, then the
    concatenation and the conversion. *)
Lemma feature_importances_fitted (st : IState) (mdl : Model) :
  Flat.model (self st) = Some mdl ->
  Importances.feature_importances C st =
    match Importances.collect_lengthscales C (looped_models mdl (env st)) st with
    | (Ok lss, st1) =>
        (t ← cat0 lss;
         numpy (to_cpu (detach (one_over (Importances.reciprocal C) t))), st1)
    | (Raise e, st1) => (Raise e, st1)
    end.
Proof.
  intros Hm. unfold Importances.feature_importances.
  unfold bindM at 1. unfold get_self at 1. rewrite Hm. unfold bindM at 1.
  assert (Hmodels :
    (if Importances.is_ModelListGP C mdl
     then on_env (fun e => (Importances.models C mdl e, e))
     else retM [mdl]) st = (Ok (looped_models mdl (env st)), st)).
  { destruct (Importances.is_ModelListGP C mdl); unfold on_env, retM; by destruct st. }
  rewrite Hmodels. unfold bindM, liftR.
  destruct (Importances.collect_lengthscales C _ st) as [[lss|e] st1]; [|done].
  by destruct (cat0 lss).
Qed.

(** X20.  What [feature_importances] reads.  It assigns no attribute of the
    facade, and all it calls is the lengthscale of the models it loops over:
    one read per model, in the order of the models, up to the first read that
    raises.  When it returns, every model has been read. *)
Theorem feature_importances_reads (st : IState) :
  let out := Importances.feature_importances C st in
  self out.2 = self st /\
  match Flat.model (self st) with
  | None => new_events (Importances.feature_importances C) st = []
  | Some mdl =>
      exists k,
        (new_events (Importances.feature_importances C) st).*1 =
          Importances.ReadLengthscale <$> take k (looped_models mdl (env st)) /\
        (is_ok out.1 = true -> k = length (looped_models mdl (env st)))
  end.
Proof.
  cbv zeta. unfold new_events.
  destruct (Flat.model (self st)) as [mdl|] eqn:Hm.
  2:{ unfold Importances.feature_importances, bindM, get_self. rewrite Hm. simpl.
      by rewrite drop_all. }
  rewrite (feature_importances_fitted st mdl Hm).
  destruct (collect_lengthscales_reads (looped_models mdl (env st)) st)
    as (k & evs & Htr & Hev & Hself & Hok).
  destruct (Importances.collect_lengthscales C (looped_models mdl (env st)) st)
    as [[lss|e] st1]; simpl in *.
  - split; [done|]. exists k. rewrite Htr, drop_app_length. split; [done|].
    intros _. by apply Hok.
  - split; [done|]. exists k. rewrite Htr, drop_app_length. done.
Qed.

End FeatureImportances.

(** ** Fitting the modular facade *)

Section ModularFitting.
Context {Scalar : Type} `{ScalarOps Scalar}.
Context {Surrogate Acquisition AcquisitionClass BotorchAcqfClass Ext : Type}.
Context {ModelClass MllClass TrainingData : Type}.
Variable C :
  Training.Collaborators Scalar Surrogate Ext ModelClass MllClass TrainingData.
Variable CM :
  Modular.Collaborators Scalar Surrogate Acquisition AcquisitionClass
    BotorchAcqfClass Ext.

Abbreviation TEvent :=
  (Training.Event Scalar Surrogate Acquisition AcquisitionClass BotorchAcqfClass
                  ModelClass MllClass TrainingData).
Abbreviation TState :=
  (St (Scalar:=Scalar) (Ext:=Ext)
      (Modular.BoTorchModel Scalar Surrogate AcquisitionClass BotorchAcqfClass)
      TEvent).
Abbreviation not_builds_surrogate :=
  (fun ev : TEvent * Env Scalar Ext => Training.builds_surrogate ev.1 = false).

(** The attributes that [fit] has no business with. *)
Abbreviation same_acquisition_settings :=
  (fun s s' : Modular.BoTorchModel Scalar Surrogate AcquisitionClass BotorchAcqfClass =>
     Modular.acquisition_class s' = Modular.acquisition_class s /\
     Modular._botorch_acqf_class s' = Modular._botorch_acqf_class s /\
     Modular.acquisition_options s' = Modular.acquisition_options s).

(** The property [surrogate] inside [fit]. *)
Lemma training_surrogate_run (st : TState) :
  Training.surrogate st =
    (match Modular._surrogate (self st) with
     | Some sg => Ok sg
     | None => Raise Modular.surrogate_not_set
     end, st).
Proof.
  unfold Training.surrogate, embed, Modular.surrogate, bindM, get_self. simpl.
  destruct (Modular._surrogate (self st)); simpl; rewrite app_nil_r; by destruct st.
Qed.

(** Choosing and building the surrogate, step by step. *)
Lemma ensure_surrogate_run (a : Training.FitArgs Scalar) (st : TState) :
  let opts := Modular.surrogate_fit_options (self st) in
  let sd := dict_get opts (STATE_DICT (Training.Keys C)) VNone in
  let rf := dict_get opts (REFIT_ON_UPDATE (Training.Keys C)) (VBool true) in
  let ev1 :=
    Training.CallChooseModelClass (Training.fa_Xs a) (Training.fa_Ys a)
      (Training.fa_Yvars a) (Training.fa_task_features a)
      (Training.fa_fidelity_features a) in
  Training.ensure_surrogate C a st =
    match Modular._surrogate (self st) with
    | Some _ => (Ok tt, st)
    | None =>
        match Training.choose_model_class C (Training.fa_Xs a) (Training.fa_Ys a)
                (Training.fa_Yvars a) (Training.fa_task_features a)
                (Training.fa_fidelity_features a) (env st) with
        | (Raise e, e1) => (Raise e, mkSt (self st) e1 (trace st ++ [(ev1, env st)]))
        | (Ok mc, e1) =>
            match Training.choose_mll_class C mc sd rf e1 with
            | (Raise e, e2) =>
                (Raise e,
                 mkSt (self st) e2
                      (trace st ++ [(ev1, env st);
                                    (Training.CallChooseMllClass mc sd rf, e1)]))
            | (Ok mll, e2) =>
                match Training.new_surrogate C mc mll e2 with
                | (Raise e, e3) =>
                    (Raise e,
                     mkSt (self st) e3
                          (trace st ++ [(ev1, env st);
                                        (Training.CallChooseMllClass mc sd rf, e1);
                                        (Training.CallSurrogate mc mll, e2)]))
                | (Ok sg, e3) =>
                    (Ok tt,
                     mkSt (Training.with_surrogate (Some sg) (self st)) e3
                          (trace st ++ [(ev1, env st);
                                        (Training.CallChooseMllClass mc sd rf, e1);
                                        (Training.CallSurrogate mc mll, e2)]))
                end
            end
        end
    end.
Proof.
  cbv zeta. unfold Training.ensure_surrogate. unfold_monad.
  destruct (Modular._surrogate (self st)); [by destruct st|].
  destruct (Training.choose_model_class C _ _ _ _ _ (env st)) as [[mc|e] e1];
    simpl; [|done].
  destruct (Training.choose_mll_class C mc _ _ e1) as [[mll|e] e2]; simpl;
    [|by rewrite <- app_assoc].
  destruct (Training.new_surrogate C mc mll e2) as [[sg|e] e3]; simpl;
    by rewrite <- !app_assoc.
Qed.

Lemma surrogate_fit_calls_app (l1 l2 : list (TEvent * Env Scalar Ext)) :
  Training.surrogate_fit_calls (l1 ++ l2) =
    Training.surrogate_fit_calls l1 ++ Training.surrogate_fit_calls l2.
Proof. apply omap_app. Qed.

(** What [ensure_surrogate] leaves behind. *)
Lemma ensure_surrogate_trace (a : Training.FitArgs Scalar) (st : TState) :
  let out := Training.ensure_surrogate C a st in
  exists evs,
    trace out.2 = trace st ++ evs /\
    Training.surrogate_fit_calls evs = [] /\
    Modular.surrogate_fit_options (self out.2) = Modular.surrogate_fit_options (self st) /\
    same_acquisition_settings (self st) (self out.2) /\
    (forall sg0, Modular._surrogate (self st) = Some sg0 -> out = (Ok tt, st)) /\
    (is_ok out.1 = true -> is_Some (Modular._surrogate (self out.2))).
Proof.
  cbv zeta. rewrite ensure_surrogate_run.
  destruct (Modular._surrogate (self st)) as [sg0|] eqn:Hsg.
  { exists []. rewrite app_nil_r. simpl. rewrite Hsg. by repeat split. }
  destruct (Training.choose_model_class C _ _ _ _ _ (env st)) as [[mc|e] e1];
    [|eexists; split; [reflexivity|]; by repeat split].
  destruct (Training.choose_mll_class C mc _ _ e1) as [[mll|e] e2];
    [|eexists; split; [reflexivity|]; by repeat split].
  destruct (Training.new_surrogate C mc mll e2) as [[sg|e] e3];
    eexists; (split; [reflexivity|]); by repeat split.
Qed.

(** The prologue, from the state [ensure_surrogate] ended in. *)
Lemma fit_prologue_run (a : Training.FitArgs Scalar) (st : TState) :
  let ev0 :=
    Training.CallValidateDataFormat (Training.fa_Xs a) (Training.fa_Ys a)
      (Training.fa_Yvars a) (Training.fa_metric_names a) in
  Training.fit_prologue C a st =
    match Training.validate_data_format C (Training.fa_Xs a) (Training.fa_Ys a)
            (Training.fa_Yvars a) (Training.fa_metric_names a) (env st) with
    | (Raise e, e0) => (Raise e, mkSt (self st) e0 (trace st ++ [(ev0, env st)]))
    | (Ok _, e0) =>
        match Training.ensure_surrogate C a
                (mkSt (self st) e0 (trace st ++ [(ev0, env st)])) with
        | (Raise e, st1) => (Raise e, st1)
        | (Ok _, st1) =>
            match Modular._surrogate (self st1) with
            | None => (Raise Modular.surrogate_not_set, st1)
            | Some sg =>
                match Training.botorch_model_class C sg (env st1) with
                | (Raise e, e2) =>
                    (Raise e,
                     mkSt (self st1) e2
                          (trace st1 ++ [(Training.ReadBotorchModelClass sg, env st1)]))
                | (Ok mc, e2) =>
                    let ev3 :=
                      Training.CallConstructTrainingData (Training.fa_Xs a)
                        (Training.fa_Ys a) (Training.fa_Yvars a) mc in
                    let tr3 :=
                      trace st1 ++ [(Training.ReadBotorchModelClass sg, env st1);
                                    (ev3, e2)] in
                    match Training.construct_training_data C (Training.fa_Xs a)
                            (Training.fa_Ys a) (Training.fa_Yvars a) mc e2 with
                    | (Raise e, e3) => (Raise e, mkSt (self st1) e3 tr3)
                    | (Ok td, e3) =>
                        let opts := Modular.surrogate_fit_options (self st1) in
                        let opts' :=
                          if Training.refits_cold C opts
                          then <[STATE_DICT (Training.Keys C) := VNone]> opts
                          else opts in
                        (Ok (sg,
                             {| Training.sf_training_data := td;
                                Training.sf_bounds := Training.fa_bounds a;
                                Training.sf_task_features := Training.fa_task_features a;
                                Training.sf_feature_names := Training.fa_feature_names a;
                                Training.sf_fidelity_features :=
                                  Training.fa_fidelity_features a;
                                Training.sf_target_fidelities :=
                                  Training.fa_target_fidelities a;
                                Training.sf_metric_names := Training.fa_metric_names a;
                                Training.sf_candidate_metadata :=
                                  Training.fa_candidate_metadata a;
                                Training.sf_state_dict :=
                                  dict_get opts' (STATE_DICT (Training.Keys C)) VNone;
                                Training.sf_refit :=
                                  dict_get opts' (REFIT_ON_UPDATE (Training.Keys C))
                                           (VBool true) |}),
                         mkSt (Training.with_surrogate_fit_options opts' (self st1))
                              e3 tr3)
                    end
                end
            end
        end
    end.
Proof.
  cbv zeta. unfold Training.fit_prologue.
  unfold bindM at 1. unfold call at 1.
  destruct (Training.validate_data_format C _ _ _ _ (env st)) as [[[]|e] e0]; [|done].
  unfold bindM at 1.
  destruct (Training.ensure_surrogate C a _) as [[[]|e] st1]; [|done].
  unfold bindM at 1. rewrite training_surrogate_run.
  destruct (Modular._surrogate (self st1)) as [sg|] eqn:Hsg; [|done].
  unfold bindM at 1. unfold call at 1.
  destruct (Training.botorch_model_class C sg (env st1)) as [[mc|e] e2]; [|done].
  unfold bindM at 1. unfold call at 1. cbn [env self trace].
  destruct (Training.construct_training_data C _ _ _ mc e2) as [[td|e] e3];
    [|by rewrite <- app_assoc].
  unfold bindM at 1. unfold get_self at 1. cbn [env self trace].
  unfold bindM at 1.
  destruct (Training.refits_cold C (Modular.surrogate_fit_options (self st1))) eqn:Hcold.
  - unfold set_self at 1. cbn [env self trace].
    unfold bindM at 1. rewrite training_surrogate_run. cbn [env self trace].
    unfold Training.with_surrogate_fit_options at 1. cbn [Modular._surrogate].
    rewrite Hsg. unfold bindM, get_self, retM. cbn [env self trace].
    rewrite <- app_assoc. reflexivity.
  - unfold retM at 1.
    unfold bindM at 1. rewrite training_surrogate_run. cbn [env self trace].
    rewrite Hsg. unfold bindM, get_self, retM. cbn [env self trace].
    rewrite <- app_assoc. f_equal. f_equal. by destruct (self st1).
Qed.

(** [fit] is its prologue followed by the call of [Surrogate.fit]. *)
Lemma fit_run (a : Training.FitArgs Scalar) (st : TState) :
  Training.fit C a st =
    match Training.fit_prologue C a st with
    | (Ok (sg, args), st1) =>
        match Training.surrogate_fit C sg args (env st1) with
        | (r, e') =>
            (r, mkSt (self st1) e'
                     (trace st1 ++ [(Training.CallSurrogateFit sg args, env st1)]))
        end
    | (Raise e, st1) => (Raise e, st1)
    end.
Proof.
  unfold Training.fit, bindM.
  destruct (Training.fit_prologue C a st) as [[[sg args]|e] st1]; [|done].
  unfold call. by destruct (Training.surrogate_fit C sg args (env st1)).
Qed.

(** What the prologue leaves behind, whatever its outcome. *)
Lemma fit_prologue_trace (a : Training.FitArgs Scalar) (st : TState) :
  let out := Training.fit_prologue C a st in
  let opts := Modular.surrogate_fit_options (self st) in
  exists evs,
    trace out.2 = trace st ++ evs /\
    Training.surrogate_fit_calls evs = [] /\
    head evs =
      Some (Training.CallValidateDataFormat (Training.fa_Xs a) (Training.fa_Ys a)
              (Training.fa_Yvars a) (Training.fa_metric_names a), env st) /\
    same_acquisition_settings (self st) (self out.2) /\
    (forall sg0, Modular._surrogate (self st) = Some sg0 ->
       Modular._surrogate (self out.2) = Some sg0 /\ Forall not_builds_surrogate evs) /\
    (forall sg args, out.1 = Ok (sg, args) ->
       Modular._surrogate (self out.2) = Some sg /\
       Modular.surrogate_fit_options (self out.2) =
         (if Training.refits_cold C opts
          then <[STATE_DICT (Training.Keys C) := VNone]> opts else opts) /\
       Training.sf_state_dict args =
         dict_get (Modular.surrogate_fit_options (self out.2))
                  (STATE_DICT (Training.Keys C)) VNone /\
       Training.sf_refit args =
         dict_get (Modular.surrogate_fit_options (self out.2))
                  (REFIT_ON_UPDATE (Training.Keys C)) (VBool true) /\
       Training.sf_bounds args = Training.fa_bounds a /\
       Training.sf_task_features args = Training.fa_task_features a /\
       Training.sf_feature_names args = Training.fa_feature_names a /\
       Training.sf_fidelity_features args = Training.fa_fidelity_features a /\
       Training.sf_target_fidelities args = Training.fa_target_fidelities a /\
       Training.sf_metric_names args = Training.fa_metric_names a /\
       Training.sf_candidate_metadata args = Training.fa_candidate_metadata a).
Proof.
  cbv zeta. rewrite fit_prologue_run.
  destruct (Training.validate_data_format C _ _ _ _ (env st)) as [[[]|e] e0].
  2:{ eexists. split; [reflexivity|]. simpl. do 3 (split; [done|]).
      split; [|discriminate]. intros sg0 Hsg. split; [done|]. by repeat constructor. }
  match goal with |- context [Training.ensure_surrogate C a ?s] =>
    pose proof (ensure_surrogate_trace a s) as (evs1 & Htr1 & Hc1 & Ho1 & Ha1 & Hp1 & Hs1);
    destruct (Training.ensure_surrogate C a s) as [[[]|e] st1] eqn:Hens
  end; cbn [fst snd self env trace] in *.
  2:{ eexists. split; [by rewrite Htr1, <- app_assoc|]. simpl.
      rewrite Hc1. do 3 (split; [done|]). split; [|discriminate].
      intros sg0 Hsg. by specialize (Hp1 sg0 Hsg). }
  assert (Hpre : forall sg0, Modular._surrogate (self st) = Some sg0 ->
            st1 = mkSt (self st) e0 (trace st ++
              [(Training.CallValidateDataFormat (Training.fa_Xs a) (Training.fa_Ys a)
                  (Training.fa_Yvars a) (Training.fa_metric_names a), env st)])).
  { intros sg0 Hsg. specialize (Hp1 sg0 Hsg). by injection Hp1 as <-. }
  assert (Hevs1 : forall sg0, Modular._surrogate (self st) = Some sg0 -> evs1 = []).
  { intros sg0 Hsg. rewrite (Hpre sg0 Hsg) in Htr1. simpl in Htr1.
    rewrite <- (app_nil_r (_ ++ [_])) in Htr1 at 1. by apply app_inv_head in Htr1. }
  destruct (Modular._surrogate (self st1)) as [sg|] eqn:Hsg1.
  2:{ eexists. split; [simpl; by rewrite Htr1, <- app_assoc|]. simpl.
      rewrite Hc1. do 3 (split; [done|]). split; [|discriminate].
      intros sg0 Hsg. rewrite (Hpre sg0 Hsg) in Hsg1. simpl in Hsg1. congruence. }
  assert (Hkeep : forall sg0, Modular._surrogate (self st) = Some sg0 ->
            Modular._surrogate (self st1) = Some sg0).
  { intros sg0 Hsg. by rewrite (Hpre sg0 Hsg). }
  destruct (Training.botorch_model_class C sg (env st1)) as [[mc|e] e2].
  2:{ eexists. split; [simpl; by rewrite Htr1, <- !app_assoc|]. simpl.
      rewrite !surrogate_fit_calls_app, Hc1. do 3 (split; [done|]).
      split; [|discriminate].
      intros sg0 Hsg. split; [by apply Hkeep|].
      rewrite (Hevs1 sg0 Hsg). by repeat constructor. }
  destruct (Training.construct_training_data C _ _ _ mc e2) as [[td|e] e3].
  2:{ eexists. split; [simpl; by rewrite Htr1, <- !app_assoc|]. simpl.
      rewrite !surrogate_fit_calls_app, Hc1. do 3 (split; [done|]).
      split; [|discriminate].
      intros sg0 Hsg. split; [by apply Hkeep|].
      rewrite (Hevs1 sg0 Hsg). by repeat constructor. }
  eexists. split; [simpl; by rewrite Htr1, <- !app_assoc|]. simpl.
  rewrite !surrogate_fit_calls_app, Hc1. do 3 (split; [done|]). split.
  - intros sg0 Hsg. split; [by apply Hkeep|].
    rewrite (Hevs1 sg0 Hsg). by repeat constructor.
  - intros sg' args [= <- <-]. simpl. rewrite Ho1. done.
Qed.

(** X21.  [fit] validates first.  The first thing [fit] does is to call
    [validate_data_format] on the data and the metric names; if that raises,
    [fit] raises the same exception and has done nothing else: no surrogate is
    chosen, nothing is assigned.  Whatever happens, [fit] leaves the
    acquisition class, the acquisition-function class and the acquisition
    options alone. *)
Theorem modular_fit_validates_first (a : Training.FitArgs Scalar) (st : TState) :
  let out := Training.fit C a st in
  let ev0 :=
    Training.CallValidateDataFormat (Training.fa_Xs a) (Training.fa_Ys a)
      (Training.fa_Yvars a) (Training.fa_metric_names a) in
  head (new_events (Training.fit C a) st) = Some (ev0, env st) /\
  same_acquisition_settings (self st) (self out.2) /\
  match Training.validate_data_format C (Training.fa_Xs a) (Training.fa_Ys a)
          (Training.fa_Yvars a) (Training.fa_metric_names a) (env st) with
  | (Raise e, e0) => out = (Raise e, mkSt (self st) e0 (trace st ++ [(ev0, env st)]))
  | (Ok _, _) => True
  end.
Proof.
  cbv zeta. unfold new_events. rewrite fit_run.
  destruct (fit_prologue_trace a st) as (evs & Htr & _ & Hhead & Hacq & _).
  pose proof (fit_prologue_run a st) as Hrun. cbv zeta in Hrun.
  destruct (Training.fit_prologue C a st) as [[[sg args]|e] st1]; simpl in *.
  - destruct (Training.surrogate_fit C sg args (env st1)) as [r e']. simpl.
    rewrite Htr, <- app_assoc, drop_app_length.
    split; [by destruct evs|]. split; [done|].
    by destruct (Training.validate_data_format C _ _ _ _ (env st)) as [[[]|e] e0].
  - rewrite Htr, drop_app_length. split; [done|]. split; [done|].
    destruct (Training.validate_data_format C _ _ _ _ (env st)) as [[[]|e0] e0'];
      [done|]. by injection Hrun as -> ->.
Qed.

(** X22.  Which surrogate [fit] fits.  A facade that has a surrogate keeps it:
    [fit] calls neither [choose_model_class] nor [choose_mll_class] nor the
    constructor of [Surrogate].  On a facade without one, a [fit] that returns
    has chosen a model class for the data, then a likelihood class for that
    model class with the [state_dict] and [refit_on_update] options as they
    were stored before the call (defaults [None] and [True]), has built a
    surrogate from the two and stored it. *)
Theorem modular_fit_surrogate (a : Training.FitArgs Scalar) (st : TState) :
  let out := Training.fit C a st in
  let opts := Modular.surrogate_fit_options (self st) in
  (forall sg0, Modular._surrogate (self st) = Some sg0 ->
     Modular._surrogate (self out.2) = Some sg0 /\
     Forall (fun ev => Training.builds_surrogate ev.1 = false)
            (new_events (Training.fit C a) st)) /\
  (Modular._surrogate (self st) = None -> is_ok out.1 = true ->
   exists mc mll sg e1 e1' e2 e3,
     Training.choose_model_class C (Training.fa_Xs a) (Training.fa_Ys a)
       (Training.fa_Yvars a) (Training.fa_task_features a)
       (Training.fa_fidelity_features a) e1 = (Ok mc, e1') /\
     Training.choose_mll_class C mc
       (dict_get opts (STATE_DICT (Training.Keys C)) VNone)
       (dict_get opts (REFIT_ON_UPDATE (Training.Keys C)) (VBool true)) e1' =
       (Ok mll, e2) /\
     Training.new_surrogate C mc mll e2 = (Ok sg, e3) /\
     Modular._surrogate (self out.2) = Some sg).
Proof.
  cbv zeta. split.
  - intros sg0 Hsg. unfold new_events. rewrite fit_run.
    destruct (fit_prologue_trace a st) as (evs & Htr & _ & _ & _ & Hpre & _).
    destruct (Hpre sg0 Hsg) as [Hkeep Hnb].
    destruct (Training.fit_prologue C a st) as [[[sg args]|e] st1]; simpl in *.
    + destruct (Training.surrogate_fit C sg args (env st1)) as [r e']. simpl.
      split; [done|]. rewrite Htr, <- app_assoc, drop_app_length.
      apply Forall_app. split; [done|]. by repeat constructor.
    + split; [done|]. by rewrite Htr, drop_app_length.
  - intros Hnone. rewrite fit_run, fit_prologue_run.
    destruct (Training.validate_data_format C _ _ _ _ (env st)) as [[[]|e] e0];
      [|discriminate].
    rewrite ensure_surrogate_run. cbn [self env trace]. rewrite Hnone.
    destruct (Training.choose_model_class C _ _ _ _ _ e0) as [[mc|e] e1] eqn:Hmc;
      [|discriminate].
    destruct (Training.choose_mll_class C mc _ _ e1) as [[mll|e] e2] eqn:Hmll;
      [|discriminate].
    destruct (Training.new_surrogate C mc mll e2) as [[sg|e] e3] eqn:Hsg;
      [|discriminate].
    cbn [self env trace Training.with_surrogate Modular._surrogate].
    destruct (Training.botorch_model_class C sg e3) as [[mc'|e] e4]; [|discriminate].
    destruct (Training.construct_training_data C _ _ _ mc' e4) as [[td|e] e5];
      [|discriminate].
    match goal with |- context [Training.surrogate_fit C ?x ?y ?e] =>
      destruct (Training.surrogate_fit C x y e) as [r e6] end.
    intros _. exists mc, mll, sg, e0, e1, e2, e3. simpl. done.
Qed.

(** X23.  The state dict that [fit] hands to [Surrogate.fit].  [fit] calls
    [Surrogate.fit] at most once, on the facade's surrogate, and a [fit] that
    makes no such call does not return; what the call returns or raises is
    the outcome of [fit].  When the options ask for a refit without warm start
    ([refit_on_update] true, the default, and [warm_start_refitting] false),
    the call carries [state_dict=None] and [None] is also written over the
    [state_dict] option of the facade, where it stays; otherwise the options
    are left alone and the call carries their [state_dict], [None] if there
    is none.  [refit] is the [refit_on_update] option, [True] if there is
    none; bounds, features, names, target fidelities and candidate metadata
    are the caller's. *)
Theorem modular_fit_state_dict (a : Training.FitArgs Scalar) (st : TState) :
  let out := Training.fit C a st in
  let opts := Modular.surrogate_fit_options (self st) in
  let key := STATE_DICT (Training.Keys C) in
  let calls := Training.surrogate_fit_calls (new_events (Training.fit C a) st) in
  (calls = [] /\ is_ok out.1 = false) \/
  exists sg args e,
    calls = [(sg, args)] /\
    Modular._surrogate (self out.2) = Some sg /\
    Training.surrogate_fit C sg args e = (out.1, env out.2) /\
    (if Training.refits_cold C opts
     then Training.sf_state_dict args = VNone /\
          Modular.surrogate_fit_options (self out.2) = <[key := VNone]> opts
     else Training.sf_state_dict args = dict_get opts key VNone /\
          Modular.surrogate_fit_options (self out.2) = opts) /\
    Training.sf_refit args =
      dict_get (Modular.surrogate_fit_options (self out.2))
               (REFIT_ON_UPDATE (Training.Keys C)) (VBool true) /\
    Training.sf_bounds args = Training.fa_bounds a /\
    Training.sf_task_features args = Training.fa_task_features a /\
    Training.sf_feature_names args = Training.fa_feature_names a /\
    Training.sf_fidelity_features args = Training.fa_fidelity_features a /\
    Training.sf_target_fidelities args = Training.fa_target_fidelities a /\
    Training.sf_metric_names args = Training.fa_metric_names a /\
    Training.sf_candidate_metadata args = Training.fa_candidate_metadata a.
Proof.
  cbv zeta. unfold new_events. rewrite fit_run.
  destruct (fit_prologue_trace a st) as (evs & Htr & Hc & _ & _ & _ & Hargs).
  destruct (Training.fit_prologue C a st) as [[[sg args]|e] st1]; simpl in *.
  2:{ left. by rewrite Htr, drop_app_length. }
  destruct (Hargs sg args eq_refl)
    as (Hsg & Hopts & Hsd & Hrf & ? & ? & ? & ? & ? & ? & ?).
  destruct (Training.surrogate_fit C sg args (env st1)) as [r e'] eqn:Hfit. simpl.
  right. exists sg, args, (env st1).
  rewrite Htr, <- app_assoc, drop_app_length, surrogate_fit_calls_app, Hc. simpl.
  split; [done|]. split; [done|]. split; [done|].
  split; [|by repeat split].
  rewrite Hsd, Hopts.
  destruct (Training.refits_cold C _); [|done].
  split; [|done]. unfold dict_get. by rewrite lookup_insert_eq.
Qed.

(** X24.  [fit] then [predict].  After a [fit] that returned, the facade has a
    surrogate, the one that [Surrogate.fit] was called on, and [predict] is one
    call of that surrogate's [predict]: it no longer raises the [ValueError]
    of a facade without surrogate. *)
Theorem modular_fit_then_predict (a : Training.FitArgs Scalar) (st st' : TState)
    (X : Tensor Scalar) :
  Training.fit C a st = (Ok tt, st') ->
  exists sg args e,
    (Training.CallSurrogateFit sg args, e) ∈ trace st' /\
    Modular._surrogate (self st') = Some sg /\
    Training.predict CM X st' =
      (let '(r, e') := Modular.surrogate_predict CM sg X (env st') in
       (r, mkSt (self st') e'
                (trace st' ++
                 [(Training.Inherited (Modular.CallSurrogatePredict sg X), env st')]))).
Proof.
  rewrite fit_run.
  destruct (fit_prologue_trace a st) as (evs & Htr & _ & _ & _ & _ & Hargs).
  destruct (Training.fit_prologue C a st) as [[[sg args]|e] st1]; [|discriminate].
  destruct (Hargs sg args eq_refl) as (Hsg & _). simpl in Hsg.
  destruct (Training.surrogate_fit C sg args (env st1)) as [r e'] eqn:Hfit.
  intros [= -> <-]. exists sg, args, (env st1). simpl.
  split; [apply elem_of_app; right; apply list_elem_of_here|]. split; [done|].
  unfold Training.predict, embed, Modular.predict, Modular.surrogate, bindM, get_self,
    call, retM. simpl. rewrite Hsg. simpl.
  by destruct (Modular.surrogate_predict CM sg X e') as [r' e''].
Qed.

End ModularFitting.

(** ** Evaluating the acquisition function *)

Section ModularEvaluation.
Context {Scalar : Type} `{ScalarOps Scalar}.
Context {Surrogate Acquisition AcquisitionClass BotorchAcqfClass Ext : Type}.
Variable CM :
  Modular.Collaborators Scalar Surrogate Acquisition AcquisitionClass
    BotorchAcqfClass Ext.
Variable acquisition_evaluate :
  Acquisition -> Tensor Scalar -> Collab (Scalar:=Scalar) (Ext:=Ext) (Tensor Scalar).

Abbreviation EEvent :=
  (Evaluation.Event Scalar Surrogate Acquisition AcquisitionClass BotorchAcqfClass).
Abbreviation EState :=
  (St (Scalar:=Scalar) (Ext:=Ext)
      (Modular.BoTorchModel Scalar Surrogate AcquisitionClass BotorchAcqfClass)
      EEvent).

Lemma acquisition_evaluate_calls_app (l1 l2 : list (EEvent * Env Scalar Ext)) :
  Evaluation.acquisition_evaluate_calls (l1 ++ l2) =
    Evaluation.acquisition_evaluate_calls l1 ++ Evaluation.acquisition_evaluate_calls l2.
Proof. apply omap_app. Qed.

Lemma inherited_app (l1 l2 : list (EEvent * Env Scalar Ext)) :
  Evaluation.inherited (l1 ++ l2) = Evaluation.inherited l1 ++ Evaluation.inherited l2.
Proof. apply omap_app. Qed.

(** Inherited events are not calls of [evaluate], and reading them back gives
    the events of the embedded method. *)
Lemma inherited_lift
    (tr : list (Modular.Event Scalar Surrogate Acquisition AcquisitionClass
                  BotorchAcqfClass * Env Scalar Ext)) :
  Evaluation.acquisition_evaluate_calls (prod_map Evaluation.Inherited id <$> tr) = [] /\
  Evaluation.inherited (prod_map Evaluation.Inherited id <$> tr) = tr.
Proof.
  induction tr as [|[ev e] tr [IH1 IH2]]; [done|].
  unfold Evaluation.acquisition_evaluate_calls, Evaluation.inherited in *.
  cbn [fmap list_fmap omap list_omap prod_map fst snd id].
  rewrite IH1. split; [done|]. by rewrite IH2.
Qed.

(** X25.  [evaluate_acquisition_function] builds, then evaluates.  Everything it
    does before evaluating is what [_instantiate_acquisition] does on the same
    facade with the caller's arguments and options ([None] when no options
    are given): the same calls, the same effect on the facade.  [evaluate] is
    called at most once, on the acquisition that the acquisition class
    returned for the facade's surrogate, with the caller's [X], and what it
    returns or raises is the outcome.  If the acquisition cannot be built (no
    surrogate, or an exception on the way), [evaluate] is not called and
    [evaluate_acquisition_function] does not return. *)
Theorem evaluate_acquisition_function_builds_first (X : Tensor Scalar)
    (sp : ObjectiveSpec Scalar) (pending : option (list (Tensor Scalar)))
    (o : option (gmap string (PyVal Scalar))) (st : EState) :
  let run := Evaluation.evaluate_acquisition_function CM acquisition_evaluate
               X sp pending o in
  let build :=
    Modular._instantiate_acquisition CM sp pending (Evaluation.optional_dict o)
      (mkSt (self st) (env st) []) in
  let calls := Evaluation.acquisition_evaluate_calls (new_events run st) in
  Evaluation.inherited (new_events run st) = trace build.2 /\
  self (run st).2 = self build.2 /\
  match build.1 with
  | Raise e => (run st).1 = Raise e /\ env (run st).2 = env build.2 /\ calls = []
  | Ok acqf =>
      calls = [(acqf, X)] /\
      acquisition_evaluate acqf X (env build.2) = ((run st).1, env (run st).2) /\
      exists sg c e,
        Modular._surrogate (self st) = Some sg /\
        Modular._botorch_acqf_class (self (run st).2) = Some c /\
        Modular.new_acquisition CM (Modular.acquisition_class (self st))
          (acquisition_args sp pending (Evaluation.optional_dict o) sg c) e =
          (Ok acqf, env build.2)
  end.
Proof.
  cbv zeta. unfold new_events, Evaluation.evaluate_acquisition_function.
  unfold bindM, embed, call.
  pose proof (instantiate_acquisition_events CM sp pending (Evaluation.optional_dict o)
                (mkSt (self st) (env st) [])) as (evs & Htr & _ & Hsg & Hcalls).
  cbv zeta in Hcalls. simpl in Htr, Hsg, Hcalls.
  destruct (Modular._instantiate_acquisition CM sp pending (Evaluation.optional_dict o)
              (mkSt (self st) (env st) [])) as [[acqf|e] st1]; simpl in *.
  - destruct (acquisition_evaluate acqf X (env st1)) as [r e'] eqn:Hev. simpl.
    rewrite <- app_assoc, drop_app_length, inherited_app, acquisition_evaluate_calls_app.
    destruct (inherited_lift (trace st1)) as [-> ->]. simpl.
    split; [by rewrite app_nil_r|]. split; [done|]. split; [done|]. split; [done|].
    destruct (Modular._surrogate (self st)) as [sg|]; [|by destruct Hcalls].
    destruct Hcalls as [[_ ?]|(c & e & Hc & _ & _ & Hnew)]; [done|].
    by exists sg, c, e.
  - rewrite drop_app_length. destruct (inherited_lift (trace st1)) as [-> ->]. done.
Qed.

End ModularEvaluation.

(** ** The rest of the facades on explicit inputs *)

Lemma botorch_rounding_func_degenerate_witness :
  numel Toy.empty_batch = 0 /\
  t_shape (Toy.scalar 7) = [] /\
  (exists msg, forall f,
     botorch_rounding_func f Toy.empty_batch = Raise (mkExn RuntimeError msg)) /\
  (forall f, botorch_rounding_func f (Toy.scalar 7) =
             Raise (mkExn IndexError "tuple index out of range")).
Proof.
  assert (H1 : numel Toy.empty_batch = 0) by reflexivity.
  assert (H2 : t_shape (Toy.scalar 7) = []) by reflexivity.
  split; [exact H1|]. split; [exact H2|]. split.
  - exact (proj1 (botorch_rounding_func_degenerate Toy.empty_batch) H1).
  - exact (proj2 (botorch_rounding_func_degenerate (Toy.scalar 7)) H2).
Defined.

Lemma botorch_rounding_func_propagates_witness :
  rows_of Toy.batch 2 !! 1 = Some (Toy.vec [3; 4]%Z) /\
  botorch_rounding_func_at [2; 1] Scenario.refuse_threes Toy.batch =
    Raise (mkExn ValueError "cannot round a row that starts with 3") /\
  rows_of Scenario.transposed_batch 2 !! 0 = Some (Toy.vec [0; 1]%Z) /\
  botorch_rounding_func_at Scenario.transposed_strides
    (fun _ => Raise (mkExn ValueError "no rounding")) Scenario.transposed_batch =
    Raise view_not_compatible.
Proof.
  assert (H1 : rows_of Toy.batch 2 !! 1 = Some (Toy.vec [3; 4]%Z)) by reflexivity.
  assert (H2 : rows_of Scenario.transposed_batch 2 !! 0 = Some (Toy.vec [0; 1]%Z))
    by reflexivity.
  split; [exact H1|]. split; [|split; [exact H2|]].
  - apply (botorch_rounding_func_propagates Scenario.refuse_threes Toy.batch [2; 1]
             2 1 (Toy.vec [3; 4]%Z));
      [reflexivity|lia|reflexivity|exact H1|reflexivity|].
    intros j xj Hj Hrow. destruct j as [|j]; [|lia].
    injection Hrow as <-. reflexivity.
  - apply (botorch_rounding_func_propagates
             (fun _ => Raise (mkExn ValueError "no rounding")) Scenario.transposed_batch
             Scenario.transposed_strides 2 0 (Toy.vec [0; 1]%Z)
             (mkExn ValueError "no rounding"));
      [reflexivity|lia|reflexivity|exact H2|reflexivity|].
    intros j xj Hj. lia.
Defined.

Lemma get_rounding_func_point_witness :
  exists g,
    get_rounding_func (Some Toy.zero_row) = Some g /\
    g (Toy.vec [1; 2]%Z) = Ok (Toy.vec [0; 0]%Z).
Proof.
  apply (get_rounding_func_point Toy.zero_row (Toy.vec [1; 2]%Z) 2);
    [reflexivity|lia|reflexivity|].
  intros y Hy. injection Hy as <-. reflexivity.
Defined.

Lemma get_rounding_func_idempotent_witness :
  exists g g2,
    get_rounding_func (Some Toy.zero_row) = Some g /\
    get_rounding_func (get_rounding_func (Some Toy.zero_row)) = Some g2 /\
    g2 Toy.batch = g Toy.batch.
Proof.
  apply (get_rounding_func_idempotent Toy.zero_row Toy.batch 2);
    [reflexivity|reflexivity|].
  intros x y Hx Hy. injection Hy as <-.
  apply list_elem_of_fmap in Hx as (k & -> & _). reflexivity.
Defined.

(** A first input without dimensions: [fit] raises at [Xs[0].size(-1)], with
    the data already stored and no model. *)
Lemma fit_overwrites_data_witness :
  is_ok (Flat.fit Toy.collaborators [Toy.scalar 1] [] [] Scenario.digest []
                  Toy.unfitted).1 = false /\
  Flat.Xs (self (Flat.fit Toy.collaborators [Toy.scalar 1] [] [] Scenario.digest []
                          Toy.unfitted).2) = [Toy.scalar 1] /\
  Flat.dtype (self (Flat.fit Toy.collaborators [Toy.scalar 1] [] [] Scenario.digest []
                             Toy.unfitted).2) = Some Float64 /\
  Flat.model (self (Flat.fit Toy.collaborators [Toy.scalar 1] [] [] Scenario.digest []
                             Toy.unfitted).2) = None.
Proof.
  assert (H1 : is_ok (Flat.fit Toy.collaborators [Toy.scalar 1] [] [] Scenario.digest []
                        Toy.unfitted).1 = false) by reflexivity.
  split; [exact H1|].
  destruct (fit_overwrites_data Toy.collaborators [Toy.scalar 1] [] [] Scenario.digest
              [] Toy.unfitted) as (Hdt & _ & HXs & _ & _ & _ & Hm).
  split; [exact HXs|]. split; [exact Hdt|]. exact (Hm H1).
Defined.

Lemma fit_cold_start_witness :
  Flat.fit Toy.collaborators [Toy.vec [0; 1]; Toy.vec [0; 1]]%Z
    [Toy.vec [5]; Toy.vec [6]]%Z [Toy.vec [0]; Toy.vec [0]]%Z Scenario.digest
    ["a"; "b"] Toy.unfitted = (Ok tt, Toy.fitted) /\
  exists args m,
    trace Toy.fitted = trace Toy.unfitted ++
                       [(Flat.CallModelConstructor args, env Toy.unfitted)] /\
    Flat.model (self Toy.fitted) = Some m /\
    Flat.mc_state_dict args = None /\
    Flat.mc_refit_model args = None /\
    Flat.mc_metric_names args = ["a"; "b"].
Proof.
  assert (Hfit : Flat.fit Toy.collaborators [Toy.vec [0; 1]; Toy.vec [0; 1]]%Z
            [Toy.vec [5]; Toy.vec [6]]%Z [Toy.vec [0]; Toy.vec [0]]%Z Scenario.digest
            ["a"; "b"] Toy.unfitted = (Ok tt, Toy.fitted))
    by (vm_compute; reflexivity).
  split; [exact Hfit|].
  destruct (fit_cold_start Toy.collaborators _ _ _ _ _ _ _ Hfit)
    as (X0 & d & args & m & _ & _ & Htr & _ & Hm & Hsd & Hrf & _ & _ & _ & _ & _ &
        Hnames & _).
  exists args, m. split; [exact Htr|]. split; [exact Hm|].
  split; [exact Hsd|]. split; [exact Hrf|exact Hnames].
Defined.

Lemma fit_then_predict_witness :
  Flat.fit Toy.collaborators [Toy.vec [0; 1]; Toy.vec [0; 1]]%Z
    [Toy.vec [5]; Toy.vec [6]]%Z [Toy.vec [0]; Toy.vec [0]]%Z Scenario.digest
    ["a"; "b"] Toy.unfitted = (Ok tt, Toy.fitted) /\
  exists args m,
    (Flat.CallModelConstructor args, env Toy.unfitted) ∈ trace Toy.fitted /\
    Flat.model_constructor Toy.collaborators args (env Toy.unfitted) =
      (Ok m, env Toy.fitted) /\
    Flat.predict Toy.collaborators (Toy.vec [1; 1]%Z) Toy.fitted =
      (let '(r, e') := Flat.model_predictor Toy.collaborators (Some m)
                         (Toy.vec [1; 1]%Z) (env Toy.fitted) in
       (r, mkSt (self Toy.fitted) e'
                (trace Toy.fitted ++
                 [(Flat.CallModelPredictor (Some m) (Toy.vec [1; 1]%Z),
                   env Toy.fitted)]))).
Proof.
  assert (Hfit : Flat.fit Toy.collaborators [Toy.vec [0; 1]; Toy.vec [0; 1]]%Z
            [Toy.vec [5]; Toy.vec [6]]%Z [Toy.vec [0]; Toy.vec [0]]%Z Scenario.digest
            ["a"; "b"] Toy.unfitted = (Ok tt, Toy.fitted))
    by (vm_compute; reflexivity).
  split; [exact Hfit|].
  exact (fit_then_predict Toy.collaborators _ _ _ _ _ _ _ (Toy.vec [1; 1]%Z) Hfit).
Defined.

Lemma update_overwrites_data_witness :
  Flat.model (self Toy.fitted) = Some 2 /\
  Flat.Xs (self (Flat.update Toy.collaborators [Toy.vec [7%Z]] [] [] Toy.fitted).2)
    = [Toy.vec [7%Z]] /\
  Flat.dtype (self (Flat.update Toy.collaborators [Toy.vec [7%Z]] [] [] Toy.fitted).2)
    = Flat.dtype (self Toy.fitted) /\
  exists m',
    Flat.model (self (Flat.update Toy.collaborators [Toy.vec [7%Z]] [] []
                        Toy.fitted).2) = Some m'.
Proof.
  assert (H1 : Flat.model (self Toy.fitted) = Some 2) by reflexivity.
  split; [exact H1|].
  destruct (update_overwrites_data Toy.collaborators [Toy.vec [7%Z]] [] [] Toy.fitted
              2 H1) as (HXs & _ & _ & Hdt & _ & _ & _ & _ & _ & _ & Hok).
  split; [exact HXs|]. split; [exact Hdt|].
  destruct Hok as (args & e & m' & _ & _ & Hm); [reflexivity|].
  exists m'. exact Hm.
Defined.

Lemma refit_keyword_collision_witness :
  Flat.model (self Scenario.fitted_with_state_dict) = Some 1 /\
  is_Some (Flat._kwargs (self Scenario.fitted_with_state_dict) !! "state_dict") /\
  is_ok (Flat.update Toy.collaborators [Toy.vec [7%Z]] [] []
           Scenario.fitted_with_state_dict).1 = false /\
  is_ok (Flat.cross_validate Toy.collaborators [Toy.vec [7%Z]] [] [] (Toy.vec [1%Z])
           Scenario.fitted_with_state_dict).1 = false.
Proof.
  assert (H1 : is_Some (Flat._kwargs (self Scenario.fitted_with_state_dict)
                          !! "state_dict")).
  { exists VNone. vm_compute. reflexivity. }
  split; [reflexivity|]. split; [exact H1|].
  destruct (refit_keyword_collision Toy.collaborators [Toy.vec [7%Z]] [] []
              (Toy.vec [1%Z]) Scenario.fitted_with_state_dict "state_dict"
              (or_introl eq_refl) H1) as (Hup & _ & Hcv & _).
  split; [exact Hup|exact Hcv].
Defined.

Lemma gen_optimizer_arguments_witness :
  is_ok (Flat.gen Toy.collaborators (Toy.gen_args Toy.objective) Toy.fitted).1 = true /\
  exists o,
    acqf_optimizer_calls
      (new_events (Flat.gen Toy.collaborators (Toy.gen_args Toy.objective)) Toy.fitted)
      = [o] /\
    Flat.ao_n o = 3%Z /\
    t_shape (Flat.ao_bounds o) = [2; 2] /\
    t_data (Flat.ao_bounds o) = [0; 0; 1; 1]%Z /\
    t_dtype (Flat.ao_bounds o) = Float64.
Proof.
  assert (Hok : is_ok (Flat.gen Toy.collaborators (Toy.gen_args Toy.objective)
                         Toy.fitted).1 = true) by (vm_compute; reflexivity).
  split; [exact Hok|].
  pose proof (gen_optimizer_arguments Toy.collaborators (Toy.gen_args Toy.objective)
                Toy.fitted) as H.
  cbv zeta in H. destruct H as [Hargs _].
  assert (Hcalls : exists o,
            acqf_optimizer_calls
              (new_events (Flat.gen Toy.collaborators (Toy.gen_args Toy.objective))
                 Toy.fitted) = [o]).
  { vm_compute. eexists. reflexivity. }
  destruct Hcalls as [o Hcalls]. exists o. split; [exact Hcalls|].
  destruct (Hargs o) as (Hb & Hn & _).
  { rewrite Hcalls. apply list_elem_of_here. }
  split; [exact Hn|]. rewrite Hb. vm_compute.
  split; [reflexivity|]. split; reflexivity.
Defined.

Lemma gen_empty_bounds_witness :
  bounds Scenario.no_bounds = [] /\
  is_ok (Flat.gen Toy.collaborators (Toy.gen_args Scenario.no_bounds) Toy.fitted).1
    = false /\
  Flat.acqf_constructor_calls
    (new_events (Flat.gen Toy.collaborators (Toy.gen_args Scenario.no_bounds)) Toy.fitted)
    = [] /\
  acqf_optimizer_calls
    (new_events (Flat.gen Toy.collaborators (Toy.gen_args Scenario.no_bounds)) Toy.fitted)
    = [].
Proof.
  split; [reflexivity|].
  apply (gen_empty_bounds Toy.collaborators (Toy.gen_args Scenario.no_bounds) Toy.fitted).
  reflexivity.
Defined.

Lemma gen_rejects_option_keywords_witness :
  (is_ok (Flat.gen Toy.collaborators
            (Toy.gen_args (Toy.with_options (Some Scenario.acqf_kwargs_with_model)
                             Toy.objective)) Toy.fitted).1 = false /\
   Flat.acqf_constructor_calls
     (new_events (Flat.gen Toy.collaborators
                    (Toy.gen_args (Toy.with_options (Some Scenario.acqf_kwargs_with_model)
                                     Toy.objective))) Toy.fitted) = []) /\
  (is_ok (Flat.gen Toy.collaborators
            (Toy.gen_args (Toy.with_options (Some Scenario.optimizer_kwargs_with_n)
                             Toy.objective)) Toy.fitted).1 = false /\
   acqf_optimizer_calls
     (new_events (Flat.gen Toy.collaborators
                    (Toy.gen_args (Toy.with_options (Some Scenario.optimizer_kwargs_with_n)
                                     Toy.objective))) Toy.fitted) = []).
Proof.
  split.
  - pose proof (gen_rejects_option_keywords Toy.collaborators
                  (Toy.gen_args (Toy.with_options (Some Scenario.acqf_kwargs_with_model)
                                   Toy.objective)) Toy.fitted) as H.
    cbv zeta in H. destruct H as [H _]. apply H. vm_compute. reflexivity.
  - pose proof (gen_rejects_option_keywords Toy.collaborators
                  (Toy.gen_args (Toy.with_options (Some Scenario.optimizer_kwargs_with_n)
                                   Toy.objective)) Toy.fitted) as H.
    cbv zeta in H. destruct H as [_ H]. apply H. vm_compute. reflexivity.
Defined.

Lemma acquisition_class_chosen_once_witness :
  Modular._botorch_acqf_class (self Toy.modular_ready) = None /\
  Modular._botorch_acqf_class
    (self (Modular._instantiate_acquisition Toy.modular_collaborators Toy.objective
             None VNone Toy.modular_ready).2) = Some 9 /\
  Modular._botorch_acqf_class
    (self (Modular._instantiate_acquisition Toy.modular_collaborators Toy.objective
             None VNone Toy.modular_unset).2) = Some 9.
Proof.
  split; [reflexivity|]. split.
  - pose proof (acquisition_class_chosen_once Toy.modular_collaborators Toy.objective
                  None VNone Toy.modular_ready) as H.
    cbv zeta in H. destruct H as (_ & _ & _ & _ & _ & H). exact H.
  - pose proof (acquisition_class_chosen_once Toy.modular_collaborators Toy.objective
                  None VNone Toy.modular_unset) as H.
    cbv zeta in H. destruct H as (_ & _ & _ & _ & _ & H). exact H.
Defined.

Lemma instantiate_acquisition_arguments_witness :
  exists c,
    acquisition_class_calls
      (new_events (Modular._instantiate_acquisition Toy.modular_collaborators
                     Toy.objective None VNone) Toy.modular_ready)
      = [(0, acquisition_args Toy.objective None VNone 1 c)] /\
    acquisition_class_calls
      (new_events (Modular._instantiate_acquisition Toy.modular_collaborators
                     Toy.objective None VNone) Toy.modular_unset) = [].
Proof.
  pose proof (instantiate_acquisition_arguments Toy.modular_collaborators Toy.objective
                None VNone Toy.modular_ready) as H.
  cbv zeta in H. destruct H as [[_ Hok]|(sg & c & e & Hsg & _ & Hcalls & _)].
  { vm_compute in Hok. discriminate. }
  injection Hsg as <-. exists c. split; [exact Hcalls|].
  pose proof (instantiate_acquisition_arguments Toy.modular_collaborators Toy.objective
                None VNone Toy.modular_unset) as H.
  cbv zeta in H. destruct H as [[Hc _]|(sg & c' & e' & Hsg & _)]; [exact Hc|].
  discriminate.
Defined.

Lemma bounds_as_tensor_value_witness :
  (exists t,
     (Modular._bounds_as_tensor Toy.modular_collaborators [(0, 1); (2, 3)]%Z
        Toy.modular_ready).1 = Ok t /\
     t_shape t = [2; 2] /\ t_data t = [0; 2; 1; 3]%Z) /\
  is_ok (Modular._bounds_as_tensor Toy.modular_collaborators [] Toy.modular_ready).1
    = false /\
  is_ok (Modular._bounds_as_tensor Toy.modular_collaborators [(0, 1); (2, 3)]%Z
           Toy.modular_unset).1 = false.
Proof.
  split; [|split].
  - pose proof (bounds_as_tensor_value Toy.modular_collaborators [(0, 1); (2, 3)]%Z
                  Toy.modular_ready) as H.
    cbv zeta in H. destruct H as (_ & _ & Hval).
    destruct (Modular._bounds_as_tensor Toy.modular_collaborators [(0, 1); (2, 3)]%Z
                Toy.modular_ready).1 as [t|e] eqn:Hout.
    + exists t. split; [reflexivity|].
      destruct (Hval t eq_refl) as (sg & dt & dv & e1 & _ & _ & _ & ->).
      split; reflexivity.
    + vm_compute in Hout. discriminate.
  - pose proof (bounds_as_tensor_value Toy.modular_collaborators [] Toy.modular_ready)
      as H.
    cbv zeta in H. destruct H as (_ & Hno & _). apply Hno. by left.
  - pose proof (bounds_as_tensor_value Toy.modular_collaborators [(0, 1); (2, 3)]%Z
                  Toy.modular_unset) as H.
    cbv zeta in H. destruct H as (_ & Hno & _). apply Hno. by right.
Defined.

Lemma modular_gen_optimize_witness :
  exists acqf o,
    acquisition_optimize_calls
      (new_events (Modular.gen Toy.modular_collaborators (Toy.gen_args Toy.objective))
         Toy.modular_ready) = [(acqf, o)] /\
    Modular.az_n o = 3%Z /\
    t_shape (Modular.az_bounds o) = [2; 2] /\
    t_data (Modular.az_bounds o) = [0; 0; 1; 1]%Z.
Proof.
  pose proof (modular_gen_optimize Toy.modular_collaborators (Toy.gen_args Toy.objective)
                Toy.modular_ready) as H.
  cbv zeta in H.
  destruct H as (_ & [[_ Hok]|(acqf & o & sg & dt & dv & e1 & e1' & e2 & e2' & Hcalls &
                                _ & _ & _ & Hb & Hn & _)]).
  { vm_compute in Hok. discriminate. }
  exists acqf, o. split; [exact Hcalls|]. split; [exact Hn|].
  rewrite Hb. split; reflexivity.
Defined.

Lemma feature_importances_value_witness :
  exists arr st',
    Importances.feature_importances Scenario.importance_collaborators
      (Scenario.with_model_number (Some 0)) = (Ok arr, st') /\
    a_shape arr = [2; 1; 2] /\
    a_data arr = [QArith_base.Qmake 1 2; QArith_base.Qmake 1 4;
                  QArith_base.Qmake 1 3; QArith_base.Qmake 1 6] /\
    self st' = self (Scenario.with_model_number (Some 0)).
Proof.
  destruct (feature_importances_value Scenario.importance_collaborators
              (Scenario.with_model_number (Some 0)) 0 1 [2]
              [Scenario.lengthscale_of 1; Scenario.lengthscale_of 2] 1 2 (cuda 0))
    as (arr & st' & Hrun & Hshape & Hdata & Hself & _).
  - reflexivity.
  - reflexivity.
  - repeat constructor.
  - repeat constructor.
  - exists arr, st'. split; [exact Hrun|]. split; [exact Hshape|].
    split; [|exact Hself]. rewrite Hdata. reflexivity.
Defined.

Lemma feature_importances_nothing_to_read_witness :
  Importances.feature_importances Scenario.importance_collaborators
    (Scenario.with_model_number None) =
    (Raise Importances.not_fitted_feature_importances,
     Scenario.with_model_number None) /\
  exists msg,
    Importances.feature_importances Scenario.importance_collaborators
      (Scenario.with_model_number (Some 9)) =
      (Raise (mkExn RuntimeError msg), Scenario.with_model_number (Some 9)).
Proof.
  split.
  - exact (feature_importances_nothing_to_read Scenario.importance_collaborators
             (Scenario.with_model_number None)).
  - apply (feature_importances_nothing_to_read Scenario.importance_collaborators
             (Scenario.with_model_number (Some 9))).
    reflexivity.
Defined.

Lemma feature_importances_reads_witness :
  (new_events (Importances.feature_importances Scenario.importance_collaborators)
     (Scenario.with_model_number (Some 0))).*1 =
    [Importances.ReadLengthscale 1; Importances.ReadLengthscale 2].
Proof.
  pose proof (feature_importances_reads Scenario.importance_collaborators
                (Scenario.with_model_number (Some 0))) as H.
  cbv zeta in H. destruct H as (_ & k & Hev & Hk).
  rewrite Hev, Hk by (vm_compute; reflexivity). reflexivity.
Defined.

Lemma modular_fit_validates_first_witness :
  Training.fit Scenario.training_collaborators Scenario.fit_args_mismatched
    Scenario.training_unset =
    (Raise (mkExn ValueError "lengths of Xs and Ys differ"),
     mkSt (self Scenario.training_unset) Toy.env0
          [(Training.CallValidateDataFormat [Toy.vec [0; 1]%Z]
              [Toy.vec [5%Z]; Toy.vec [6%Z]] [Toy.vec [0%Z]] ["a"], Toy.env0)]).
Proof.
  pose proof (modular_fit_validates_first Scenario.training_collaborators
                Scenario.fit_args_mismatched Scenario.training_unset) as H.
  cbv zeta in H. destruct H as (_ & _ & H). exact H.
Defined.

Lemma modular_fit_surrogate_witness :
  Modular._surrogate
    (self (Training.fit Scenario.training_collaborators Scenario.fit_args
             Scenario.training_ready).2) = Some 1 /\
  Modular._surrogate
    (self (Training.fit Scenario.training_collaborators Scenario.fit_args
             Scenario.training_unset).2) = Some 15.
Proof.
  pose proof (modular_fit_surrogate Scenario.training_collaborators Scenario.fit_args
                Scenario.training_ready) as H.
  cbv zeta in H. destruct H as [H _]. destruct (H 1 eq_refl) as [Hkeep _].
  split; [exact Hkeep|].
  pose proof (modular_fit_surrogate Scenario.training_collaborators Scenario.fit_args
                Scenario.training_unset) as H'.
  cbv zeta in H'. destruct H' as [_ H'].
  destruct H' as (mc & mll & sg & e1 & e1' & e2 & e3 & Hmc & Hmll & Hsg & Hst).
  - reflexivity.
  - vm_compute. reflexivity.
  - injection Hmc as <- _. injection Hmll as <- _. injection Hsg as <- _.
    exact Hst.
Defined.

Lemma modular_fit_state_dict_witness :
  Training.refits_cold Scenario.training_collaborators Scenario.cold_options = true /\
  exists sg args,
    Training.surrogate_fit_calls
      (new_events (Training.fit Scenario.training_collaborators Scenario.fit_args)
         Scenario.training_unset) = [(sg, args)] /\
    Training.sf_state_dict args = VNone /\
    Modular.surrogate_fit_options
      (self (Training.fit Scenario.training_collaborators Scenario.fit_args
               Scenario.training_unset).2) !! "STATE_DICT" = Some VNone.
Proof.
  assert (Hcold : Training.refits_cold Scenario.training_collaborators
                    (Modular.surrogate_fit_options (self Scenario.training_unset))
                  = true) by reflexivity.
  split; [exact Hcold|].
  pose proof (modular_fit_state_dict Scenario.training_collaborators Scenario.fit_args
                Scenario.training_unset) as H.
  cbv zeta in H.
  destruct H as [[_ Hok]|(sg & args & e & Hcalls & _ & _ & Hsd & _)].
  { vm_compute in Hok. discriminate. }
  rewrite Hcold in Hsd. destruct Hsd as [Hsd Hopts].
  exists sg, args. split; [exact Hcalls|]. split; [exact Hsd|].
  rewrite Hopts. apply lookup_insert_eq.
Defined.

Lemma modular_fit_then_predict_witness :
  Training.fit Scenario.training_collaborators Scenario.fit_args
    Scenario.training_unset = (Ok tt, Scenario.training_fitted) /\
  exists sg,
    Modular._surrogate (self Scenario.training_fitted) = Some sg /\
    Training.predict Toy.modular_collaborators (Toy.vec [1; 1]%Z)
      Scenario.training_fitted =
      (let '(r, e') := Modular.surrogate_predict Toy.modular_collaborators sg
                         (Toy.vec [1; 1]%Z) (env Scenario.training_fitted) in
       (r, mkSt (self Scenario.training_fitted) e'
                (trace Scenario.training_fitted ++
                 [(Training.Inherited
                     (Modular.CallSurrogatePredict sg (Toy.vec [1; 1]%Z)),
                   env Scenario.training_fitted)]))).
Proof.
  assert (Hfit : Training.fit Scenario.training_collaborators Scenario.fit_args
                   Scenario.training_unset = (Ok tt, Scenario.training_fitted))
    by (vm_compute; reflexivity).
  split; [exact Hfit|].
  destruct (modular_fit_then_predict Scenario.training_collaborators
              Toy.modular_collaborators Scenario.fit_args Scenario.training_unset
              Scenario.training_fitted (Toy.vec [1; 1]%Z) Hfit)
    as (sg & args & e & _ & Hsg & Hpred).
  exists sg. split; [exact Hsg|exact Hpred].
Defined.

Lemma evaluate_acquisition_function_builds_first_witness :
  Evaluation.acquisition_evaluate_calls
    (new_events (Evaluation.evaluate_acquisition_function Toy.modular_collaborators
                   Scenario.evaluate_seven (Toy.vec [1; 1]%Z) Toy.objective None None)
       Scenario.evaluation_ready) = [(5, Toy.vec [1; 1]%Z)] /\
  (Evaluation.evaluate_acquisition_function Toy.modular_collaborators
     Scenario.evaluate_seven (Toy.vec [1; 1]%Z) Toy.objective None None
     Scenario.evaluation_ready).1 = Ok (Toy.scalar 7).
Proof.
  pose proof (evaluate_acquisition_function_builds_first Toy.modular_collaborators
                Scenario.evaluate_seven (Toy.vec [1; 1]%Z) Toy.objective None None
                Scenario.evaluation_ready) as H.
  cbv zeta in H. destruct H as (_ & _ & H).
  change (Modular._instantiate_acquisition Toy.modular_collaborators Toy.objective None
            (Evaluation.optional_dict None)
            (mkSt (self Scenario.evaluation_ready) (env Scenario.evaluation_ready) [])).1
    with (@Ok nat 5) in H.
  destruct H as (Hcalls & Hev & _). split; [exact Hcalls|].
  exact (eq_sym (f_equal fst Hev)).
Defined.
